(** * GoReddit: the mutation layer of [main.go]

    A shallow embedding of the write path of the server: the SQLite store as
    the schema of [InitDatabase] declares it, the [DatabaseManager] methods
    that mutate it, the [RequestProcessingActor] workers and the round-robin
    [ActorPool] in front of them.

    Conventions.
    - A Go [int] and an SQLite INTEGER are modelled as [Z].  Row ids and karma
      stay far below 2^63 in any run of the server (each costs at least one
      request); the one place where the bound is visible to the program, the
      AUTOINCREMENT allocator, is modelled with its SQLITE_FULL failure.
    - A Go [error] value is [option error]: [None] is [nil].
    - The [created_at] / [joined_at] columns are filled by the engine with the
      wall-clock time and are never read by the write path; they are left out
      of the rows.
    - Every [DatabaseManager] method holds [dm.mu] from its first statement to
      its return, so each method is one transition of the store: no other
      method observes the states in between. *)

From Stdlib Require Import ZArith List String Bool Lia.
Import ListNotations.

Local Open Scope string_scope.
Local Open Scope list_scope.
Local Open Scope Z_scope.

(** ** Errors *)

Inductive error : Type :=
| SqliteConstraintUnique (what : string)
| SqliteConstraintCheck (what : string)
| SqliteConstraintForeignKey
| SqliteFull
| SqliteIOErr
| SqliteNoSuchTable (name : string)
| Errorf (prefix : string) (cause : error)
| ErrorMsg (msg : string).

(** ** Rows and tables *)

Record UserRow := mkUser
  { u_id : Z; u_username : string; u_password : string; u_karma : Z }.

Record SubredditRow := mkSubreddit
  { sr_id : Z; sr_name : string; sr_description : string }.

Record MemberRow := mkMember
  { m_subreddit_id : Z; m_user_id : Z }.

Record PostRow := mkPost
  { p_id : Z; p_title : string; p_content : string;
    p_author_id : Z; p_subreddit_id : Z }.

Record CommentRow := mkComment
  { c_id : Z; c_content : string; c_author_id : Z;
    c_post_id : option Z; c_parent_comment_id : option Z }.

Record VoteRow := mkVote
  { v_user_id : Z; v_target_id : Z; v_target_type : string; v_vote_value : Z }.

Record MessageRow := mkMessage
  { dm_id : Z; dm_from_user_id : Z; dm_to_user_id : Z; dm_content : string }.

Record SubscriptionRow := mkSubscription
  { sub_subscriber_id : Z; sub_subscribed_user_id : Z }.

(** The database file: the eight tables of [InitDatabase] and the engine's
    own [sqlite_sequence] table, which holds one (name, seq) row for every
    AUTOINCREMENT table that has ever received a row. *)
Record Store := mkStore
  { users : list UserRow;
    subreddits : list SubredditRow;
    subreddit_members : list MemberRow;
    posts : list PostRow;
    comments : list CommentRow;
    votes : list VoteRow;
    direct_messages : list MessageRow;
    user_subscriptions : list SubscriptionRow;
    sqlite_sequence : list (string * Z) }.

Definition empty_store : Store :=
  mkStore [] [] [] [] [] [] [] [] [].

Definition with_users (s : Store) (x : list UserRow) : Store :=
  mkStore x (subreddits s) (subreddit_members s) (posts s) (comments s)
          (votes s) (direct_messages s) (user_subscriptions s) (sqlite_sequence s).
Definition with_subreddits (s : Store) (x : list SubredditRow) : Store :=
  mkStore (users s) x (subreddit_members s) (posts s) (comments s)
          (votes s) (direct_messages s) (user_subscriptions s) (sqlite_sequence s).
Definition with_subreddit_members (s : Store) (x : list MemberRow) : Store :=
  mkStore (users s) (subreddits s) x (posts s) (comments s)
          (votes s) (direct_messages s) (user_subscriptions s) (sqlite_sequence s).
Definition with_posts (s : Store) (x : list PostRow) : Store :=
  mkStore (users s) (subreddits s) (subreddit_members s) x (comments s)
          (votes s) (direct_messages s) (user_subscriptions s) (sqlite_sequence s).
Definition with_comments (s : Store) (x : list CommentRow) : Store :=
  mkStore (users s) (subreddits s) (subreddit_members s) (posts s) x
          (votes s) (direct_messages s) (user_subscriptions s) (sqlite_sequence s).
Definition with_votes (s : Store) (x : list VoteRow) : Store :=
  mkStore (users s) (subreddits s) (subreddit_members s) (posts s) (comments s)
          x (direct_messages s) (user_subscriptions s) (sqlite_sequence s).
Definition with_direct_messages (s : Store) (x : list MessageRow) : Store :=
  mkStore (users s) (subreddits s) (subreddit_members s) (posts s) (comments s)
          (votes s) x (user_subscriptions s) (sqlite_sequence s).
Definition with_user_subscriptions (s : Store) (x : list SubscriptionRow) : Store :=
  mkStore (users s) (subreddits s) (subreddit_members s) (posts s) (comments s)
          (votes s) (direct_messages s) x (sqlite_sequence s).
Definition with_sqlite_sequence (s : Store) (x : list (string * Z)) : Store :=
  mkStore (users s) (subreddits s) (subreddit_members s) (posts s) (comments s)
          (votes s) (direct_messages s) (user_subscriptions s) x.

(** ** The SQL statements of the write path *)

Module SQL.

(** One constructor per statement text that [main.go] passes to [Exec]; the
    arguments are the bound parameters, in the order of the [?] marks.
    [DeleteFrom] and [DeleteFromSequence] are the two texts that
    [ResetDatabase] builds with [fmt.Sprintf] from a table name. *)
Inductive stmt : Type :=
| InsertUser (username password : string)
| InsertSubreddit (name description : string)
| InsertMember (subreddit_id user_id : Z)
| InsertOrIgnoreMember (subreddit_id user_id : Z)
| DeleteMember (subreddit_id user_id : Z)
| InsertPost (title content : string) (author_id subreddit_id : Z)
| InsertVote (user_id target_id : Z) (target_type : string) (vote_value : Z)
| UpdateKarmaOfPostAuthor (delta target_id : Z)
| UpdateKarmaOfCommentAuthor (delta target_id : Z)
| InsertComment (content : string) (author_id post_id : Z) (parent : option Z)
| InsertDirectMessage (from_user_id to_user_id : Z) (content : string)
| InsertOrIgnoreSubscription (subscriber_id subscribed_user_id : Z)
| DeleteSubscription (subscriber_id subscribed_user_id : Z)
| DeleteFrom (table : string)
| DeleteFromSequence (name : string).

(** What [sql.Result] gives back.  [LastInsertId] is read by the program only
    after an insert into an AUTOINCREMENT table; elsewhere it is set to 0. *)
Record result := mkResult { LastInsertId : Z; RowsAffected : Z }.

(** *** AUTOINCREMENT *)

Definition max_rowid : Z := 9223372036854775807.

Definition seq_of (name : string) (sq : list (string * Z)) : Z :=
  match find (fun p => String.eqb (fst p) name) sq with
  | Some p => snd p
  | None => 0
  end.

Definition seq_set (name : string) (v : Z) (sq : list (string * Z))
  : list (string * Z) :=
  if existsb (fun p => String.eqb (fst p) name) sq
  then map (fun p => if String.eqb (fst p) name then (name, v) else p) sq
  else sq ++ [(name, v)].

Definition seq_delete (name : string) (sq : list (string * Z))
  : list (string * Z) :=
  filter (fun p => negb (String.eqb (fst p) name)) sq.

Definition largest (ids : list Z) : Z := fold_right Z.max 0 ids.

(** The id an AUTOINCREMENT table hands out: one more than the larger of the
    largest id in the table and the table's [sqlite_sequence] entry;
    SQLITE_FULL when that would pass the largest 64-bit integer. *)
Definition next_id (name : string) (ids : list Z) (s : Store) : option Z :=
  let cur := Z.max (largest ids) (seq_of name (sqlite_sequence s)) in
  if max_rowid <=? cur then None else Some (cur + 1).

Definition bump (name : string) (id : Z) (s : Store) : Store :=
  with_sqlite_sequence s (seq_set name id (sqlite_sequence s)).

(** *** Constraints *)

Definition has_id (ids : list Z) (k : Z) : bool := existsb (Z.eqb k) ids.

Definition member_eqb (a b : MemberRow) : bool :=
  (m_subreddit_id a =? m_subreddit_id b) && (m_user_id a =? m_user_id b).

Definition subscription_eqb (a b : SubscriptionRow) : bool :=
  (sub_subscriber_id a =? sub_subscriber_id b)
  && (sub_subscribed_user_id a =? sub_subscribed_user_id b).

Definition vote_eqb (a b : VoteRow) : bool :=
  (v_user_id a =? v_user_id b) && (v_target_id a =? v_target_id b)
  && String.eqb (v_target_type a) (v_target_type b)
  && (v_vote_value a =? v_vote_value b).

Definition user_ids (s : Store) : list Z := map u_id (users s).
Definition subreddit_ids (s : Store) : list Z := map sr_id (subreddits s).
Definition post_ids (s : Store) : list Z := map p_id (posts s).
Definition comment_ids (s : Store) : list Z := map c_id (comments s).

Definition opt_in (ids : list Z) (k : option Z) : bool :=
  match k with Some k => has_id ids k | None => true end.

(** Does some key of [fks] point at a row of the parent table? *)
Definition referenced (ids fks : list Z) : bool := existsb (has_id ids) fks.

Definition some_keys (l : list (option Z)) : list Z :=
  flat_map (fun o => match o with Some k => [k] | None => [] end) l.

(** *** Execution of one statement

    [exec fk q s] runs [q] on [s].  A statement is atomic: [inr e] means the
    store is as it was.  [fk] is the connection's [foreign_keys] pragma: the
    FOREIGN KEY clauses of the schema are checked only when it is on. *)

Definition done (n : Z) (s : Store) : (result * Store) + error :=
  inl (mkResult 0 n, s).

Definition Zlen {A : Type} (l : list A) : Z := Z.of_nat (List.length l).

(** [karma + ?] on the rows of [author].  The column holds 64-bit integers,
    and the sum here is the sum of SQLite as long as it is one of them; past
    the bound SQLite goes over to floating point, which the rows of this
    model do not follow (see [karma_in_range]). *)
Definition add_karma (author delta : Z) (us : list UserRow) : list UserRow :=
  map (fun u => if u_id u =? author
                then mkUser (u_id u) (u_username u) (u_password u) (u_karma u + delta)
                else u) us.

Definition author_of_post (s : Store) (target_id : Z) : option Z :=
  option_map p_author_id (find (fun p => p_id p =? target_id) (posts s)).

Definition author_of_comment (s : Store) (target_id : Z) : option Z :=
  option_map c_author_id (find (fun c => c_id c =? target_id) (comments s)).

(** [UPDATE users SET karma = karma + ? WHERE id = (SELECT author_id ...)]:
    a scalar subquery without a row is NULL, and [id = NULL] holds of no row. *)
Definition update_karma (author : option Z) (delta : Z) (s : Store)
  : (result * Store) + error :=
  match author with
  | None => done 0 s
  | Some a =>
      done (Zlen (filter (fun u => u_id u =? a) (users s)))
           (with_users s (add_karma a delta (users s)))
  end.

Definition delete_from (fk : bool) (table : string) (s : Store)
  : (result * Store) + error :=
  if String.eqb table "direct_messages" then
    done (Zlen (direct_messages s)) (with_direct_messages s [])
  else if String.eqb table "votes" then
    done (Zlen (votes s)) (with_votes s [])
  else if String.eqb table "comments" then
    done (Zlen (comments s)) (with_comments s [])
  else if String.eqb table "posts" then
    if fk && referenced (post_ids s) (some_keys (map c_post_id (comments s)))
    then inr SqliteConstraintForeignKey
    else done (Zlen (posts s)) (with_posts s [])
  else if String.eqb table "subreddit_members" then
    done (Zlen (subreddit_members s)) (with_subreddit_members s [])
  else if String.eqb table "subreddits" then
    if fk && referenced (subreddit_ids s)
               (map m_subreddit_id (subreddit_members s)
                ++ map p_subreddit_id (posts s))
    then inr SqliteConstraintForeignKey
    else done (Zlen (subreddits s)) (with_subreddits s [])
  else if String.eqb table "users" then
    if fk && referenced (user_ids s)
               (map m_user_id (subreddit_members s)
                ++ map p_author_id (posts s)
                ++ map c_author_id (comments s)
                ++ map v_user_id (votes s)
                ++ map dm_from_user_id (direct_messages s)
                ++ map dm_to_user_id (direct_messages s)
                ++ map sub_subscriber_id (user_subscriptions s)
                ++ map sub_subscribed_user_id (user_subscriptions s))
    then inr SqliteConstraintForeignKey
    else done (Zlen (users s)) (with_users s [])
  else if String.eqb table "user_subscriptions" then
    done (Zlen (user_subscriptions s)) (with_user_subscriptions s [])
  else inr (SqliteNoSuchTable table).

Definition exec (fk : bool) (q : stmt) (s : Store) : (result * Store) + error :=
  match q with
  | InsertUser username password =>
      match next_id "users" (user_ids s) s with
      | None => inr SqliteFull
      | Some id =>
          if existsb (fun u => String.eqb (u_username u) username) (users s)
          then inr (SqliteConstraintUnique "users.username")
          else inl (mkResult id 1,
                    bump "users" id
                      (with_users s (users s ++ [mkUser id username password 0])))
      end
  | InsertSubreddit name description =>
      match next_id "subreddits" (subreddit_ids s) s with
      | None => inr SqliteFull
      | Some id =>
          if existsb (fun r => String.eqb (sr_name r) name) (subreddits s)
          then inr (SqliteConstraintUnique "subreddits.name")
          else inl (mkResult id 1,
                    bump "subreddits" id
                      (with_subreddits s
                         (subreddits s ++ [mkSubreddit id name description])))
      end
  | InsertMember sid uid =>
      if existsb (member_eqb (mkMember sid uid)) (subreddit_members s)
      then inr (SqliteConstraintUnique "subreddit_members.subreddit_id, subreddit_members.user_id")
      else if fk && negb (has_id (subreddit_ids s) sid && has_id (user_ids s) uid)
      then inr SqliteConstraintForeignKey
      else done 1 (with_subreddit_members s
                     (subreddit_members s ++ [mkMember sid uid]))
  | InsertOrIgnoreMember sid uid =>
      if existsb (member_eqb (mkMember sid uid)) (subreddit_members s)
      then done 0 s
      else if fk && negb (has_id (subreddit_ids s) sid && has_id (user_ids s) uid)
      then inr SqliteConstraintForeignKey
      else done 1 (with_subreddit_members s
                     (subreddit_members s ++ [mkMember sid uid]))
  | DeleteMember sid uid =>
      let keep := filter (fun m => negb (member_eqb (mkMember sid uid) m))
                         (subreddit_members s) in
      done (Zlen (subreddit_members s) - Zlen keep) (with_subreddit_members s keep)
  | InsertPost title content author sid =>
      match next_id "posts" (post_ids s) s with
      | None => inr SqliteFull
      | Some id =>
          if fk && negb (has_id (user_ids s) author && has_id (subreddit_ids s) sid)
          then inr SqliteConstraintForeignKey
          else inl (mkResult id 1,
                    bump "posts" id
                      (with_posts s (posts s ++ [mkPost id title content author sid])))
      end
  | InsertVote uid target ty value =>
      if negb (String.eqb ty "post" || String.eqb ty "comment")
      then inr (SqliteConstraintCheck "target_type IN ('post', 'comment')")
      else if negb ((value =? -1) || (value =? 1))
      then inr (SqliteConstraintCheck "vote_value IN (-1, 1)")
      else if existsb (vote_eqb (mkVote uid target ty value)) (votes s)
      then inr (SqliteConstraintUnique "votes.user_id, votes.target_id, votes.target_type, votes.vote_value")
      else if fk && negb (has_id (user_ids s) uid)
      then inr SqliteConstraintForeignKey
      else done 1 (with_votes s (votes s ++ [mkVote uid target ty value]))
  | UpdateKarmaOfPostAuthor delta target =>
      update_karma (author_of_post s target) delta s
  | UpdateKarmaOfCommentAuthor delta target =>
      update_karma (author_of_comment s target) delta s
  | InsertComment content author post parent =>
      match next_id "comments" (comment_ids s) s with
      | None => inr SqliteFull
      | Some id =>
          if fk && negb (has_id (user_ids s) author
                         && has_id (post_ids s) post
                         && opt_in (id :: comment_ids s) parent)
          then inr SqliteConstraintForeignKey
          else inl (mkResult id 1,
                    bump "comments" id
                      (with_comments s
                         (comments s ++ [mkComment id content author (Some post) parent])))
      end
  | InsertDirectMessage from to content =>
      match next_id "direct_messages" (map dm_id (direct_messages s)) s with
      | None => inr SqliteFull
      | Some id =>
          if fk && negb (has_id (user_ids s) from && has_id (user_ids s) to)
          then inr SqliteConstraintForeignKey
          else inl (mkResult id 1,
                    bump "direct_messages" id
                      (with_direct_messages s
                         (direct_messages s ++ [mkMessage id from to content])))
      end
  | InsertOrIgnoreSubscription a b =>
      if existsb (subscription_eqb (mkSubscription a b)) (user_subscriptions s)
      then done 0 s
      else if fk && negb (has_id (user_ids s) a && has_id (user_ids s) b)
      then inr SqliteConstraintForeignKey
      else done 1 (with_user_subscriptions s
                     (user_subscriptions s ++ [mkSubscription a b]))
  | DeleteSubscription a b =>
      let keep := filter (fun r => negb (subscription_eqb (mkSubscription a b) r))
                         (user_subscriptions s) in
      done (Zlen (user_subscriptions s) - Zlen keep) (with_user_subscriptions s keep)
  | DeleteFrom table => delete_from fk table s
  | DeleteFromSequence name =>
      let keep := seq_delete name (sqlite_sequence s) in
      done (Zlen (sqlite_sequence s) - Zlen keep) (with_sqlite_sequence s keep)
  end.

End SQL.

(** ** The connection

    [InitDatabase] opens the file with [sql.Open("sqlite", dbPath)] and a bare
    path, and no statement of the program sets a pragma.  SQLite parses
    FOREIGN KEY clauses but enforces them only on a connection whose
    [foreign_keys] pragma is on, and the pragma is off unless it is set. *)
Definition foreign_keys : bool := false.

(** The store behind [dm.db], and the fate of the driver calls to come: the
    k-th entry of [io] says whether the k-th call from now (a [Begin], an
    [Exec] or a [Commit]) fails in the driver, whatever the statement is (disk,
    file lock, closed handle); past the end of the list no call fails.  A
    call that fails has no effect of its own on the store: the engine backs
    out a statement that fails, and rolls the transaction back when its
    commit fails. *)
Record DatabaseManager := mkDM { db : Store; io : list bool }.

(** An open transaction remembers the store it started from. *)
Record Tx := mkTx { snapshot : Store }.

Definition fails (dm : DatabaseManager) : bool :=
  match io dm with b :: _ => b | [] => false end.

Definition tick (dm : DatabaseManager) : DatabaseManager :=
  mkDM (db dm) (tl (io dm)).

Definition no_result : SQL.result := SQL.mkResult 0 0.

Definition Exec (q : SQL.stmt) (dm : DatabaseManager)
  : SQL.result * option error * DatabaseManager :=
  if fails dm then (no_result, Some SqliteIOErr, tick dm)
  else match SQL.exec foreign_keys q (db dm) with
       | inl (r, s') => (r, None, mkDM s' (tl (io dm)))
       | inr e => (no_result, Some e, tick dm)
       end.

Definition Begin (dm : DatabaseManager) : Tx * option error * DatabaseManager :=
  if fails dm then (mkTx (db dm), Some SqliteIOErr, tick dm)
  else (mkTx (db dm), None, tick dm).

(** [tx.Exec]: the statement runs on the connection of the transaction; its
    effects stay pending until [Commit]. *)
Definition TxExec (tx : Tx) (q : SQL.stmt) (dm : DatabaseManager)
  : SQL.result * option error * DatabaseManager :=
  Exec q dm.

Definition Rollback (tx : Tx) (dm : DatabaseManager) : DatabaseManager :=
  mkDM (snapshot tx) (io dm).

(** A commit that fails in the driver leaves nothing of the transaction. *)
Definition Commit (tx : Tx) (dm : DatabaseManager) : option error * DatabaseManager :=
  if fails dm then (Some SqliteIOErr, mkDM (snapshot tx) (tl (io dm)))
  else (None, tick dm).

Definition LastInsertId (r : SQL.result) : Z * option error :=
  (SQL.LastInsertId r, None).

(** ** The methods of [DatabaseManager] *)

Definition RegisterUser (username password : string) (dm : DatabaseManager)
  : Z * option error * DatabaseManager :=
  let '(result, err, dm) := Exec (SQL.InsertUser username password) dm in
  match err with
  | Some e => (0, Some (Errorf "failed to register user" e), dm)
  | None => let '(id, err) := LastInsertId result in (id, err, dm)
  end.

Definition CreateSubreddit (name description : string) (creatorID : Z)
  (dm : DatabaseManager) : Z * option error * DatabaseManager :=
  let '(tx, err, dm) := Begin dm in
  match err with
  | Some e => (0, Some e, dm)
  | None =>
    let '(result, err, dm) := TxExec tx (SQL.InsertSubreddit name description) dm in
    match err with
    | Some e =>
        let dm := Rollback tx dm in
        (0, Some (Errorf "failed to create subreddit" e), dm)
    | None =>
      let '(subredditID, err) := LastInsertId result in
      match err with
      | Some e => let dm := Rollback tx dm in (0, Some e, dm)
      | None =>
        let '(_, err, dm) := TxExec tx (SQL.InsertMember subredditID creatorID) dm in
        match err with
        | Some e =>
            let dm := Rollback tx dm in
            (0, Some (Errorf "failed to add creator to subreddit" e), dm)
        | None =>
            let '(err, dm) := Commit tx dm in (subredditID, err, dm)
        end
      end
    end
  end.

Definition JoinSubreddit (userID subredditID : Z) (dm : DatabaseManager)
  : option error * DatabaseManager :=
  let '(_, err, dm) := Exec (SQL.InsertOrIgnoreMember subredditID userID) dm in
  (err, dm).

Definition LeaveSubreddit (userID subredditID : Z) (dm : DatabaseManager)
  : option error * DatabaseManager :=
  let '(_, err, dm) := Exec (SQL.DeleteMember subredditID userID) dm in
  (err, dm).

Definition CreatePost (title content : string) (authorID subredditID : Z)
  (dm : DatabaseManager) : Z * option error * DatabaseManager :=
  let '(result, err, dm) :=
    Exec (SQL.InsertPost title content authorID subredditID) dm in
  match err with
  | Some e => (0, Some (Errorf "failed to create post" e), dm)
  | None => let '(id, err) := LastInsertId result in (id, err, dm)
  end.

Definition Vote (userID targetID : Z) (targetType : string) (value : Z)
  (dm : DatabaseManager) : option error * DatabaseManager :=
  let '(tx, err, dm) := Begin dm in
  match err with
  | Some e => (Some e, dm)
  | None =>
    let '(_, err, dm) :=
      TxExec tx (SQL.InsertVote userID targetID targetType value) dm in
    match err with
    | Some e =>
        let dm := Rollback tx dm in
        (Some (Errorf "failed to record vote" e), dm)
    | None =>
      let updateQuery :=
        if String.eqb targetType "post"
        then SQL.UpdateKarmaOfPostAuthor
        else SQL.UpdateKarmaOfCommentAuthor in
      let '(_, err, dm) := TxExec tx (updateQuery value targetID) dm in
      match err with
      | Some e =>
          let dm := Rollback tx dm in
          (Some (Errorf "failed to update karma" e), dm)
      | None => Commit tx dm
      end
    end
  end.

Definition CreateComment (content : string) (authorID postID : Z)
  (parentCommentID : option Z) (dm : DatabaseManager)
  : Z * option error * DatabaseManager :=
  let '(result, err, dm) :=
    Exec (SQL.InsertComment content authorID postID parentCommentID) dm in
  match err with
  | Some e => (0, Some (Errorf "failed to create comment" e), dm)
  | None => let '(id, err) := LastInsertId result in (id, err, dm)
  end.

Definition SendDirectMessage (fromUserID toUserID : Z) (content : string)
  (dm : DatabaseManager) : Z * option error * DatabaseManager :=
  let '(result, err, dm) :=
    Exec (SQL.InsertDirectMessage fromUserID toUserID content) dm in
  match err with
  | Some e => (0, Some (Errorf "failed to send message" e), dm)
  | None => let '(id, err) := LastInsertId result in (id, err, dm)
  end.

Definition SubscribeToUser (subscriberID subscribedUserID : Z)
  (dm : DatabaseManager) : option error * DatabaseManager :=
  let '(_, err, dm) :=
    Exec (SQL.InsertOrIgnoreSubscription subscriberID subscribedUserID) dm in
  (err, dm).

Definition UnsubscribeFromUser (subscriberID subscribedUserID : Z)
  (dm : DatabaseManager) : option error * DatabaseManager :=
  let '(_, err, dm) :=
    Exec (SQL.DeleteSubscription subscriberID subscribedUserID) dm in
  (err, dm).

(** The [tables] slice of [ResetDatabase]. *)
Definition tables : list string :=
  [ "direct_messages"; "votes"; "comments"; "posts";
    "subreddit_members"; "subreddits"; "users" ].

(** The two [for _, table := range tables] loops; an error rolls back and
    leaves the method. *)
Fixpoint delete_rows (tx : Tx) (ts : list string) (dm : DatabaseManager)
  : option error * DatabaseManager :=
  match ts with
  | [] => (None, dm)
  | table :: rest =>
      let '(_, err, dm) := TxExec tx (SQL.DeleteFrom table) dm in
      match err with
      | Some e =>
          let dm := Rollback tx dm in
          (Some (Errorf (String.append "failed to delete from " table) e), dm)
      | None => delete_rows tx rest dm
      end
  end.

Fixpoint reset_sequences (tx : Tx) (ts : list string) (dm : DatabaseManager)
  : option error * DatabaseManager :=
  match ts with
  | [] => (None, dm)
  | table :: rest =>
      let '(_, err, dm) := TxExec tx (SQL.DeleteFromSequence table) dm in
      match err with
      | Some e =>
          let dm := Rollback tx dm in
          (Some (Errorf (String.append "failed to reset auto-increment for " table) e), dm)
      | None => reset_sequences tx rest dm
      end
  end.

Definition ResetDatabase (dm : DatabaseManager) : option error * DatabaseManager :=
  let '(tx, err, dm) := Begin dm in
  match err with
  | Some e => (Some e, dm)
  | None =>
    match delete_rows tx tables dm with
    | (Some e, dm) => (Some e, dm)
    | (None, dm) =>
      match reset_sequences tx tables dm with
      | (Some e, dm) => (Some e, dm)
      | (None, dm) => Commit tx dm
      end
    end
  end.

(** ** Sequences of mutations

    The write methods as data, to speak about the states the store can reach. *)
Inductive mutation : Type :=
| MRegisterUser (username password : string)
| MCreateSubreddit (name description : string) (creatorID : Z)
| MJoinSubreddit (userID subredditID : Z)
| MLeaveSubreddit (userID subredditID : Z)
| MCreatePost (title content : string) (authorID subredditID : Z)
| MVote (userID targetID : Z) (targetType : string) (value : Z)
| MCreateComment (content : string) (authorID postID : Z) (parent : option Z)
| MSendDirectMessage (fromUserID toUserID : Z) (content : string)
| MSubscribeToUser (subscriberID subscribedUserID : Z)
| MUnsubscribeFromUser (subscriberID subscribedUserID : Z)
| MResetDatabase.

Definition apply (m : mutation) (dm : DatabaseManager)
  : option error * DatabaseManager :=
  match m with
  | MRegisterUser u p => let '(_, err, dm) := RegisterUser u p dm in (err, dm)
  | MCreateSubreddit n d c => let '(_, err, dm) := CreateSubreddit n d c dm in (err, dm)
  | MJoinSubreddit u c => JoinSubreddit u c dm
  | MLeaveSubreddit u c => LeaveSubreddit u c dm
  | MCreatePost t c a s => let '(_, err, dm) := CreatePost t c a s dm in (err, dm)
  | MVote u t ty v => Vote u t ty v dm
  | MCreateComment c a p par => let '(_, err, dm) := CreateComment c a p par dm in (err, dm)
  | MSendDirectMessage f t c => let '(_, err, dm) := SendDirectMessage f t c dm in (err, dm)
  | MSubscribeToUser a b => SubscribeToUser a b dm
  | MUnsubscribeFromUser a b => UnsubscribeFromUser a b dm
  | MResetDatabase => ResetDatabase dm
  end.

Definition run (ms : list mutation) (dm : DatabaseManager) : DatabaseManager :=
  fold_left (fun dm m => snd (apply m dm)) ms dm.

(** The store of a freshly created database file, with the driver calls to
    come. *)
Definition InitDatabase (io : list bool) : DatabaseManager := mkDM empty_store io.

(** The mutations that the karma column has nothing to do with. *)
Definition writes_karma (m : mutation) : bool :=
  match m with
  | MVote _ _ _ _ | MResetDatabase => true
  | _ => false
  end.

(** No driver call to come fails. *)
Definition calm (dm : DatabaseManager) : Prop := Forall (fun b => b = false) (io dm).

(** ** Karma and the vote ledger *)

(** The author that [Vote] credits: it looks the target up among the posts
    when the kind is "post" and among the comments otherwise. *)
Definition author_of (s : Store) (targetType : string) (targetID : Z) : option Z :=
  if String.eqb targetType "post"
  then SQL.author_of_post s targetID
  else SQL.author_of_comment s targetID.

Definition on_content_of (s : Store) (uid : Z) (v : VoteRow) : bool :=
  match author_of s (v_target_type v) (v_target_id v) with
  | Some a => a =? uid
  | None => false
  end.

Definition sum (l : list Z) : Z := fold_right Z.add 0 l.

(** The sum of the values of the ledger rows whose target is a post or a
    comment written by [uid]. *)
Definition ledger_sum (s : Store) (uid : Z) : Z :=
  sum (map v_vote_value (filter (on_content_of s uid) (votes s))).

Definition karma_of (s : Store) (uid : Z) : option Z :=
  option_map u_karma (find (fun u => u_id u =? uid) (users s)).

Definition karma_is_ledger_sum (s : Store) : Prop :=
  forall u, In u (users s) -> u_karma u = ledger_sum s (u_id u).

(** What the karma statement of [Vote] does to the users. *)
Definition credit (author : option Z) (value : Z) (us : list UserRow) : list UserRow :=
  match author with
  | Some a => SQL.add_karma a value us
  | None => us
  end.

(** Row by row, the users of [s'] are those of [s], with a karma that has
    moved by as much as the ledger sum of the user. *)
Definition karma_follows_ledger (s s' : Store) : Prop :=
  Forall2 (fun u u' =>
             u_id u' = u_id u
             /\ u_karma u' - u_karma u
                = ledger_sum s' (u_id u) - ledger_sum s (u_id u))
          (users s) (users s').

Definition cast_vote (c : Z * Z * string * Z) : mutation :=
  let '(userID, targetID, targetType, value) := c in
  MVote userID targetID targetType value.

(** The users of [s'] are those of [s], but for a newcomer without karma. *)
Definition users_kept (s s' : Store) : Prop :=
  users s' = users s
  \/ exists id name password, users s' = users s ++ [mkUser id name password 0].

Definition is_member (s : Store) (subredditID userID : Z) : bool :=
  existsb (SQL.member_eqb (mkMember subredditID userID)) (subreddit_members s).

Definition has_voted (s : Store) (userID targetID : Z) (targetType : string)
  (value : Z) : bool :=
  existsb (SQL.vote_eqb (mkVote userID targetID targetType value)) (votes s).

(** ** Requests, channels and workers *)

(** The request structs that travel as [Payload interface{}]. *)
Inductive payload : Type :=
| CreatePostRequest (Title Content : string) (SubredditID : Z)
| CreateCommentRequest (Content : string) (PostID : Z) (ParentCommentID : option Z)
| VoteRequest (TargetID : Z) (TargetType : string) (Value : Z)
| SendMessageRequest (ToUserID : Z) (Content : string)
| CreateSubredditRequest (Name Description : string)
| JoinSubredditRequest (SubredditID : Z)
| LeaveSubredditRequest (SubredditID : Z).

(** What the workers read from the [gin.Context]: the number that
    [strconv.Atoi] makes of its "user_id" entry. *)
Record gin_Context := mkContext { user_id : Z }.

(** A [chan error] is a reference into the heap of channels. *)
Definition chan_ref := nat.

Record Request := mkRequest
  { req_Type : string; req_Payload : payload;
    req_Context : gin_Context; req_Result : chan_ref }.

(** What [context.Message()] can be: a request, or the [Started] message that
    the actor system posts to every actor it spawns. *)
Inductive message : Type :=
| Started
| IsRequest (msg : Request).

Record RequestProcessingActor := mkActor { a_id : Z }.

Definition PID := nat.

Record Process := mkProcess
  { proc_actor : RequestProcessingActor; mailbox : list message }.

(** A buffered channel; [sent] counts the sends it has ever accepted. *)
Record chan := mkChan
  { capacity : nat; buffer : list (option error); sent : nat }.

(** Everything the workers share: the one [DatabaseManager] behind
    [handler.db], the processes of the actor system by PID, the channels, the
    lines of [log.Printf] and the status codes written with [Context.JSON]. *)
Record World := mkWorld
  { handler_db : DatabaseManager;
    processes : list Process;
    chans : list chan;
    stdlog : list (Z * string);
    responses : list Z }.

Definition with_db (w : World) (x : DatabaseManager) : World :=
  mkWorld x (processes w) (chans w) (stdlog w) (responses w).
Definition with_processes (w : World) (x : list Process) : World :=
  mkWorld (handler_db w) x (chans w) (stdlog w) (responses w).
Definition with_chans (w : World) (x : list chan) : World :=
  mkWorld (handler_db w) (processes w) x (stdlog w) (responses w).

Definition Printf (worker : Z) (ty : string) (w : World) : World :=
  mkWorld (handler_db w) (processes w) (chans w) (stdlog w ++ [(worker, ty)])
          (responses w).

Definition JSON (status : Z) (w : World) : World :=
  mkWorld (handler_db w) (processes w) (chans w) (stdlog w)
          (responses w ++ [status]).

Definition StatusOK : Z := 200.
Definition StatusCreated : Z := 201.
Definition StatusBadRequest : Z := 400.
Definition StatusInternalServerError : Z := 500.

Fixpoint replace_nth {A : Type} (n : nat) (x : A) (l : list A) {struct l}
  : list A :=
  match l with
  | [] => []
  | h :: t =>
      match n with
      | O => x :: t
      | S n => h :: replace_nth n x t
      end
  end.

(** [make(chan error, n)] *)
Definition make_chan (n : nat) (w : World) : chan_ref * World :=
  (List.length (chans w), with_chans w (chans w ++ [mkChan n [] 0])).

(** [c <- v]; [None] when the sender would stay blocked: the buffer is full. *)
Definition chan_send (c : chan_ref) (v : option error) (w : World) : option World :=
  match nth_error (chans w) c with
  | Some ch =>
      if (List.length (buffer ch) <? capacity ch)%nat
      then Some (with_chans w
                   (replace_nth c (mkChan (capacity ch) (buffer ch ++ [v]) (S (sent ch)))
                                (chans w)))
      else None
  | None => None
  end.

(** [<-c]; [None] when the receiver would stay blocked: the buffer is empty. *)
Definition chan_recv (c : chan_ref) (w : World) : option (option error * World) :=
  match nth_error (chans w) c with
  | Some ch =>
      match buffer ch with
      | v :: rest =>
          Some (v, with_chans w
                     (replace_nth c (mkChan (capacity ch) rest (sent ch)) (chans w)))
      | [] => None
      end
  | None => None
  end.

(** *** The handlers of the worker *)

Definition processCreatePost (a : RequestProcessingActor) (req : Request) (w : World)
  : option error * World :=
  match req_Payload req with
  | CreatePostRequest title content subredditID =>
      let userID := user_id (req_Context req) in
      let '(postID, err, dm) :=
        CreatePost title content userID subredditID (handler_db w) in
      let w := with_db w dm in
      match err with
      | Some e => (Some e, JSON StatusInternalServerError w)
      | None => (None, JSON StatusCreated w)
      end
  | _ => (Some (ErrorMsg "invalid payload"), JSON StatusBadRequest w)
  end.

Definition processCreateComment (a : RequestProcessingActor) (req : Request) (w : World)
  : option error * World :=
  match req_Payload req with
  | CreateCommentRequest content postID parentCommentID =>
      let userID := user_id (req_Context req) in
      let '(commentID, err, dm) :=
        CreateComment content userID postID parentCommentID (handler_db w) in
      let w := with_db w dm in
      match err with
      | Some e => (Some e, JSON StatusInternalServerError w)
      | None => (None, JSON StatusCreated w)
      end
  | _ => (Some (ErrorMsg "invalid payload for create comment"), w)
  end.

Definition processSendMessage (a : RequestProcessingActor) (req : Request) (w : World)
  : option error * World :=
  match req_Payload req with
  | SendMessageRequest toUserID content =>
      let userID := user_id (req_Context req) in
      let '(messageID, err, dm) :=
        SendDirectMessage userID toUserID content (handler_db w) in
      let w := with_db w dm in
      match err with
      | Some e => (Some e, JSON StatusInternalServerError w)
      | None => (None, JSON StatusCreated w)
      end
  | _ => (Some (ErrorMsg "invalid payload for send message"), w)
  end.

Definition processJoinSubreddit (a : RequestProcessingActor) (req : Request) (w : World)
  : option error * World :=
  match req_Payload req with
  | JoinSubredditRequest subredditID =>
      let userID := user_id (req_Context req) in
      let '(err, dm) := JoinSubreddit userID subredditID (handler_db w) in
      let w := with_db w dm in
      match err with
      | Some e => (Some e, JSON StatusInternalServerError w)
      | None => (None, JSON StatusOK w)
      end
  | _ => (Some (ErrorMsg "invalid payload for join subreddit"), w)
  end.

Definition processLeaveSubreddit (a : RequestProcessingActor) (req : Request) (w : World)
  : option error * World :=
  match req_Payload req with
  | LeaveSubredditRequest subredditID =>
      let userID := user_id (req_Context req) in
      let '(err, dm) := LeaveSubreddit userID subredditID (handler_db w) in
      let w := with_db w dm in
      match err with
      | Some e => (Some e, JSON StatusInternalServerError w)
      | None => (None, JSON StatusOK w)
      end
  | _ => (Some (ErrorMsg "invalid payload for leave subreddit"), w)
  end.

Definition processCreateSubreddit (a : RequestProcessingActor) (req : Request) (w : World)
  : option error * World :=
  match req_Payload req with
  | CreateSubredditRequest name description =>
      let userID := user_id (req_Context req) in
      let '(subredditID, err, dm) :=
        CreateSubreddit name description userID (handler_db w) in
      let w := with_db w dm in
      match err with
      | Some e => (Some e, JSON StatusInternalServerError w)
      | None => (None, JSON StatusCreated w)
      end
  | _ => (Some (ErrorMsg "invalid payload for create subreddit"), w)
  end.

Definition processVote (a : RequestProcessingActor) (req : Request) (w : World)
  : option error * World :=
  match req_Payload req with
  | VoteRequest targetID targetType value =>
      let userID := user_id (req_Context req) in
      let '(err, dm) := Vote userID targetID targetType value (handler_db w) in
      let w := with_db w dm in
      match err with
      | Some e => (Some e, JSON StatusInternalServerError w)
      | None => (None, JSON StatusOK w)
      end
  | _ => (Some (ErrorMsg "invalid payload for vote"), w)
  end.

(** The [switch msg.Type] of [Receive]. *)
Definition process (a : RequestProcessingActor) (msg : Request) (w : World)
  : option error * World :=
  let ty := req_Type msg in
  if String.eqb ty "create_post" then processCreatePost a msg w
  else if String.eqb ty "create_comment" then processCreateComment a msg w
  else if String.eqb ty "send_message" then processSendMessage a msg w
  else if String.eqb ty "join_subreddit" then processJoinSubreddit a msg w
  else if String.eqb ty "create_subreddit" then processCreateSubreddit a msg w
  else if String.eqb ty "vote" then processVote a msg w
  else if String.eqb ty "leave_subreddit" then processLeaveSubreddit a msg w
  else (Some (ErrorMsg (String.append "unhandled request type: " ty)), w).

(** [Receive]: [None] when the worker stays blocked on its send. *)
Definition Receive (a : RequestProcessingActor) (m : message) (w : World)
  : option World :=
  match m with
  | IsRequest msg =>
      let w := Printf (a_id a) (req_Type msg) w in
      let '(err, w) := process a msg w in
      match err with
      | Some e => chan_send (req_Result msg) (Some e) w
      | None => chan_send (req_Result msg) None w
      end
  | Started => Some w
  end.

(** ** The pool *)

Record ActorPool := mkPool { actors : list PID; roundRobin : Z }.

Definition len {A : Type} (l : list A) : Z := Z.of_nat (List.length l).

(** [l[i]]; [None] is the index-out-of-range panic. *)
Definition index {A : Type} (l : list A) (i : Z) : option A :=
  if (0 <=? i) && (i <? len l) then nth_error l (Z.to_nat i) else None.

(** [system.Root.Spawn]: the new process starts with [Started] in its
    mailbox. *)
Definition Spawn (a : RequestProcessingActor) (w : World) : PID * World :=
  (List.length (processes w),
   with_processes w (processes w ++ [mkProcess a [Started]])).

(** [system.Root.Send]: the message joins the mailbox of the process; a
    message to no process is dropped. *)
Definition Send (pid : PID) (m : message) (w : World) : World :=
  match nth_error (processes w) pid with
  | Some p =>
      with_processes w
        (replace_nth pid (mkProcess (proc_actor p) (mailbox p ++ [m])) (processes w))
  | None => w
  end.

(** The loop of [NewActorPool], [n] rounds from [i] on. *)
Fixpoint spawn_workers (n : nat) (i : Z) (pool : ActorPool) (w : World)
  : ActorPool * World :=
  match n with
  | O => (pool, w)
  | S n =>
      let '(pid, w) := Spawn (mkActor i) w in
      spawn_workers n (i + 1) (mkPool (actors pool ++ [pid]) (roundRobin pool)) w
  end.

(** [None]: [make] panics on a negative size. *)
Definition NewActorPool (poolSize : Z) (w : World) : option (ActorPool * World) :=
  if poolSize <? 0 then None
  else Some (spawn_workers (Z.to_nat poolSize) 0 (mkPool [] 0) w).

(** [ProcessRequest] up to and including [Send]: the selection under [p.mu],
    the fresh channel, the hand-off.  [Z.rem] is Go's [%]. *)
Definition ProcessRequest_submit (p : ActorPool) (requestType : string)
  (pl : payload) (context : gin_Context) (w : World)
  : option (PID * chan_ref * ActorPool * World) :=
  match index (actors p) (roundRobin p) with
  | None => None
  | Some actor =>
      let p := mkPool (actors p) (Z.rem (roundRobin p + 1) (len (actors p))) in
      let '(resultChan, w) := make_chan 1 w in
      let w := Send actor (IsRequest (mkRequest requestType pl context resultChan)) w in
      Some (actor, resultChan, p, w)
  end.

(** A worker takes the next message of its mailbox and handles it. *)
Definition deliver (pid : PID) (w : World) : option World :=
  match nth_error (processes w) pid with
  | Some p =>
      match mailbox p with
      | m :: rest =>
          Receive (proc_actor p) m
            (with_processes w
               (replace_nth pid (mkProcess (proc_actor p) rest) (processes w)))
      | [] => None
      end
  | None => None
  end.

Fixpoint run_worker (n : nat) (pid : PID) (w : World) : option World :=
  match n with
  | O => Some w
  | S n =>
      match deliver pid w with
      | Some w => run_worker n pid w
      | None => None
      end
  end.

Definition mailbox_size (pid : PID) (w : World) : nat :=
  match nth_error (processes w) pid with
  | Some p => List.length (mailbox p)
  | None => O
  end.

(** [ProcessRequest] when nothing else runs in between: the selected worker
    works its mailbox off, then the caller reads the channel.  [None] is a
    panic or a caller that waits for ever. *)
Definition ProcessRequest (p : ActorPool) (requestType : string)
  (pl : payload) (context : gin_Context) (w : World)
  : option (option error * ActorPool * World) :=
  match ProcessRequest_submit p requestType pl context w with
  | None => None
  | Some (pid, resultChan, p, w) =>
      match run_worker (mailbox_size pid w) pid w with
      | None => None
      | Some w =>
          match chan_recv resultChan w with
          | Some (v, w) => Some (v, p, w)
          | None => None
          end
      end
  end.

(** ** The server as a transition system

    Callers, workers and the handlers that go to the store directly take
    their steps in any order: a schedule is a list of actions. *)

Record System := mkSystem { sys_pool : ActorPool; sys_world : World }.

Inductive action : Type :=
| Submit (requestType : string) (pl : payload) (context : gin_Context)
| Work (worker : PID)
| Return (c : chan_ref)
| Direct (m : mutation).

Inductive event : Type :=
| Submitted (i : Z) (worker : PID) (c : chan_ref)
| Worked (worker : PID)
| Returned (c : chan_ref) (v : option error)
| Mutated (m : mutation).

(** One action.  [Submit] is [ProcessRequest] up to its [Send], and its event
    records the index that the pool had selected; [Work] is one [Receive] of
    a worker; [Return] is the caller's read of its channel; [Direct] is a
    handler that calls the store itself.  [None]: the action cannot be taken
    in this state (a panic, an empty mailbox, a blocked send or read).

    [Submit] takes the selection, the [make] and the [Send] of a caller as
    one step.  The code holds [p.mu] for the selection only; the three steps
    apart, with the steps of other callers in between, are the moves of
    [move_step] below. *)
Definition act (a : action) (sys : System) : option (event * System) :=
  let p := sys_pool sys in
  let w := sys_world sys in
  match a with
  | Submit ty pl ctx =>
      match ProcessRequest_submit p ty pl ctx w with
      | Some (pid, c, p', w') => Some (Submitted (roundRobin p) pid c, mkSystem p' w')
      | None => None
      end
  | Work pid =>
      match deliver pid w with
      | Some w' => Some (Worked pid, mkSystem p w')
      | None => None
      end
  | Return c =>
      match chan_recv c w with
      | Some (v, w') => Some (Returned c v, mkSystem p w')
      | None => None
      end
  | Direct m =>
      Some (Mutated m, mkSystem p (with_db w (snd (apply m (handler_db w)))))
  end.

Fixpoint replay (acts : list action) (sys : System)
  : option (list event * System) :=
  match acts with
  | [] => Some ([], sys)
  | a :: rest =>
      match act a sys with
      | Some (e, sys') =>
          match replay rest sys' with
          | Some (es, sys'') => Some (e :: es, sys'')
          | None => None
          end
      | None => None
      end
  end.

(** The worker indices of the submissions of a trace, in order. *)
Definition assignments (es : list event) : list Z :=
  flat_map (fun e => match e with Submitted i _ _ => [i] | _ => [] end) es.

(** The server before [NewActorPool]: no process, no channel. *)
Definition boot (dm : DatabaseManager) : World := mkWorld dm [] [] [] [].

Definition start (poolSize : Z) (dm : DatabaseManager) : option System :=
  match NewActorPool poolSize (boot dm) with
  | Some (p, w) => Some (mkSystem p w)
  | None => None
  end.

(** The pool of [n] workers: worker [k] is process [k] and has id [k]; the
    counter is an index into the pool. *)
Definition pool_of (n : nat) (sys : System) : Prop :=
  actors (sys_pool sys) = seq 0 n
  /\ map proc_actor (processes (sys_world sys))
     = map (fun k => mkActor (Z.of_nat k)) (seq 0 n)
  /\ 0 <= roundRobin (sys_pool sys) < Z.of_nat n.








(** ** Some stores

    Alice (user 1) and Bob (user 2) in the community "go" that Alice founded;
    then Alice's post 1; then Bob's upvote of it. *)
Definition go_community : DatabaseManager :=
  run [ MRegisterUser "alice" "pw"; MRegisterUser "bob" "pw";
        MCreateSubreddit "go" "about go" 1 ] (InitDatabase []).

Definition go_post : DatabaseManager :=
  run [ MCreatePost "hello" "world" 1 1 ] go_community.

Definition go_upvoted : DatabaseManager :=
  run [ MVote 2 1 "post" 1 ] go_post.

(** Bob has subscribed to Alice. *)
Definition go_subscribed : DatabaseManager :=
  run [ MSubscribeToUser 2 1 ] go_upvoted.

(** A schedule for a pool of three workers: four submissions, one of them of
    no known kind, with the work, the reads and a registration in between. *)
Definition some_schedule : list action :=
  [ Submit "create_subreddit" (CreateSubredditRequest "go" "about go") (mkContext 1);
    Submit "vote" (VoteRequest 1 "post" 1) (mkContext 2);
    Work 0%nat;
    Submit "nonsense" (JoinSubredditRequest 1) (mkContext 2);
    Work 1%nat; Work 1%nat;
    Direct (MRegisterUser "alice" "pw");
    Work 0%nat;
    Return 1%nat;
    Submit "join_subreddit" (JoinSubredditRequest 1) (mkContext 2);
    Return 0%nat;
    Work 2%nat; Work 2%nat ].

(** The pool of three on an empty store, and what the schedule makes of it *)
Definition pool_of_three : System :=
  Eval vm_compute in
    match start 3 (InitDatabase []) with
    | Some sys => sys
    | None => mkSystem (mkPool [] 0) (boot (InitDatabase []))
    end.

Definition some_run : list event * System :=
  Eval vm_compute in
    match replay some_schedule pool_of_three with
    | Some r => r
    | None => ([], pool_of_three)
    end.

(** The scenario of the design notes: a pool of two; user 1 creates the
    community "go" while users 2 and 3 upvote post 7, which user 1 wrote.
    The three requests go to workers 0, 1 and 0; [order] says which worker
    works when.  The result is the store at the end. *)
Definition scenario_store : Store :=
  mkStore [ mkUser 1 "ann" "pw" 0; mkUser 2 "ben" "pw" 0; mkUser 3 "cat" "pw" 0 ]
          [] [] [ mkPost 7 "seventh" "post" 1 1 ] [] [] [] []
          [ ("users", 3); ("posts", 7) ].

Definition scenario (order : list action) : option Store :=
  match start 2 (mkDM scenario_store []) with
  | Some sys =>
      match replay
              ([ Submit "create_subreddit" (CreateSubredditRequest "go" "desc")
                        (mkContext 1);
                 Submit "vote" (VoteRequest 7 "post" 1) (mkContext 2);
                 Submit "vote" (VoteRequest 7 "post" 1) (mkContext 3) ]
               ++ order) sys with
      | Some (_, sys') => Some (db (handler_db (sys_world sys')))
      | None => None
      end
  | None => None
  end.

(** ** Reading a user back *)

(** The [User] struct that the lookups fill.  The Go field [ID] is a string:
    [Scan] stores the decimal text of the id; here it is the id itself. *)
Record User := mkUserView { ID : Z; Username : string; Karma : Z }.

(** [GetUserByUsername]: one driver call ([QueryRow] with its [Scan]); the
    error of a query without a row is [sql.ErrNoRows]. *)
Definition GetUserByUsername (username : string) (dm : DatabaseManager)
  : option User * option error * DatabaseManager :=
  if fails dm then (None, Some (Errorf "user not found" SqliteIOErr), tick dm)
  else
    match find (fun u => String.eqb (u_username u) username) (users (db dm)) with
    | Some u =>
        (Some (mkUserView (u_id u) (u_username u) (u_karma u)), None, tick dm)
    | None =>
        (None, Some (Errorf "user not found" (ErrorMsg "sql: no rows in result set")),
         tick dm)
    end.

(** ** What the schema promises of a store *)

Definition vote_row_ok (v : VoteRow) : Prop :=
  (v_target_type v = "post" \/ v_target_type v = "comment")
  /\ (v_vote_value v = -1 \/ v_vote_value v = 1).

(** Primary keys, UNIQUE columns and CHECK constraints. *)
Definition keys_ok (s : Store) : Prop :=
  NoDup (map u_id (users s))
  /\ NoDup (map u_username (users s))
  /\ NoDup (map sr_id (subreddits s))
  /\ NoDup (map sr_name (subreddits s))
  /\ NoDup (map p_id (posts s))
  /\ NoDup (map c_id (comments s))
  /\ NoDup (map dm_id (direct_messages s))
  /\ NoDup (subreddit_members s)
  /\ NoDup (user_subscriptions s)
  /\ NoDup (votes s)
  /\ Forall vote_row_ok (votes s).

Definition is_subscribed (s : Store) (subscriberID subscribedUserID : Z) : bool :=
  existsb (SQL.subscription_eqb (mkSubscription subscriberID subscribedUserID))
          (user_subscriptions s).

(** ** Karma within 64 bits

    The karma column holds 64-bit integers.  In a store whose karmas leave
    room for one vote up or down, the [karma + ?] of a vote is the integer
    sum, in SQLite as in [SQL.add_karma]. *)
Definition karma_in_range (s : Store) : Prop :=
  forall u, In u (users s) -> - SQL.max_rowid <= u_karma u < SQL.max_rowid.

(** ** Mutations that refer to what is there *)

(** A vote on a post or comment that exists; a post or a comment by a user
    who is registered.  Nothing is asked of the other mutations. *)
Definition refers_to_existing (m : mutation) (s : Store) : bool :=
  match m with
  | MVote _ targetID targetType _ =>
      match author_of s targetType targetID with Some _ => true | None => false end
  | MCreatePost _ _ authorID _ => SQL.has_id (SQL.user_ids s) authorID
  | MCreateComment _ authorID _ _ => SQL.has_id (SQL.user_ids s) authorID
  | _ => true
  end.

Fixpoint all_refer_to_existing (ms : list mutation) (dm : DatabaseManager) : bool :=
  match ms with
  | [] => true
  | m :: rest =>
      refers_to_existing m (db dm) && all_refer_to_existing rest (snd (apply m dm))
  end.

(** Karma equals the ledger sum, every vote is on content that exists, and
    every post and comment is by a registered user. *)
Definition ledger_in_order (s : Store) : Prop :=
  karma_is_ledger_sum s
  /\ (forall v, In v (votes s) ->
        author_of s (v_target_type v) (v_target_id v) <> None)
  /\ (forall p, In p (posts s) -> In (p_author_id p) (map u_id (users s)))
  /\ (forall c, In c (comments s) -> In (c_author_id c) (map u_id (users s))).

(** ** Kinds and payloads *)

(** Is the payload the request struct that the handler of the kind asserts
    it to be?  The kinds in the order of the [switch] of [Receive]. *)
Definition fits (ty : string) (pl : payload) : bool :=
  if String.eqb ty "create_post" then
    match pl with CreatePostRequest _ _ _ => true | _ => false end
  else if String.eqb ty "create_comment" then
    match pl with CreateCommentRequest _ _ _ => true | _ => false end
  else if String.eqb ty "send_message" then
    match pl with SendMessageRequest _ _ => true | _ => false end
  else if String.eqb ty "join_subreddit" then
    match pl with JoinSubredditRequest _ => true | _ => false end
  else if String.eqb ty "create_subreddit" then
    match pl with CreateSubredditRequest _ _ => true | _ => false end
  else if String.eqb ty "vote" then
    match pl with VoteRequest _ _ _ => true | _ => false end
  else if String.eqb ty "leave_subreddit" then
    match pl with LeaveSubredditRequest _ => true | _ => false end
  else false.

(** The status that the handler of the kind writes when the store call
    returns no error. *)
Definition success_status (ty : string) : Z :=
  if String.eqb ty "create_post" then StatusCreated
  else if String.eqb ty "create_comment" then StatusCreated
  else if String.eqb ty "send_message" then StatusCreated
  else if String.eqb ty "join_subreddit" then StatusOK
  else if String.eqb ty "create_subreddit" then StatusCreated
  else if String.eqb ty "vote" then StatusOK
  else if String.eqb ty "leave_subreddit" then StatusOK
  else 0.

(** What [process] does for a request, as far as the store and the response
    go: the handler run in a world that holds nothing but the store. *)
Definition handle (msg : Request) (dm : DatabaseManager)
  : option error * DatabaseManager * list Z :=
  let r := process (mkActor 0) msg (mkWorld dm [] [] [] []) in
  (fst r, handler_db (snd r), responses (snd r)).

(** The store call behind a request whose payload fits its kind. *)
Definition store_call (msg : Request) (dm : DatabaseManager)
  : option error * DatabaseManager :=
  let userID := user_id (req_Context msg) in
  match req_Payload msg with
  | CreatePostRequest title content subredditID =>
      let '(_, err, dm) := CreatePost title content userID subredditID dm in (err, dm)
  | CreateCommentRequest content postID parent =>
      let '(_, err, dm) := CreateComment content userID postID parent dm in (err, dm)
  | VoteRequest targetID targetType value =>
      Vote userID targetID targetType value dm
  | SendMessageRequest toUserID content =>
      let '(_, err, dm) := SendDirectMessage userID toUserID content dm in (err, dm)
  | CreateSubredditRequest name description =>
      let '(_, err, dm) := CreateSubreddit name description userID dm in (err, dm)
  | JoinSubredditRequest subredditID => JoinSubreddit userID subredditID dm
  | LeaveSubredditRequest subredditID => LeaveSubreddit userID subredditID dm
  end.

(** Bob's upvote of post 1 as a request, and the same payload under a kind
    that no handler knows. *)
Definition vote_message : Request :=
  mkRequest "vote" (VoteRequest 1 "post" 1) (mkContext 2) 0%nat.

Definition misfit_message : Request :=
  mkRequest "upvote" (VoteRequest 1 "post" 1) (mkContext 2) 0%nat.

(** ** Mailboxes *)

Definition is_Started (m : message) : bool :=
  match m with Started => true | IsRequest _ => false end.

(** No request waits in any mailbox. *)
Definition idle (w : World) : bool :=
  forallb (fun p => forallb is_Started (mailbox p)) (processes w).

(** The channels of the requests of a mailbox, from its head on. *)
Definition waiting_channels (mb : list message) : list chan_ref :=
  flat_map (fun m => match m with IsRequest msg => [req_Result msg] | Started => [] end)
           mb.

(** ** The HTTP layer

    The handlers that [main] puts on the POST routes, as functions of what
    they read of the request.  The library calls whose results depend on the
    text of the request are arguments: [strconv.Atoi] and, for each request
    struct, the JSON decoder behind [ShouldBindJSON].  The validation that
    [ShouldBindJSON] runs on the decoded struct is read off the [binding] tags
    of the struct: [required] refuses the zero value of the field, [oneof]
    every value that is not listed. *)

Definition StatusUnauthorized : Z := 401.

Record Library := mkLibrary
  { Atoi : string -> Z * option error;
    decode_RegisterUserRequest : string -> (string * string) * option error;
    decode_CreateSubredditRequest : string -> (string * string) * option error;
    decode_CreatePostRequest : string -> (string * string * Z) * option error;
    decode_CreateCommentRequest : string -> (string * Z * option Z) * option error;
    decode_VoteRequest : string -> (Z * string * Z) * option error;
    decode_SendMessageRequest : string -> (Z * string) * option error }.

(** What a handler reads of its [*gin.Context]: the X-User-ID header, the
    path parameters, the body and the keys set so far. *)
Record http_Context := mkHttp
  { Header_X_User_ID : string;
    Param : string -> string;
    Body : string;
    Keys : list (string * string) }.

(** [c.Set] *)
Definition Set_key (key value : string) (c : http_Context) : http_Context :=
  mkHttp (Header_X_User_ID c) (Param c) (Body c) ((key, value) :: Keys c).

(** [c.GetString]: the empty string for a key that is not set. *)
Definition GetString (key : string) (c : http_Context) : string :=
  match find (fun kv => String.eqb (fst kv) key) (Keys c) with
  | Some kv => snd kv
  | None => ""
  end.

(** The context as a worker reads it: the workers, like the handlers, drop
    the error of [strconv.Atoi]. *)
Definition context_of (lib : Library) (c : http_Context) : gin_Context :=
  mkContext (fst (Atoi lib (GetString "user_id" c))).

Definition required_string (s : string) : bool := negb (String.eqb s "").
Definition required_int (n : Z) : bool := negb (n =? 0).
Definition oneof_string (allowed : list string) (s : string) : bool :=
  existsb (String.eqb s) allowed.
Definition oneof_int (allowed : list Z) (n : Z) : bool :=
  existsb (Z.eqb n) allowed.

(** The [binding] tags, struct by struct. *)
Definition valid_RegisterUserRequest (req : string * string) : bool :=
  let '(Username, Password) := req in
  required_string Username && required_string Password.

Definition valid_CreateSubredditRequest (req : string * string) : bool :=
  let '(Name, Description) := req in
  required_string Name && required_string Description.

Definition valid_CreatePostRequest (req : string * string * Z) : bool :=
  let '(Title, Content, SubredditID) := req in
  required_string Title && required_string Content && required_int SubredditID.

Definition valid_CreateCommentRequest (req : string * Z * option Z) : bool :=
  let '(Content, PostID, _) := req in
  required_string Content && required_int PostID.

Definition valid_VoteRequest (req : Z * string * Z) : bool :=
  let '(TargetID, TargetType, Value) := req in
  required_int TargetID
  && (required_string TargetType && oneof_string ["post"; "comment"] TargetType)
  && (required_int Value && oneof_int [-1; 1] Value).

Definition valid_SendMessageRequest (req : Z * string) : bool :=
  let '(ToUserID, Content) := req in
  required_int ToUserID && required_string Content.

(** [c.ShouldBindJSON(&req)]: the decoder, then the validator.  The struct
    is returned whatever the error, as [req] holds it in the handler. *)
Definition ShouldBindJSON {A : Type} (decode : string -> A * option error)
  (valid : A -> bool) (c : http_Context) : A * option error :=
  let '(req, err) := decode (Body c) in
  match err with
  | Some e => (req, Some e)
  | None =>
      if valid req then (req, None)
      else (req, Some (ErrorMsg "Field validation failed"))
  end.

(** A handler takes the state of the server to the next; [None] is a panic
    or a handler that waits for ever. *)
Definition HandlerFunc := http_Context -> System -> option System.

Definition reply (status : Z) (sys : System) : System :=
  mkSystem (sys_pool sys) (JSON status (sys_world sys)).

(** [authMiddleware]: [c.Abort] keeps the handlers behind it from running. *)
Definition authMiddleware (next : HandlerFunc) : HandlerFunc :=
  fun c sys =>
    let userID := Header_X_User_ID c in
    if String.eqb userID "" then Some (reply StatusUnauthorized sys)
    else next (Set_key "user_id" userID c) sys.

(** The [switch] of [ActorPoolHandler]: either the handler has replied and
    returned, or [payload] and [err] are set. *)
Inductive parsed : Type :=
| Replied (status : Z)
| Parsed (pl : payload) (err : option error).

Definition ActorPoolHandler_switch (lib : Library) (requestType : string)
  (c : http_Context) : parsed :=
  if String.eqb requestType "create_post" then
    let '((Title, Content, SubredditID), err) :=
      ShouldBindJSON (decode_CreatePostRequest lib) valid_CreatePostRequest c in
    Parsed (CreatePostRequest Title Content SubredditID) err
  else if String.eqb requestType "create_comment" then
    let '((Content, PostID, ParentCommentID), err) :=
      ShouldBindJSON (decode_CreateCommentRequest lib) valid_CreateCommentRequest c in
    Parsed (CreateCommentRequest Content PostID ParentCommentID) err
  else if String.eqb requestType "send_message" then
    let '((ToUserID, Content), err) :=
      ShouldBindJSON (decode_SendMessageRequest lib) valid_SendMessageRequest c in
    Parsed (SendMessageRequest ToUserID Content) err
  else if String.eqb requestType "join_subreddit" then
    let '(subredditID, parseErr) := Atoi lib (Param c "id") in
    match parseErr with
    | Some _ => Replied StatusBadRequest
    | None => Parsed (JoinSubredditRequest subredditID) None
    end
  else if String.eqb requestType "leave_subreddit" then
    let '(subredditID, parseErr) := Atoi lib (Param c "id") in
    match parseErr with
    | Some _ => Replied StatusBadRequest
    | None => Parsed (LeaveSubredditRequest subredditID) None
    end
  else if String.eqb requestType "create_subreddit" then
    let '((Name, Description), err) :=
      ShouldBindJSON (decode_CreateSubredditRequest lib)
                     valid_CreateSubredditRequest c in
    Parsed (CreateSubredditRequest Name Description) err
  else if String.eqb requestType "vote" then
    let '((TargetID, TargetType, Value), err) :=
      ShouldBindJSON (decode_VoteRequest lib) valid_VoteRequest c in
    Parsed (VoteRequest TargetID TargetType Value) err
  else Replied StatusBadRequest.

(** [ActorPoolHandler], with [ProcessRequest] as it runs when nothing else
    does in between. *)
Definition ActorPoolHandler (lib : Library) (requestType : string) : HandlerFunc :=
  fun c sys =>
    match ActorPoolHandler_switch lib requestType c with
    | Replied status => Some (reply status sys)
    | Parsed _ (Some _) => Some (reply StatusBadRequest sys)
    | Parsed pl None =>
        match ProcessRequest (sys_pool sys) requestType pl (context_of lib c)
                             (sys_world sys) with
        | Some (Some _, p, w) => Some (reply StatusInternalServerError (mkSystem p w))
        | Some (None, p, w) => Some (mkSystem p w)
        | None => None
        end
    end.

(** The handlers that go to the store themselves. *)
Definition registerUser (lib : Library) : HandlerFunc :=
  fun c sys =>
    let '((Username, Password), err) :=
      ShouldBindJSON (decode_RegisterUserRequest lib) valid_RegisterUserRequest c in
    match err with
    | Some _ => Some (reply StatusBadRequest sys)
    | None =>
        let '(userID, err, dm) :=
          RegisterUser Username Password (handler_db (sys_world sys)) in
        let sys := mkSystem (sys_pool sys) (with_db (sys_world sys) dm) in
        match err with
        | Some _ => Some (reply StatusInternalServerError sys)
        | None => Some (reply StatusCreated sys)
        end
    end.

Definition resetDatabase : HandlerFunc :=
  fun c sys =>
    let '(err, dm) := ResetDatabase (handler_db (sys_world sys)) in
    let sys := mkSystem (sys_pool sys) (with_db (sys_world sys) dm) in
    match err with
    | Some _ => Some (reply StatusInternalServerError sys)
    | None => Some (reply StatusOK sys)
    end.

Definition subscribeToUser (lib : Library) : HandlerFunc :=
  fun c sys =>
    let '(userToSubscribe, err) := Atoi lib (Param c "user_id") in
    match err with
    | Some _ => Some (reply StatusBadRequest sys)
    | None =>
        let '(subscriberID, _) := Atoi lib (GetString "user_id" c) in
        let '(err, dm) :=
          SubscribeToUser subscriberID userToSubscribe (handler_db (sys_world sys)) in
        let sys := mkSystem (sys_pool sys) (with_db (sys_world sys) dm) in
        match err with
        | Some _ => Some (reply StatusInternalServerError sys)
        | None => Some (reply StatusOK sys)
        end
    end.

Definition unsubscribeFromUser (lib : Library) : HandlerFunc :=
  fun c sys =>
    let '(userToUnsubscribe, err) := Atoi lib (Param c "user_id") in
    match err with
    | Some _ => Some (reply StatusBadRequest sys)
    | None =>
        let '(subscriberID, _) := Atoi lib (GetString "user_id" c) in
        let '(err, dm) :=
          UnsubscribeFromUser subscriberID userToUnsubscribe
                              (handler_db (sys_world sys)) in
        let sys := mkSystem (sys_pool sys) (with_db (sys_world sys) dm) in
        match err with
        | Some _ => Some (reply StatusInternalServerError sys)
        | None => Some (reply StatusOK sys)
        end
    end.

(** The POST routes of [main]. *)
Inductive route : Type :=
| POST_register
| POST_posts
| POST_comments
| POST_messages
| POST_subreddits
| POST_subreddits_join
| POST_vote
| POST_subreddits_leave
| POST_reset_database
| POST_users_subscribe
| POST_users_unsubscribe.

Definition serve (lib : Library) (r : route) : HandlerFunc :=
  match r with
  | POST_register => registerUser lib
  | POST_posts => authMiddleware (ActorPoolHandler lib "create_post")
  | POST_comments => authMiddleware (ActorPoolHandler lib "create_comment")
  | POST_messages => authMiddleware (ActorPoolHandler lib "send_message")
  | POST_subreddits => authMiddleware (ActorPoolHandler lib "create_subreddit")
  | POST_subreddits_join => authMiddleware (ActorPoolHandler lib "join_subreddit")
  | POST_vote => authMiddleware (ActorPoolHandler lib "vote")
  | POST_subreddits_leave => authMiddleware (ActorPoolHandler lib "leave_subreddit")
  | POST_reset_database => authMiddleware resetDatabase
  | POST_users_subscribe => authMiddleware (subscribeToUser lib)
  | POST_users_unsubscribe => authMiddleware (unsubscribeFromUser lib)
  end.

Definition kind_of (r : route) : option string :=
  match r with
  | POST_posts => Some "create_post"
  | POST_comments => Some "create_comment"
  | POST_messages => Some "send_message"
  | POST_subreddits => Some "create_subreddit"
  | POST_subreddits_join => Some "join_subreddit"
  | POST_vote => Some "vote"
  | POST_subreddits_leave => Some "leave_subreddit"
  | _ => None
  end.

(** *** A library for the examples

    Decimal numerals with an optional sign, and bodies of one fixed form per
    struct. *)
Definition digit (a : Ascii.ascii) : option Z :=
  let n := Z.of_N (Ascii.N_of_ascii a) in
  if (48 <=? n) && (n <=? 57) then Some (n - 48) else None.

Fixpoint digits (s : string) (acc : Z) : option Z :=
  match s with
  | EmptyString => Some acc
  | String a rest =>
      match digit a with
      | Some d => digits rest (10 * acc + d)
      | None => None
      end
  end.

Definition decimal (s : string) : Z * option error :=
  let syntax := (0, Some (ErrorMsg "strconv.Atoi: invalid syntax")) in
  match s with
  | EmptyString => syntax
  | String a rest =>
      if (Ascii.N_of_ascii a =? 45)%N then
        match rest, digits rest 0 with
        | String _ _, Some n => (- n, None)
        | _, _ => syntax
        end
      else
        match digits s 0 with
        | Some n => (n, None)
        | None => syntax
        end
  end.

Definition example_library : Library :=
  let malformed := Some (ErrorMsg "invalid character") in
  mkLibrary decimal
    (fun body => if String.eqb body "carol pw" then (("carol", "pw"), None)
                 else (("", ""), malformed))
    (fun body => if String.eqb body "rocq" then (("rocq", "about rocq"), None)
                 else (("", ""), malformed))
    (fun body => if String.eqb body "post" then (("again", "hello", 1), None)
                 else (("", "", 0), malformed))
    (fun body => if String.eqb body "comment" then (("first", 1, None), None)
                 else (("", 0, None), malformed))
    (fun body => if String.eqb body "upvote" then ((1, "post", 1), None)
                 else if String.eqb body "sideways" then ((1, "post", 2), None)
                 else ((0, "", 0), malformed))
    (fun body => if String.eqb body "message" then ((1, "hi"), None)
                 else ((0, ""), malformed)).

Definition example_request (user param body : string) : http_Context :=
  mkHttp user (fun _ => param) body [].

(** Three workers in front of the store that holds Alice's post. *)
Definition go_server : System :=
  Eval vm_compute in
    match start 3 go_post with
    | Some sys => sys
    | None => mkSystem (mkPool [] 0) (boot go_post)
    end.

(** The mutation behind a request of user [userID]. *)
Definition mutation_of (userID : Z) (pl : payload) : mutation :=
  match pl with
  | CreatePostRequest title content subredditID =>
      MCreatePost title content userID subredditID
  | CreateCommentRequest content postID parent =>
      MCreateComment content userID postID parent
  | VoteRequest targetID targetType value => MVote userID targetID targetType value
  | SendMessageRequest toUserID content => MSendDirectMessage userID toUserID content
  | CreateSubredditRequest name description =>
      MCreateSubreddit name description userID
  | JoinSubredditRequest subredditID => MJoinSubreddit userID subredditID
  | LeaveSubredditRequest subredditID => MLeaveSubreddit userID subredditID
  end.

(** Requests served one after the other, each to its end before the next. *)
Fixpoint serve_all (lib : Library) (reqs : list (route * http_Context))
  (sys : System) : option System :=
  match reqs with
  | [] => Some sys
  | (r, c) :: rest =>
      match serve lib r c sys with
      | Some sys => serve_all lib rest sys
      | None => None
      end
  end.

(** An upvote of Alice's post by Bob; then the same body again. *)
Definition upvote_request : http_Context :=
  Set_key "user_id" "2" (example_request "2" "" "upvote").

Definition go_server_upvoted : System :=
  Eval vm_compute in
    match ActorPoolHandler example_library "vote" upvote_request go_server with
    | Some sys => sys
    | None => go_server
    end.

(** ** [ProcessRequest], move by move

    [p.mu] is held for the selection and the counter, and is released before
    the caller makes its channel and sends its request.  Between these three
    steps of one caller the other callers and the workers take theirs.  The
    callers are numbered in the order in which they enter. *)

(** How far a caller has come. *)
Inductive progress : Type :=
| HasActor (actor : PID)
| HasChan (actor : PID) (resultChan : chan_ref)
| Waits (resultChan : chan_ref)
| Back (v : option error).

Record Caller := mkCaller
  { call_Type : string; call_Payload : payload; call_Context : gin_Context;
    call_progress : progress }.

Record Server := mkServer
  { srv_pool : ActorPool; srv_world : World; srv_callers : list Caller }.

Inductive move : Type :=
| Select (requestType : string) (pl : payload) (context : gin_Context)
| Make (caller : nat)
| Post (caller : nat)
| Handle (worker : PID)
| Read (caller : nat)
| Call (m : mutation).

Inductive observed : Type :=
| Chose (caller : nat) (i : Z) (worker : PID)
| MadeChan (caller : nat) (c : chan_ref)
| Posted (caller : nat) (worker : PID) (c : chan_ref)
| Handled (worker : PID) (m : message)
| Got (caller : nat) (v : option error)
| Called (m : mutation).

(** One move.  [Select]: a new caller locks [p.mu], takes [p.actors[p.roundRobin]],
    moves the counter on and unlocks.  [Make]: the caller makes its channel.
    [Post]: it sends its request and begins to wait.  [Handle]: a worker
    takes the message at the head of its mailbox.  [Read]: a caller reads
    its result.  [Call]: a handler calls the store itself.  [None]: the move
    cannot be made in this state. *)
Definition move_step (a : move) (srv : Server) : option (observed * Server) :=
  let p := srv_pool srv in
  let w := srv_world srv in
  let cs := srv_callers srv in
  match a with
  | Select ty pl ctx =>
      match index (actors p) (roundRobin p) with
      | Some actor =>
          Some (Chose (List.length cs) (roundRobin p) actor,
                mkServer
                  (mkPool (actors p) (Z.rem (roundRobin p + 1) (len (actors p))))
                  w (cs ++ [mkCaller ty pl ctx (HasActor actor)]))
      | None => None
      end
  | Make k =>
      match nth_error cs k with
      | Some (mkCaller ty pl ctx (HasActor actor)) =>
          let '(resultChan, w) := make_chan 1 w in
          Some (MadeChan k resultChan,
                mkServer p w
                  (replace_nth k (mkCaller ty pl ctx (HasChan actor resultChan)) cs))
      | _ => None
      end
  | Post k =>
      match nth_error cs k with
      | Some (mkCaller ty pl ctx (HasChan actor resultChan)) =>
          Some (Posted k actor resultChan,
                mkServer p
                  (Send actor (IsRequest (mkRequest ty pl ctx resultChan)) w)
                  (replace_nth k (mkCaller ty pl ctx (Waits resultChan)) cs))
      | _ => None
      end
  | Handle pid =>
      match nth_error (processes w) pid with
      | Some pr =>
          match mailbox pr, deliver pid w with
          | m :: _, Some w => Some (Handled pid m, mkServer p w cs)
          | _, _ => None
          end
      | None => None
      end
  | Read k =>
      match nth_error cs k with
      | Some (mkCaller ty pl ctx (Waits resultChan)) =>
          match chan_recv resultChan w with
          | Some (v, w) =>
              Some (Got k v,
                    mkServer p w (replace_nth k (mkCaller ty pl ctx (Back v)) cs))
          | None => None
          end
      | _ => None
      end
  | Call m =>
      Some (Called m, mkServer p (with_db w (snd (apply m (handler_db w)))) cs)
  end.

Fixpoint play (moves : list move) (srv : Server)
  : option (list observed * Server) :=
  match moves with
  | [] => Some ([], srv)
  | a :: rest =>
      match move_step a srv with
      | Some (o, srv') =>
          match play rest srv' with
          | Some (os, srv'') => Some (o :: os, srv'')
          | None => None
          end
      | None => None
      end
  end.

(** The server when [NewActorPool] has returned and no caller has entered. *)
Definition open_server (poolSize : Z) (dm : DatabaseManager) : option Server :=
  match start poolSize dm with
  | Some sys => Some (mkServer (sys_pool sys) (sys_world sys) [])
  | None => None
  end.

(** The callers in the order of their selections; the channels of the
    requests sent to a worker, in the order of the sends, and the callers
    that sent them; the channels of the requests that a worker has taken, in
    the order in which it took them. *)
Definition chosen (os : list observed) : list nat :=
  flat_map (fun o => match o with Chose k _ _ => [k] | _ => [] end) os.

Definition posted_to (pid : PID) (os : list observed) : list chan_ref :=
  flat_map (fun o => match o with
                     | Posted _ worker c => if Nat.eqb worker pid then [c] else []
                     | _ => []
                     end) os.

Definition posters_to (pid : PID) (os : list observed) : list nat :=
  flat_map (fun o => match o with
                     | Posted k worker _ => if Nat.eqb worker pid then [k] else []
                     | _ => []
                     end) os.

Definition handled_by (pid : PID) (os : list observed) : list chan_ref :=
  flat_map (fun o => match o with
                     | Handled worker m =>
                         if Nat.eqb worker pid then waiting_channels [m] else []
                     | _ => []
                     end) os.

(** Two callers and one worker: the first is selected first, the second
    makes its channel and sends first. *)
Definition overtaking : list move :=
  [ Select "vote" (VoteRequest 1 "post" 1) (mkContext 2);
    Select "vote" (VoteRequest 1 "post" (-1)) (mkContext 1);
    Make 1%nat; Post 1%nat;
    Make 0%nat; Post 0%nat;
    Handle 0%nat; Handle 0%nat; Handle 0%nat;
    Read 0%nat; Read 1%nat ].

Definition one_worker : Server :=
  Eval vm_compute in
    match open_server 1 go_post with
    | Some srv => srv
    | None => mkServer (mkPool [] 0) (boot go_post) []
    end.

Definition overtaken : list observed * Server :=
  Eval vm_compute in
    match play overtaking one_worker with
    | Some r => r
    | None => ([], one_worker)
    end.

(** * Properties *)

(** ** The driver calls *)

Lemma Exec_cases : forall q dm,
  (exists e, Exec q dm = (no_result, Some e, tick dm))
  \/ (exists r s', fails dm = false
        /\ SQL.exec foreign_keys q (db dm) = inl (r, s')
        /\ Exec q dm = (r, None, mkDM s' (tl (io dm)))).
Proof.
  intros q dm. unfold Exec.
  destruct (fails dm); [left; eauto|].
  destruct (SQL.exec foreign_keys q (db dm)) as [[r s']|e]; [right|left]; eauto.
Qed.

Lemma Begin_cases : forall dm,
  (exists e, Begin dm = (mkTx (db dm), Some e, tick dm))
  \/ (fails dm = false /\ Begin dm = (mkTx (db dm), None, tick dm)).
Proof.
  intros dm. unfold Begin. destruct (fails dm); [left|right]; eauto.
Qed.

Lemma Commit_cases : forall tx dm,
  (exists e, Commit tx dm = (Some e, mkDM (snapshot tx) (tl (io dm))))
  \/ (fails dm = false /\ Commit tx dm = (None, tick dm)).
Proof.
  intros tx dm. unfold Commit. destruct (fails dm); [left|right]; eauto.
Qed.

Lemma calm_fails : forall dm, calm dm -> fails dm = false.
Proof.
  intros [s l] H. unfold calm, fails in *. simpl in *.
  destruct l; [reflexivity|]. inversion H; assumption.
Qed.

Lemma calm_tl : forall s l, calm (mkDM s l) -> forall s', calm (mkDM s' (tl l)).
Proof.
  unfold calm. simpl. intros s l H s'. destruct l; simpl; [constructor|].
  inversion H; assumption.
Qed.

Lemma calm_tick : forall dm, calm dm -> calm (tick dm).
Proof. intros [s l] H. unfold tick. simpl. eapply calm_tl; eassumption. Qed.

Lemma Exec_calm : forall q dm r s',
  calm dm -> SQL.exec foreign_keys q (db dm) = inl (r, s') ->
  Exec q dm = (r, None, mkDM s' (tl (io dm))).
Proof.
  intros q dm r s' C H. unfold Exec. rewrite (calm_fails dm C), H. reflexivity.
Qed.

(** ** Community creation *)

Lemma exec_InsertSubreddit : forall fk name description s r s',
  SQL.exec fk (SQL.InsertSubreddit name description) s = inl (r, s') ->
  existsb (fun x => String.eqb (sr_name x) name) (subreddits s) = false
  /\ s' = SQL.bump "subreddits" (SQL.LastInsertId r)
            (with_subreddits s
               (subreddits s ++ [mkSubreddit (SQL.LastInsertId r) name description])).
Proof.
  intros fk name description s r s' H. simpl in H.
  destruct (SQL.next_id _ _ _); [|discriminate].
  destruct (existsb _ _); [discriminate|].
  inversion H; subst; clear H. split; reflexivity.
Qed.

Lemma exec_InsertMember : forall fk sid uid s r s',
  SQL.exec fk (SQL.InsertMember sid uid) s = inl (r, s') ->
  is_member s sid uid = false
  /\ s' = with_subreddit_members s (subreddit_members s ++ [mkMember sid uid]).
Proof.
  intros fk sid uid s r s' H. simpl in H. unfold is_member.
  destruct (existsb _ _); [discriminate|].
  destruct (fk && _); [discriminate|].
  inversion H; subst; clear H. split; reflexivity.
Qed.

Lemma CreateSubreddit_calm : forall name description creatorID dm,
  calm dm ->
  (snd (fst (CreateSubreddit name description creatorID dm)) = None
   <-> existsb (fun x => String.eqb (sr_name x) name) (subreddits (db dm)) = false
       /\ exists id,
            SQL.next_id "subreddits" (SQL.subreddit_ids (db dm)) (db dm) = Some id
            /\ is_member (db dm) id creatorID = false).
Proof.
  intros name description creatorID [s l] C.
  assert (F : forall s', fails (mkDM s' (tl l)) = false
                               /\ fails (mkDM s' (tl (tl l))) = false
                               /\ fails (mkDM s' (tl (tl (tl l)))) = false).
  { intros s'. repeat split; apply calm_fails.
    - exact (calm_tl s l C s').
    - exact (calm_tl s (tl l) (calm_tl s l C s) s').
    - exact (calm_tl s (tl (tl l)) (calm_tl s (tl l) (calm_tl s l C s) s) s'). }
  unfold CreateSubreddit, Begin, TxExec, Exec, Commit, LastInsertId, tick.
  rewrite (calm_fails _ C). cbn [tick db io].
  rewrite (proj1 (F s)). cbn [db io SQL.exec].
  destruct (SQL.next_id "subreddits" (SQL.subreddit_ids s) s) as [id|] eqn:N.
  2:{ cbn. split; [discriminate|]. intros (_ & id & X & _). discriminate. }
  destruct (existsb (fun r => String.eqb (sr_name r) name) (subreddits s)) eqn:E.
  { cbn. split; [discriminate|]. intros [X _]. discriminate. }
  cbn [fst snd SQL.LastInsertId].
  match goal with
  | |- context [fails (mkDM ?s' (tl (tl l)))] =>
      rewrite (proj1 (proj2 (F s')))
  end.
  cbn [db io SQL.exec]. unfold foreign_keys. cbn [andb].
  change (existsb (SQL.member_eqb (mkMember id creatorID))
            (subreddit_members
               (SQL.bump "subreddits" id
                  (with_subreddits s (subreddits s ++ [mkSubreddit id name description])))))
    with (is_member s id creatorID).
  destruct (is_member s id creatorID) eqn:M.
  { cbn. split; [discriminate|]. intros (_ & id' & X & Y).
    inversion X; subst id'. congruence. }
  unfold SQL.done. cbn [fst snd].
  match goal with
  | |- context [fails (mkDM ?s' (tl (tl (tl l))))] =>
      rewrite (proj2 (proj2 (F s')))
  end.
  cbn. split; [|reflexivity]. intros _. split; [reflexivity|].
  exists id. split; [reflexivity|exact M].
Qed.

(** C3. [CreateSubreddit], whatever the driver does, either writes the
    community row and the membership row of its creator, both and nothing
    else but the id counter, or returns an error and leaves the store as it
    was.  When no driver call fails, the two rows are written unless one of
    the two inserts is refused: it returns no error exactly when no community
    has the name, the ids are not exhausted and the membership row of the
    creator under the new id is not there already. *)
Theorem CreateSubreddit_all_or_nothing :
  forall name description creatorID dm,
    match CreateSubreddit name description creatorID dm with
    | (id, None, dm') =>
        subreddits (db dm')
          = subreddits (db dm) ++ [mkSubreddit id name description]
        /\ subreddit_members (db dm')
          = subreddit_members (db dm) ++ [mkMember id creatorID]
        /\ existsb (fun x => String.eqb (sr_name x) name) (subreddits (db dm)) = false
        /\ is_member (db dm) id creatorID = false
        /\ users (db dm') = users (db dm)
        /\ posts (db dm') = posts (db dm)
        /\ comments (db dm') = comments (db dm)
        /\ votes (db dm') = votes (db dm)
        /\ direct_messages (db dm') = direct_messages (db dm)
        /\ user_subscriptions (db dm') = user_subscriptions (db dm)
    | (_, Some _, dm') => db dm' = db dm
    end
    /\ (calm dm ->
        (snd (fst (CreateSubreddit name description creatorID dm)) = None
         <-> existsb (fun x => String.eqb (sr_name x) name) (subreddits (db dm))
             = false
             /\ exists id,
                  SQL.next_id "subreddits" (SQL.subreddit_ids (db dm)) (db dm)
                  = Some id
                  /\ is_member (db dm) id creatorID = false)).
Proof.
  intros name description creatorID dm.
  split; [|apply CreateSubreddit_calm]. unfold CreateSubreddit.
  destruct (Begin_cases dm) as [[e ->]|[_ ->]]; [reflexivity|].
  unfold TxExec.
  destruct (Exec_cases (SQL.InsertSubreddit name description) (tick dm))
    as [[e ->]|(r & s1 & _ & H1 & ->)]; [reflexivity|].
  apply exec_InsertSubreddit in H1. destruct H1 as [Hname ->].
  unfold LastInsertId. set (id := SQL.LastInsertId r).
  match goal with
  | |- context [Exec ?q ?d] =>
      destruct (Exec_cases q d) as [[e ->]|(r2 & s2 & _ & H2 & ->)]
  end; [reflexivity|].
  apply exec_InsertMember in H2. destruct H2 as [Hmem ->].
  match goal with
  | |- context [Commit ?t ?d] =>
      destruct (Commit_cases t d) as [[e ->]|[_ ->]]
  end; [reflexivity|].
  simpl. repeat split; assumption.
Qed.

(** Bob founds "rocq" in the store of Alice's post; "go" is taken; and after
    Alice has joined a community 2 that does not exist yet, her founding of
    what becomes community 2 fails at the membership row and leaves no
    community behind. *)
Lemma CreateSubreddit_all_or_nothing_witness :
  snd (fst (CreateSubreddit "rocq" "about rocq" 2 go_post)) = None
  /\ snd (fst (CreateSubreddit "go" "again" 2 go_post)) <> None
  /\ (snd (fst (CreateSubreddit "rocq" "about rocq" 1 (run [MJoinSubreddit 1 2] go_post)))
      <> None
      /\ db (snd (CreateSubreddit "rocq" "about rocq" 1 (run [MJoinSubreddit 1 2] go_post)))
         = db (run [MJoinSubreddit 1 2] go_post)).
Proof.
  pose proof (CreateSubreddit_all_or_nothing "rocq" "about rocq" 2 go_post)
    as [_ H1].
  pose proof (CreateSubreddit_all_or_nothing "go" "again" 2 go_post) as [_ H2].
  pose proof (CreateSubreddit_all_or_nothing "rocq" "about rocq" 1
                (run [MJoinSubreddit 1 2] go_post)) as [H3 H4].
  assert (NE : snd (fst (CreateSubreddit "rocq" "about rocq" 1
                           (run [MJoinSubreddit 1 2] go_post))) <> None).
  { intros X. apply H4 in X; [|vm_compute; constructor].
    destruct X as (_ & id & N & M). vm_compute in N.
    injection N as <-. vm_compute in M. discriminate M. }
  clear H4.
  split; [|split; [|split]].
  - apply H1; [vm_compute; constructor|].
    split; [vm_compute; reflexivity|].
    exists 2. split; vm_compute; reflexivity.
  - intros X. apply H2 in X; [|vm_compute; constructor].
    destruct X as [X _]. vm_compute in X. discriminate X.
  - exact NE.
  - revert H3 NE.
    destruct (CreateSubreddit "rocq" "about rocq" 1 (run [MJoinSubreddit 1 2] go_post))
      as [[id [e|]] d]; intros H3 NE; [exact H3|].
    exfalso. apply NE. reflexivity.
Defined.

(** ** Votes *)

Lemma exec_InsertVote : forall fk u t ty v s r s',
  SQL.exec fk (SQL.InsertVote u t ty v) s = inl (r, s') ->
  (String.eqb ty "post" || String.eqb ty "comment") = true
  /\ (v = -1 \/ v = 1)
  /\ has_voted s u t ty v = false
  /\ s' = with_votes s (votes s ++ [mkVote u t ty v]).
Proof.
  intros fk u t ty v s r s' H. simpl in H. unfold has_voted.
  destruct (String.eqb ty "post" || String.eqb ty "comment"); [|discriminate].
  destruct (v =? -1) eqn:E1; destruct (v =? 1) eqn:E2; simpl in H;
    try discriminate;
    (destruct (existsb _ _); [discriminate|]);
    (destruct (fk && _); [discriminate|]);
    inversion H; subst; clear H; repeat split; lia.
Qed.

Lemma exec_InsertVote_ok : forall u t ty v s,
  (String.eqb ty "post" || String.eqb ty "comment") = true ->
  (v = -1 \/ v = 1) ->
  has_voted s u t ty v = false ->
  SQL.exec foreign_keys (SQL.InsertVote u t ty v) s
  = inl (SQL.mkResult 0 1, with_votes s (votes s ++ [mkVote u t ty v])).
Proof.
  intros u t ty v s Hty Hv Hnew. unfold has_voted in Hnew. simpl.
  rewrite Hty, Hnew. simpl.
  destruct Hv; subst; reflexivity.
Qed.

Lemma update_karma_eq : forall a delta s,
  SQL.update_karma a delta s
  = inl (SQL.mkResult 0
           (match a with
            | Some x => SQL.Zlen (filter (fun u => u_id u =? x) (users s))
            | None => 0
            end),
         with_users s (credit a delta (users s))).
Proof.
  intros [a|] delta s; unfold SQL.update_karma, SQL.done, credit; [reflexivity|].
  destruct s; reflexivity.
Qed.

Lemma exec_karma_statement : forall fk ty v t s,
  SQL.exec fk ((if String.eqb ty "post"
                then SQL.UpdateKarmaOfPostAuthor
                else SQL.UpdateKarmaOfCommentAuthor) v t) s
  = SQL.update_karma (author_of s ty t) v s.
Proof.
  intros fk ty v t s. unfold author_of. destruct (String.eqb ty "post"); reflexivity.
Qed.

(** What one cast does: a vote that is accepted appends its row and credits
    the author of the target; a vote that is not leaves the store alone. *)
Lemma Vote_spec : forall u t ty v dm,
  match Vote u t ty v dm with
  | (None, dm') =>
      (String.eqb ty "post" || String.eqb ty "comment") = true
      /\ (v = -1 \/ v = 1)
      /\ has_voted (db dm) u t ty v = false
      /\ db dm' = with_users (with_votes (db dm) (votes (db dm) ++ [mkVote u t ty v]))
                    (credit (author_of (db dm) ty t) v (users (db dm)))
  | (Some _, dm') => db dm' = db dm
  end.
Proof.
  intros u t ty v dm. unfold Vote.
  destruct (Begin_cases dm) as [[e ->]|[_ ->]]; [reflexivity|].
  unfold TxExec.
  destruct (Exec_cases (SQL.InsertVote u t ty v) (tick dm))
    as [[e ->]|(r & s1 & _ & H1 & ->)]; [reflexivity|].
  apply exec_InsertVote in H1. destruct H1 as (Hty & Hv & Hnew & ->).
  match goal with
  | |- context [Exec ?q ?d] =>
      destruct (Exec_cases q d) as [[e ->]|(r2 & s2 & _ & H2 & ->)]
  end; [reflexivity|].
  rewrite exec_karma_statement, update_karma_eq in H2.
  inversion H2; subst; clear H2.
  match goal with
  | |- context [Commit ?t ?d] =>
      destruct (Commit_cases t d) as [[e ->]|[_ ->]]
  end; [reflexivity|].
  simpl. repeat split; assumption.
Qed.

Lemma Vote_calm : forall u t ty v dm,
  calm dm ->
  (String.eqb ty "post" || String.eqb ty "comment") = true ->
  (v = -1 \/ v = 1) ->
  has_voted (db dm) u t ty v = false ->
  fst (Vote u t ty v dm) = None.
Proof.
  intros u t ty v dm C Hty Hv Hnew. unfold Vote, Begin, TxExec, Commit.
  rewrite (calm_fails dm C).
  assert (C1 : calm (tick dm)) by (apply calm_tick; assumption).
  rewrite (Exec_calm _ (tick dm) _ _ C1 (exec_InsertVote_ok u t ty v _ Hty Hv Hnew)).
  match goal with
  | |- context [Exec ?q ?d] =>
      assert (C2 : calm d) by (eapply calm_tl; exact C1);
      erewrite (Exec_calm q d _ _ C2)
        by (rewrite exec_karma_statement, update_karma_eq; reflexivity)
  end.
  match goal with
  | |- context [fails ?d] =>
      assert (C3 : calm d) by (eapply calm_tl; exact C2);
      rewrite (calm_fails d C3)
  end.
  reflexivity.
Qed.

(** ** Karma against the ledger *)

Lemma sum_app : forall l1 l2, sum (l1 ++ l2) = sum l1 + sum l2.
Proof.
  induction l1 as [|x l1 IH]; intros l2; simpl; [reflexivity|].
  unfold sum in *. simpl. rewrite IH. lia.
Qed.

Lemma on_content_of_ext : forall s s' uid v,
  posts s' = posts s -> comments s' = comments s ->
  on_content_of s' uid v = on_content_of s uid v.
Proof.
  intros s s' uid v Hp Hc.
  unfold on_content_of, author_of, SQL.author_of_post, SQL.author_of_comment.
  rewrite Hp, Hc. reflexivity.
Qed.

Lemma ledger_sum_cast : forall s s' uid row,
  posts s' = posts s -> comments s' = comments s ->
  votes s' = votes s ++ [row] ->
  ledger_sum s' uid
  = ledger_sum s uid + (if on_content_of s uid row then v_vote_value row else 0).
Proof.
  intros s s' uid row Hp Hc Hv. unfold ledger_sum. rewrite Hv.
  rewrite (filter_ext _ _ (fun v => on_content_of_ext s s' uid v Hp Hc)).
  rewrite filter_app, map_app, sum_app. simpl.
  destruct (on_content_of s uid row); simpl; unfold sum; simpl; lia.
Qed.

Lemma credit_rows : forall a v us,
  Forall2 (fun u u' =>
             u_id u' = u_id u
             /\ u_karma u' - u_karma u
                = (if match a with Some x => x =? u_id u | None => false end
                   then v else 0))
          us (credit a v us).
Proof.
  intros a v us. induction us as [|u us IH]; [destruct a; constructor|].
  destruct a as [x|]; simpl in *.
  - constructor; [|exact IH].
    rewrite (Z.eqb_sym x (u_id u)).
    destruct (u_id u =? x); simpl; split; try reflexivity; lia.
  - constructor; [split; [reflexivity|lia]|exact IH].
Qed.

Lemma Forall2_impl_pair : forall (A B : Type) (P Q : A -> B -> Prop) l l',
  (forall a b, P a b -> Q a b) -> Forall2 P l l' -> Forall2 Q l l'.
Proof. intros A B P Q l l' H F. induction F; constructor; auto. Qed.

Lemma Forall2_compose : forall (A : Type) (P Q R : A -> A -> Prop) l1 l2 l3,
  (forall a b c, P a b -> Q b c -> R a c) ->
  Forall2 P l1 l2 -> Forall2 Q l2 l3 -> Forall2 R l1 l3.
Proof.
  intros A P Q R l1 l2 l3 H F. revert l3.
  induction F; intros l3 G; inversion G; subst; constructor; eauto.
Qed.

Lemma Forall2_same : forall (A : Type) (P : A -> A -> Prop) l,
  (forall a, P a a) -> Forall2 P l l.
Proof. intros A P l H. induction l; constructor; auto. Qed.

Lemma Forall2_In_r : forall (A B : Type) (P : A -> B -> Prop) l l' b,
  Forall2 P l l' -> In b l' -> exists a, In a l /\ P a b.
Proof.
  intros A B P l l' b F. induction F; intros Hin; simpl in *; [contradiction|].
  destruct Hin as [->|Hin]; [eauto|].
  destruct (IHF Hin) as (a & Ha & HP). eauto.
Qed.

Lemma karma_follows_ledger_refl : forall s, karma_follows_ledger s s.
Proof.
  intros s. apply Forall2_same. intros u. split; [reflexivity|lia].
Qed.

Lemma karma_follows_ledger_trans : forall s1 s2 s3,
  karma_follows_ledger s1 s2 -> karma_follows_ledger s2 s3 ->
  karma_follows_ledger s1 s3.
Proof.
  intros s1 s2 s3 H12 H23. unfold karma_follows_ledger in *.
  eapply Forall2_compose; [|exact H12|exact H23].
  simpl. intros a b c [Hid1 Hk1] [Hid2 Hk2]. rewrite Hid1 in *. split; [assumption|lia].
Qed.

Lemma Vote_follows_ledger : forall u t ty v dm,
  let s := db dm in
  let s' := db (snd (Vote u t ty v dm)) in
  posts s' = posts s /\ comments s' = comments s /\ karma_follows_ledger s s'.
Proof.
  intros u t ty v dm. simpl.
  pose proof (Vote_spec u t ty v dm) as H.
  destruct (Vote u t ty v dm) as [[e|] dm']; simpl.
  - rewrite H. repeat split. apply karma_follows_ledger_refl.
  - destruct H as (_ & _ & _ & H). rewrite H. simpl. repeat split.
    unfold karma_follows_ledger. simpl.
    eapply Forall2_impl_pair; [|apply credit_rows].
    simpl. intros a b [Hid Hk]. split; [assumption|].
    rewrite Hk.
    rewrite (ledger_sum_cast (db dm) _ (u_id a) (mkVote u t ty v))
      by reflexivity.
    unfold on_content_of. simpl. lia.
Qed.

Lemma casts_follow_ledger : forall casts dm,
  let s := db dm in
  let s' := db (run (map cast_vote casts) dm) in
  posts s' = posts s /\ comments s' = comments s /\ karma_follows_ledger s s'.
Proof.
  induction casts as [|[[[u t] ty] v] casts IH]; intros dm; simpl.
  - repeat split. apply karma_follows_ledger_refl.
  - destruct (Vote_follows_ledger u t ty v dm) as (Hp & Hc & Hk).
    destruct (IH (snd (Vote u t ty v dm))) as (Hp' & Hc' & Hk').
    simpl in *. unfold run in *. simpl in *.
    repeat split; try congruence.
    eapply karma_follows_ledger_trans; eassumption.
Qed.

Lemma follows_preserves : forall s s',
  karma_follows_ledger s s' -> karma_is_ledger_sum s -> karma_is_ledger_sum s'.
Proof.
  intros s s' F I u' Hin.
  destruct (Forall2_In_r _ _ _ _ _ u' F Hin) as (u & Hu & Hid & Hk).
  specialize (I u Hu). rewrite Hid. lia.
Qed.

(** C1, as the spec has it, fails: Bob casts +1 on post 1 before there is a
    post 1; the row is recorded and nobody is credited.  Alice then writes
    post 1.  The ledger now holds +1 on a post of hers and her karma is 0. *)
Lemma early_vote_breaks_karma_is_ledger_sum :
  ~ karma_is_ledger_sum
      (db (run [ MRegisterUser "alice" "pw"; MRegisterUser "bob" "pw";
                 MCreateSubreddit "go" "about go" 1;
                 MVote 2 1 "post" 1;
                 MCreatePost "hello" "world" 1 1 ] (InitDatabase []))).
Proof.
  intros H. specialize (H (mkUser 1 "alice" "pw" 0)).
  assert (E : 0 = 1); [|discriminate E].
  apply H. vm_compute. left. reflexivity.
Qed.

(** Bob's second +1 on post 1: the primary key of the ledger refuses it, the
    ledger keeps its one row and Alice's karma stays 1. *)
Lemma second_upvote_is_refused :
  fst (Vote 2 1 "post" 1 go_post) = None
  /\ Vote 2 1 "post" 1 go_upvoted
  = (Some (Errorf "failed to record vote"
             (SqliteConstraintUnique
                "votes.user_id, votes.target_id, votes.target_type, votes.vote_value")),
     go_upvoted)
  /\ votes (db go_upvoted) = [mkVote 2 1 "post" 1]
  /\ karma_of (db go_upvoted) 1 = Some 1.
Proof. vm_compute. repeat split. Qed.

(** C5.  The repeat of a vote is refused.  The comment of [Vote] calls its
    statement an upsert, and the spec has the repeat accepted and counted
    again; the statement is a plain INSERT, and the primary key of the
    ledger (user, target, kind, value) turns away a vote that its voter has
    cast on the target before: [Vote] returns an error, and the store, the
    ledger and every karma, is as it was, whatever the driver does. *)
Theorem repeated_vote_is_refused : forall u t ty v dm,
  has_voted (db dm) u t ty v = true ->
  fst (Vote u t ty v dm) <> None
  /\ db (snd (Vote u t ty v dm)) = db dm.
Proof.
  intros u t ty v dm Hold.
  pose proof (Vote_spec u t ty v dm) as H.
  destruct (Vote u t ty v dm) as [[e|] dm']; simpl.
  - split; [discriminate|assumption].
  - destruct H as (_ & _ & Hnew & _). congruence.
Qed.

Lemma repeated_vote_is_refused_witness :
  fst (Vote 2 1 "post" 1 go_upvoted) <> None
  /\ db (snd (Vote 2 1 "post" 1 go_upvoted)) = db go_upvoted.
Proof.
  apply (repeated_vote_is_refused 2 1 "post" 1 go_upvoted).
  vm_compute. reflexivity.
Defined.

(** C6, as the spec has it, fails: there is no post 7, and Bob's vote on
    post 7 is accepted and recorded. *)
Lemma vote_on_missing_post_is_recorded :
  author_of (db go_post) "post" 7 = None
  /\ fst (Vote 2 7 "post" 1 go_post) = None
  /\ votes (db (snd (Vote 2 7 "post" 1 go_post))) = [mkVote 2 7 "post" 1]
  /\ users (db (snd (Vote 2 7 "post" 1 go_post))) = users (db go_post).
Proof. vm_compute. repeat split. Qed.

(** C6, amended.  A vote on a target that does not exist is not a failure:
    when no driver call fails, the kind is "post" or "comment", the value is
    1 or -1 and the voter has not cast this vote before, the cast returns no
    error and its row is recorded; no karma changes. *)
Theorem vote_on_unknown_target : forall u t ty v dm,
  calm dm ->
  (String.eqb ty "post" || String.eqb ty "comment") = true ->
  (v = -1 \/ v = 1) ->
  has_voted (db dm) u t ty v = false ->
  author_of (db dm) ty t = None ->
  fst (Vote u t ty v dm) = None
  /\ votes (db (snd (Vote u t ty v dm))) = votes (db dm) ++ [mkVote u t ty v]
  /\ users (db (snd (Vote u t ty v dm))) = users (db dm).
Proof.
  intros u t ty v dm C Hty Hv Hnew Hnone.
  pose proof (Vote_calm u t ty v dm C Hty Hv Hnew) as Hok.
  pose proof (Vote_spec u t ty v dm) as H.
  destruct (Vote u t ty v dm) as [[e|] dm']; simpl in *; [discriminate|].
  destruct H as (_ & _ & _ & H). rewrite H, Hnone. repeat split.
Qed.

Lemma vote_on_unknown_target_witness :
  fst (Vote 2 7 "comment" (-1) go_post) = None
  /\ votes (db (snd (Vote 2 7 "comment" (-1) go_post)))
     = votes (db go_post) ++ [mkVote 2 7 "comment" (-1)]
  /\ users (db (snd (Vote 2 7 "comment" (-1) go_post))) = users (db go_post).
Proof.
  apply (vote_on_unknown_target 2 7 "comment" (-1) go_post).
  - constructor.
  - reflexivity.
  - left. reflexivity.
  - reflexivity.
  - reflexivity.
Defined.

(** ** What every mutation keeps *)

Lemma Begin_eq : forall dm tx e dm',
  Begin dm = (tx, e, dm') -> snapshot tx = db dm /\ db dm' = db dm.
Proof.
  intros dm tx e dm' H. unfold Begin in H.
  destruct (fails dm); inversion H; subst; split; reflexivity.
Qed.

Lemma Commit_eq : forall tx dm e dm',
  Commit tx dm = (e, dm') ->
  (e = None /\ db dm' = db dm) \/ (e <> None /\ db dm' = snapshot tx).
Proof.
  intros tx dm e dm' H. unfold Commit in H.
  destruct (fails dm); inversion H; subst; [right|left]; split;
    try reflexivity; discriminate.
Qed.

Section StoreInvariant.

Variable P : Store -> Prop.
Hypothesis P_exec : forall q s r s',
  SQL.exec foreign_keys q s = inl (r, s') -> P s -> P s'.

Lemma Exec_keeps : forall q dm r e dm',
  Exec q dm = (r, e, dm') -> P (db dm) -> P (db dm').
Proof.
  intros q dm r e dm' H HP.
  destruct (Exec_cases q dm) as [[e' E]|(r' & s' & _ & Hq & E)];
    rewrite E in H; inversion H; subst; simpl; eauto.
Qed.

Lemma Commit_keeps : forall tx dm e dm',
  Commit tx dm = (e, dm') -> P (snapshot tx) -> P (db dm) -> P (db dm').
Proof.
  intros tx dm e dm' H Hs Hd.
  destruct (Commit_eq _ _ _ _ H) as [[_ ->]|[_ ->]]; assumption.
Qed.

Lemma delete_rows_keeps : forall tx ts dm,
  P (snapshot tx) -> P (db dm) -> P (db (snd (delete_rows tx ts dm))).
Proof.
  intros tx ts. induction ts as [|t ts IH]; intros dm Hs Hd; simpl; [assumption|].
  unfold TxExec. destruct (Exec (SQL.DeleteFrom t) dm) as [[r e] dm1] eqn:E.
  apply Exec_keeps in E; [|assumption].
  destruct e; simpl; auto.
Qed.

Lemma reset_sequences_keeps : forall tx ts dm,
  P (snapshot tx) -> P (db dm) -> P (db (snd (reset_sequences tx ts dm))).
Proof.
  intros tx ts. induction ts as [|t ts IH]; intros dm Hs Hd; simpl; [assumption|].
  unfold TxExec. destruct (Exec (SQL.DeleteFromSequence t) dm) as [[r e] dm1] eqn:E.
  apply Exec_keeps in E; [|assumption].
  destruct e; simpl; auto.
Qed.

Ltac one_exec :=
  match goal with
  | |- context [Exec ?q ?d] =>
      let E := fresh "E" in
      destruct (Exec q d) as [[? [?|]] ?] eqn:E;
      (apply Exec_keeps in E; [|assumption]); simpl; try assumption
  end.

Lemma apply_keeps : forall m dm, P (db dm) -> P (db (snd (apply m dm))).
Proof.
  intros m dm HP. destruct m; simpl.
  - unfold RegisterUser. one_exec.
  - unfold CreateSubreddit, TxExec, Rollback, LastInsertId.
    destruct (Begin dm) as [[tx [e|]] dm0] eqn:B;
      apply Begin_eq in B; destruct B as [Hs Hd]; simpl; [congruence|].
    rewrite <- Hd in HP. rewrite <- Hs in Hd.
    one_exec; [congruence|]. one_exec; [congruence|].
    match goal with
    | |- context [Commit ?t ?d] =>
        destruct (Commit t d) as [e2 d2] eqn:C; apply Commit_keeps in C;
          simpl; congruence
    end.
  - unfold JoinSubreddit. one_exec.
  - unfold LeaveSubreddit. one_exec.
  - unfold CreatePost. one_exec.
  - unfold Vote, TxExec, Rollback.
    destruct (Begin dm) as [[tx [e|]] dm0] eqn:B;
      apply Begin_eq in B; destruct B as [Hs Hd]; simpl; [congruence|].
    rewrite <- Hd in HP. rewrite <- Hs in Hd.
    one_exec; [congruence|]. one_exec; [congruence|].
    match goal with
    | |- context [Commit ?t ?d] =>
        destruct (Commit t d) as [e2 d2] eqn:C; apply Commit_keeps in C;
          simpl; congruence
    end.
  - unfold CreateComment. one_exec.
  - unfold SendDirectMessage. one_exec.
  - unfold SubscribeToUser. one_exec.
  - unfold UnsubscribeFromUser. one_exec.
  - unfold ResetDatabase.
    destruct (Begin dm) as [[tx [e|]] dm0] eqn:B;
      apply Begin_eq in B; destruct B as [Hs Hd]; cbn [snd]; [congruence|].
    rewrite <- Hd in HP. rewrite <- Hs in Hd.
    assert (Hsnap : P (snapshot tx)) by congruence.
    pose proof (delete_rows_keeps tx tables dm0 Hsnap HP) as H1.
    destruct (delete_rows tx tables dm0) as [[e1|] dm1]; cbn [snd] in *;
      [assumption|].
    pose proof (reset_sequences_keeps tx tables dm1 Hsnap H1) as H2.
    destruct (reset_sequences tx tables dm1) as [[e2|] dm2]; cbn [snd] in *;
      [assumption|].
    destruct (Commit tx dm2) as [e3 d3] eqn:C. apply Commit_keeps in C; assumption.
Qed.

Lemma run_keeps : forall ms dm, P (db dm) -> P (db (run ms dm)).
Proof.
  induction ms as [|m ms IH]; intros dm HP; simpl; [assumption|].
  apply IH. apply apply_keeps. assumption.
Qed.

End StoreInvariant.

(** ** Membership *)

Lemma member_eqb_eq : forall a b, SQL.member_eqb a b = true <-> a = b.
Proof.
  intros [a1 a2] [b1 b2]. unfold SQL.member_eqb. simpl.
  rewrite andb_true_iff, !Z.eqb_eq. split.
  - intros [-> ->]. reflexivity.
  - intros H. inversion H. split; reflexivity.
Qed.

Lemma is_member_In : forall s c u,
  is_member s c u = true <-> In (mkMember c u) (subreddit_members s).
Proof.
  intros s c u. unfold is_member. rewrite existsb_exists. split.
  - intros (x & Hin & Heq). apply member_eqb_eq in Heq. subst. assumption.
  - intros Hin. exists (mkMember c u). split; [assumption|].
    apply member_eqb_eq. reflexivity.
Qed.

Lemma is_member_false : forall s c u,
  is_member s c u = false -> ~ In (mkMember c u) (subreddit_members s).
Proof.
  intros s c u H Hin. apply is_member_In in Hin. congruence.
Qed.

Lemma NoDup_snoc : forall (A : Type) (l : list A) x,
  NoDup l -> ~ In x l -> NoDup (l ++ [x]).
Proof.
  intros A l x Hl Hx. induction Hl as [|y l Hy Hl IH]; simpl.
  - constructor; [intros []|constructor].
  - constructor.
    + rewrite in_app_iff. simpl. intros [H|[H|[]]]; [contradiction|].
      subst. apply Hx. left. reflexivity.
    + apply IH. intros H. apply Hx. right. assumption.
Qed.

Lemma filter_none : forall (A : Type) (g : A -> bool) l,
  existsb g l = false -> filter (fun x => negb (g x)) l = l.
Proof.
  intros A g l. induction l as [|x l IH]; simpl; [reflexivity|].
  intros H. apply orb_false_iff in H. destruct H as [Hx Hl].
  rewrite Hx, (IH Hl). reflexivity.
Qed.

Lemma with_subreddit_members_same : forall s,
  with_subreddit_members s (subreddit_members s) = s.
Proof. intros []. reflexivity. Qed.

Lemma delete_from_members : forall fk table s r s',
  SQL.delete_from fk table s = inl (r, s') ->
  subreddit_members s' = subreddit_members s \/ subreddit_members s' = [].
Proof.
  intros fk table s r s' H. unfold SQL.delete_from, SQL.done in H.
  repeat match type of H with
         | (if ?c then _ else _) = _ => destruct c
         end;
    inversion H; subst; simpl; auto.
Qed.

Lemma exec_members_NoDup : forall q s r s',
  SQL.exec foreign_keys q s = inl (r, s') ->
  NoDup (subreddit_members s) -> NoDup (subreddit_members s').
Proof.
  intros q s r s' H N. destruct q; simpl in H;
    try (apply delete_from_members in H; destruct H as [->| ->];
         [assumption|constructor]);
    unfold SQL.update_karma, SQL.done in H;
    repeat match type of H with
           | match ?c with _ => _ end = _ => destruct c eqn:?
           end;
    inversion H; subst; simpl; try assumption.
  - apply NoDup_snoc; [assumption|]. apply is_member_false. assumption.
  - apply NoDup_snoc; [assumption|]. apply is_member_false. assumption.
  - apply NoDup_filter. assumption.
Qed.

Lemma JoinSubreddit_calm : forall u c dm,
  calm dm ->
  JoinSubreddit u c dm
  = (None,
     mkDM (if is_member (db dm) c u then db dm
           else with_subreddit_members (db dm)
                  (subreddit_members (db dm) ++ [mkMember c u]))
          (tl (io dm))).
Proof.
  intros u c dm C. unfold JoinSubreddit, Exec.
  rewrite (calm_fails dm C). simpl. unfold is_member.
  destruct (existsb _ _); reflexivity.
Qed.

Lemma LeaveSubreddit_calm : forall u c dm,
  calm dm ->
  LeaveSubreddit u c dm
  = (None,
     mkDM (with_subreddit_members (db dm)
             (filter (fun m => negb (SQL.member_eqb (mkMember c u) m))
                     (subreddit_members (db dm))))
          (tl (io dm))).
Proof.
  intros u c dm C. unfold LeaveSubreddit, Exec.
  rewrite (calm_fails dm C). reflexivity.
Qed.

Lemma join_leave_errors : forall u c d,
  (fst (JoinSubreddit u c d) = None \/ fst (JoinSubreddit u c d) = Some SqliteIOErr)
  /\ (fst (LeaveSubreddit u c d) = None
      \/ fst (LeaveSubreddit u c d) = Some SqliteIOErr).
Proof.
  intros u c d. unfold JoinSubreddit, LeaveSubreddit, Exec.
  destruct (fails d); simpl; [split; right; reflexivity|].
  split; [|left; reflexivity].
  destruct (existsb _ _); left; reflexivity.
Qed.

(** C7.  When no driver call fails: joining returns no error and makes the
    user a member; joining again returns no error and leaves the store as the
    first join left it; joining as a member leaves the store as it is;
    leaving returns no error, and leaving without being a member leaves the
    store as it is.  Whatever the store, the only error that a join or a
    leave can return is the failure of the driver call.  In every store that
    the mutations can reach from the empty one, whatever driver calls fail,
    no membership row occurs twice. *)
Theorem join_leave_idempotent : forall u c dm,
  calm dm ->
  let joined := snd (JoinSubreddit u c dm) in
  fst (JoinSubreddit u c dm) = None
  /\ is_member (db joined) c u = true
  /\ fst (JoinSubreddit u c joined) = None
  /\ db (snd (JoinSubreddit u c joined)) = db joined
  /\ (is_member (db dm) c u = true -> db joined = db dm)
  /\ fst (LeaveSubreddit u c dm) = None
  /\ (is_member (db dm) c u = false -> db (snd (LeaveSubreddit u c dm)) = db dm)
  /\ (forall d,
        (fst (JoinSubreddit u c d) = None
         \/ fst (JoinSubreddit u c d) = Some SqliteIOErr)
        /\ (fst (LeaveSubreddit u c d) = None
            \/ fst (LeaveSubreddit u c d) = Some SqliteIOErr))
  /\ forall ms io, NoDup (subreddit_members (db (run ms (InitDatabase io)))).
Proof.
  intros u c dm C joined. subst joined.
  rewrite (JoinSubreddit_calm u c dm C). cbn [fst snd db].
  set (s1 := if is_member (db dm) c u then db dm
             else with_subreddit_members (db dm)
                    (subreddit_members (db dm) ++ [mkMember c u])).
  assert (M : is_member s1 c u = true).
  { subst s1. destruct (is_member (db dm) c u) eqn:E; [assumption|].
    apply is_member_In. simpl. apply in_or_app. right. left. reflexivity. }
  assert (C1 : calm (mkDM s1 (tl (io dm)))).
  { destruct dm as [s l]. eapply calm_tl. exact C. }
  rewrite (JoinSubreddit_calm u c _ C1). cbn [fst snd db]. rewrite M.
  rewrite (LeaveSubreddit_calm u c dm C). cbn [fst snd db].
  repeat split; try assumption.
  - intros E. subst s1. rewrite E. reflexivity.
  - intros E. unfold is_member in E.
    rewrite (filter_none _ _ _ E). apply with_subreddit_members_same.
  - apply join_leave_errors.
  - apply join_leave_errors.
  - intros ms io0. apply run_keeps.
    + intros q s r s' H. eapply exec_members_NoDup. exact H.
    + constructor.
Qed.

Lemma join_leave_idempotent_witness :
  fst (JoinSubreddit 2 1 go_post) = None
  /\ db (snd (JoinSubreddit 2 1 (snd (JoinSubreddit 2 1 go_post))))
     = db (snd (JoinSubreddit 2 1 go_post))
  /\ fst (LeaveSubreddit 2 1 go_post) = None
  /\ db (snd (LeaveSubreddit 2 1 go_post)) = db go_post.
Proof.
  assert (C : calm go_post) by constructor.
  pose proof (join_leave_idempotent 2 1 go_post C)
    as (H1 & _ & _ & H4 & _ & H6 & H7 & _ & _).
  exact (conj H1 (conj H4 (conj H6 (H7 eq_refl)))).
Defined.

(** ** The karma column and the other mutations *)

Lemma exec_users : forall fk q s r s',
  SQL.exec fk q s = inl (r, s') ->
  match q with
  | SQL.UpdateKarmaOfPostAuthor _ _
  | SQL.UpdateKarmaOfCommentAuthor _ _
  | SQL.DeleteFrom _ => True
  | SQL.InsertUser _ _ => users_kept s s'
  | _ => users s' = users s
  end.
Proof.
  intros fk q s r s' H. destruct q; try exact I; simpl in H;
    unfold SQL.done in H;
    repeat match type of H with
           | match ?c with _ => _ end = _ => destruct c eqn:?
           end;
    inversion H; subst; simpl; try reflexivity.
  right. do 3 eexists. reflexivity.
Qed.

Lemma Exec_users : forall q dm r e dm',
  Exec q dm = (r, e, dm') ->
  match q with
  | SQL.UpdateKarmaOfPostAuthor _ _
  | SQL.UpdateKarmaOfCommentAuthor _ _
  | SQL.DeleteFrom _ => True
  | SQL.InsertUser _ _ => users_kept (db dm) (db dm')
  | _ => users (db dm') = users (db dm)
  end.
Proof.
  intros q dm r e dm' H.
  destruct (Exec_cases q dm) as [[e' E]|(r' & s' & _ & Hq & E)];
    rewrite E in H; inversion H; subst; simpl.
  - destruct q; try exact I; try reflexivity. left. reflexivity.
  - exact (exec_users _ _ _ _ _ Hq).
Qed.

Lemma find_app_Some : forall (A : Type) (f : A -> bool) l l' x,
  find f l = Some x -> find f (l ++ l') = Some x.
Proof.
  intros A f l l' x. induction l as [|y l IH]; simpl; [discriminate|].
  destruct (f y); auto.
Qed.

Lemma users_kept_karma : forall s s',
  users_kept s s' ->
  forall uid k, karma_of s uid = Some k -> karma_of s' uid = Some k.
Proof.
  intros s s' [H|(id & n & p & H)] uid k; unfold karma_of; rewrite H; [auto|].
  destruct (find _ (users s)) eqn:F; [|discriminate].
  rewrite (find_app_Some _ _ _ _ _ F). auto.
Qed.

Lemma CreateSubreddit_users : forall name description creatorID dm,
  users (db (snd (CreateSubreddit name description creatorID dm))) = users (db dm).
Proof.
  intros name description creatorID dm.
  unfold CreateSubreddit, TxExec, Rollback, LastInsertId.
  destruct (Begin dm) as [[tx [e|]] dm0] eqn:B;
    apply Begin_eq in B; destruct B as [Hs Hd]; simpl; [congruence|].
  destruct (Exec _ dm0) as [[r1 [e1|]] dm1] eqn:E1; apply Exec_users in E1;
    simpl in *; [congruence|].
  destruct (Exec _ dm1) as [[r2 [e2|]] dm2] eqn:E2; apply Exec_users in E2;
    simpl in *; [congruence|].
  destruct (Commit tx dm2) as [e3 dm3] eqn:C.
  destruct (Commit_eq _ _ _ _ C) as [[_ H]|[_ H]]; simpl; rewrite H; congruence.
Qed.

(** C10.  A mutation that is neither a vote nor the reset keeps the users row
    by row, karma included; the one change it can make to the table is the
    new row of a registration, whose karma is 0.  So the karma that a user
    has before such a mutation is the karma the user has after it. *)
Theorem karma_frame : forall m dm,
  writes_karma m = false ->
  users_kept (db dm) (db (snd (apply m dm)))
  /\ forall uid k,
       karma_of (db dm) uid = Some k ->
       karma_of (db (snd (apply m dm))) uid = Some k.
Proof.
  intros m dm Hm.
  assert (K : users_kept (db dm) (db (snd (apply m dm)))).
  { destruct m; try discriminate Hm; simpl;
      try (pose proof (CreateSubreddit_users name description creatorID dm) as H;
           destruct (CreateSubreddit name description creatorID dm) as [[i e] d];
           left; exact H);
      unfold RegisterUser, JoinSubreddit, LeaveSubreddit, CreatePost,
             CreateComment, SendDirectMessage, SubscribeToUser,
             UnsubscribeFromUser;
      match goal with
      | |- context [Exec ?q ?d] =>
          let E := fresh "E" in
          destruct (Exec q d) as [[r [e|]] d'] eqn:E; apply Exec_users in E;
            simpl in *; try assumption; left; assumption
      end. }
  split; [exact K|]. apply users_kept_karma. exact K.
Qed.

Lemma karma_frame_witness :
  karma_of (db (snd (apply (MCreateComment "nice" 2 1 None) go_upvoted))) 1
  = Some 1.
Proof.
  apply (proj2 (karma_frame (MCreateComment "nice" 2 1 None) go_upvoted eq_refl)).
  reflexivity.
Defined.

(** ** The reset *)

Lemma delete_rows_tables : forall tx dm,
  match delete_rows tx tables dm with
  | (None, dm') =>
      db dm' = mkStore [] [] [] [] [] [] []
                 (user_subscriptions (db dm)) (sqlite_sequence (db dm))
  | (Some _, dm') => db dm' = snapshot tx
  end.
Proof.
  intros tx dm. unfold tables. cbn [delete_rows]. unfold TxExec, Rollback.
  repeat match goal with
         | |- context [Exec ?q ?d] =>
             let H := fresh "H" in
             destruct (Exec_cases q d) as [[? ->]|(? & ? & _ & H & ->)];
               [reflexivity|];
               simpl in H; inversion H; subst; clear H
         end.
  reflexivity.
Qed.

Lemma reset_sequences_tables : forall tx dm,
  match reset_sequences tx tables dm with
  | (None, dm') =>
      db dm' = with_sqlite_sequence (db dm)
                 (fold_left (fun sq t => SQL.seq_delete t sq) tables
                            (sqlite_sequence (db dm)))
  | (Some _, dm') => db dm' = snapshot tx
  end.
Proof.
  intros tx dm. unfold tables. cbn [reset_sequences]. unfold TxExec, Rollback.
  repeat match goal with
         | |- context [Exec ?q ?d] =>
             let H := fresh "H" in
             destruct (Exec_cases q d) as [[? ->]|(? & ? & _ & H & ->)];
               [reflexivity|];
               simpl in H; inversion H; subst; clear H
         end.
  reflexivity.
Qed.

(** What the reset does: committed, it has emptied the seven tables of its
    list and dropped their counters, and it has left the subscriptions as
    they were; failed, it has left everything as it was. *)
Lemma ResetDatabase_spec : forall dm,
  match ResetDatabase dm with
  | (None, dm') =>
      db dm' = mkStore [] [] [] [] [] [] []
                 (user_subscriptions (db dm))
                 (fold_left (fun sq t => SQL.seq_delete t sq) tables
                            (sqlite_sequence (db dm)))
  | (Some _, dm') => db dm' = db dm
  end.
Proof.
  intros dm. unfold ResetDatabase.
  destruct (Begin_cases dm) as [[e ->]|[_ ->]]; [reflexivity|].
  pose proof (delete_rows_tables (mkTx (db dm)) (tick dm)) as H1.
  destruct (delete_rows _ tables (tick dm)) as [[e1|] dm1]; [exact H1|].
  pose proof (reset_sequences_tables (mkTx (db dm)) dm1) as H2.
  destruct (reset_sequences _ tables dm1) as [[e2|] dm2]; [exact H2|].
  destruct (Commit_cases (mkTx (db dm)) dm2) as [[e ->]|[_ ->]]; [reflexivity|].
  simpl. rewrite H2, H1. reflexivity.
Qed.

Lemma seq_of_delete : forall n n' sq,
  SQL.seq_of n (SQL.seq_delete n' sq)
  = if String.eqb n n' then 0 else SQL.seq_of n sq.
Proof.
  intros n n' sq. unfold SQL.seq_of, SQL.seq_delete.
  induction sq as [|[k v] sq IH]; simpl.
  - destruct (String.eqb n n'); reflexivity.
  - destruct (String.eqb k n') eqn:E1; simpl.
    + rewrite IH. apply String.eqb_eq in E1. subst k.
      destruct (String.eqb n n') eqn:E2; [reflexivity|].
      rewrite String.eqb_sym, E2. reflexivity.
    + destruct (String.eqb k n) eqn:E2; simpl; [|exact IH].
      apply String.eqb_eq in E2. subst k. rewrite E1. reflexivity.
Qed.

(** After a committed reset every table of the list hands out id 1 again. *)
Lemma ResetDatabase_counters : forall dm t,
  fst (ResetDatabase dm) = None ->
  In t tables ->
  SQL.next_id t [] (db (snd (ResetDatabase dm))) = Some 1.
Proof.
  intros dm t Hok Hin. pose proof (ResetDatabase_spec dm) as H.
  destruct (ResetDatabase dm) as [[e|] dm']; simpl in *; [discriminate|].
  rewrite H. unfold SQL.next_id. cbn [sqlite_sequence fold_left tables].
  assert (Z : SQL.seq_of t
                (fold_left (fun sq t0 => SQL.seq_delete t0 sq) tables
                           (sqlite_sequence (db dm))) = 0).
  { unfold tables in *. cbn [fold_left]. rewrite !seq_of_delete.
    simpl in Hin.
    repeat (destruct Hin as [<-|Hin]; [reflexivity|]). contradiction. }
  unfold tables in Z. cbn [fold_left] in Z. rewrite Z. reflexivity.
Qed.

(** C2, on the code: Bob has subscribed to Alice; the reset commits, and the
    subscription is still there. *)
Theorem ResetDatabase_leaves_subscriptions :
  user_subscriptions (db go_subscribed) = [mkSubscription 2 1]
  /\ ResetDatabase go_subscribed
     = (None, mkDM (mkStore [] [] [] [] [] [] [] [mkSubscription 2 1] []) []).
Proof. vm_compute. split; reflexivity. Qed.

(** ** Comments and their parents *)

(** With the pragma on, the engine would refuse a comment under a parent
    that is not there. *)
Lemma InsertComment_checked_when_pragma_on : forall content author post parent s,
  SQL.has_id (SQL.comment_ids s) parent = false ->
  SQL.next_id "comments" (SQL.comment_ids s) s <> Some parent ->
  exists e, SQL.exec true (SQL.InsertComment content author post (Some parent)) s
            = inr e.
Proof.
  intros content author post parent s Hno Hself. simpl.
  destruct (SQL.next_id "comments" (SQL.comment_ids s) s) as [id|];
    [|eauto].
  assert (E : (parent =? id) = false).
  { apply Z.eqb_neq. intros ->. apply Hself. reflexivity. }
  unfold SQL.has_id in *. simpl. rewrite E, Hno.
  rewrite !andb_false_r. simpl. eauto.
Qed.

(** C9, on the code: there is no comment 42 and no post 99; Bob's comment
    under comment 42 of post 1 is inserted, and so is his comment on
    post 99, and so is a first comment that names itself as its parent. *)
Theorem CreateComment_without_parent_or_post :
  SQL.comment_ids (db go_post) = [] /\ SQL.post_ids (db go_post) = [1]
  /\ fst (CreateComment "reply" 2 1 (Some 42) go_post) = (1, None)
  /\ comments (db (snd (CreateComment "reply" 2 1 (Some 42) go_post)))
     = [mkComment 1 "reply" 2 (Some 1) (Some 42)]
  /\ fst (CreateComment "lost" 2 99 None go_post) = (1, None)
  /\ comments (db (snd (CreateComment "lost" 2 99 None go_post)))
     = [mkComment 1 "lost" 2 (Some 99) None]
  /\ fst (CreateComment "loop" 2 1 (Some 1) go_post) = (1, None)
  /\ comments (db (snd (CreateComment "loop" 2 1 (Some 1) go_post)))
     = [mkComment 1 "loop" 2 (Some 1) (Some 1)].
Proof. vm_compute. repeat split. Qed.

(** ** The pool and its workers *)

Lemma nth_error_replace_nth : forall (A : Type) (l : list A) n x,
  (n < List.length l)%nat -> nth_error (replace_nth n x l) n = Some x.
Proof.
  intros A l. induction l as [|h t IH]; intros n x H; simpl in *; [lia|].
  destruct n; simpl; [reflexivity|]. apply IH. lia.
Qed.

Lemma nth_error_replace_nth_other : forall (A : Type) (l : list A) n m x,
  n <> m -> nth_error (replace_nth n x l) m = nth_error l m.
Proof.
  intros A l. induction l as [|h t IH]; intros n m x H; simpl; [reflexivity|].
  destruct n, m; simpl; try reflexivity; try congruence.
  apply IH. congruence.
Qed.

Lemma length_replace_nth : forall (A : Type) (l : list A) n x,
  List.length (replace_nth n x l) = List.length l.
Proof.
  intros A l. induction l as [|h t IH]; intros n x; simpl; [reflexivity|].
  destruct n; simpl; [reflexivity|]. rewrite IH. reflexivity.
Qed.

Lemma map_replace_nth : forall (A B : Type) (f : A -> B) l n x y,
  nth_error l n = Some y -> f x = f y ->
  map f (replace_nth n x l) = map f l.
Proof.
  intros A B f l. induction l as [|h t IH]; intros n x y H E; simpl; [reflexivity|].
  destruct n; simpl in *.
  - inversion H; subst. rewrite E. reflexivity.
  - rewrite (IH n x y H E). reflexivity.
Qed.

Lemma spawn_workers_spec : forall n i pool w,
  spawn_workers n i pool w
  = (mkPool (actors pool ++ seq (List.length (processes w)) n) (roundRobin pool),
     with_processes w
       (processes w
        ++ map (fun k => mkProcess (mkActor (i + Z.of_nat k)) [Started]) (seq 0 n))).
Proof.
  induction n as [|n IH]; intros i pool w; simpl.
  - rewrite !app_nil_r. destruct pool, w; reflexivity.
  - rewrite IH. simpl. rewrite length_app. simpl.
    rewrite <- !app_assoc. simpl.
    replace (List.length (processes w) + 1)%nat with (S (List.length (processes w)))
      by lia.
    rewrite Z.add_0_r, <- (seq_shift n 0), map_map.
    unfold with_processes. simpl. do 4 f_equal.
    apply map_ext. intros k. do 2 f_equal. lia.
Qed.

Lemma start_pool : forall N dm sys,
  1 <= N -> start N dm = Some sys ->
  pool_of (Z.to_nat N) sys /\ chans (sys_world sys) = []
  /\ flat_map mailbox (processes (sys_world sys))
     = map (fun _ => Started) (seq 0 (Z.to_nat N)).
Proof.
  intros N dm sys HN H. unfold start, NewActorPool in H.
  destruct (N <? 0) eqn:E; [apply Z.ltb_lt in E; lia|].
  rewrite spawn_workers_spec in H. inversion H; subst; clear H.
  unfold pool_of. simpl. rewrite map_map. simpl.
  repeat split; try lia.
  generalize (seq 0 (Z.to_nat N)). intros l.
  induction l as [|k l IH]; simpl; [reflexivity|]. rewrite IH. reflexivity.
Qed.

Lemma index_seq : forall n i,
  0 <= i < Z.of_nat n -> index (seq 0 n) i = Some (Z.to_nat i).
Proof.
  intros n i H. unfold index, len. rewrite length_seq.
  replace (0 <=? i) with true by (symmetry; apply Z.leb_le; lia).
  replace (i <? Z.of_nat n) with true by (symmetry; apply Z.ltb_lt; lia).
  simpl. rewrite nth_error_nth' with (d := O) by (rewrite length_seq; lia).
  rewrite seq_nth by lia. reflexivity.
Qed.

(** The handlers touch the store, the log and the responses, nothing else. *)
Lemma process_frame : forall a msg w,
  processes (snd (process a msg w)) = processes w
  /\ chans (snd (process a msg w)) = chans w.
Proof.
  intros a msg w. unfold process.
  repeat match goal with
         | |- context [if ?c then _ else _] => destruct c
         end;
    unfold processCreatePost, processCreateComment, processSendMessage,
           processJoinSubreddit, processCreateSubreddit, processVote,
           processLeaveSubreddit;
    destruct (req_Payload msg); simpl; try (split; reflexivity);
    match goal with
    | |- context [match ?x with _ => _ end] => destruct x as [[? [?|]] ?]
    | |- context [match ?x with _ => _ end] => destruct x as [[?|] ?]
    end; simpl; split; reflexivity.
Qed.

Lemma chan_send_processes : forall c v w w',
  chan_send c v w = Some w' -> processes w' = processes w.
Proof.
  intros c v w w' H. unfold chan_send in H.
  destruct (nth_error (chans w) c); [|discriminate].
  destruct (_ <? _)%nat; inversion H; reflexivity.
Qed.

Lemma chan_recv_processes : forall c w v w',
  chan_recv c w = Some (v, w') -> processes w' = processes w.
Proof.
  intros c w v w' H. unfold chan_recv in H.
  destruct (nth_error (chans w) c) as [ch|]; [|discriminate].
  destruct (buffer ch); inversion H; reflexivity.
Qed.

Lemma Receive_processes : forall a m w w',
  Receive a m w = Some w' -> processes w' = processes w.
Proof.
  intros a m w w' H. destruct m as [|msg]; simpl in H.
  - inversion H. reflexivity.
  - destruct (process_frame a msg (Printf (a_id a) (req_Type msg) w)) as [Hp _].
    destruct (process a msg _) as [[e|] w1]; simpl in Hp;
      apply chan_send_processes in H; rewrite H, Hp; reflexivity.
Qed.

Lemma Send_actors : forall pid m w,
  map proc_actor (processes (Send pid m w)) = map proc_actor (processes w).
Proof.
  intros pid m w. unfold Send.
  destruct (nth_error (processes w) pid) as [p|] eqn:E; [|reflexivity].
  simpl. eapply map_replace_nth; [exact E|reflexivity].
Qed.

Lemma deliver_actors : forall pid w w',
  deliver pid w = Some w' ->
  map proc_actor (processes w') = map proc_actor (processes w).
Proof.
  intros pid w w' H. unfold deliver in H.
  destruct (nth_error (processes w) pid) as [p|] eqn:E; [|discriminate].
  destruct (mailbox p) as [|m rest]; [discriminate|].
  apply Receive_processes in H. rewrite H. simpl.
  eapply map_replace_nth; [exact E|reflexivity].
Qed.

Lemma act_pool_of : forall n a sys e sys',
  pool_of n sys -> act a sys = Some (e, sys') ->
  pool_of n sys'
  /\ match e with
     | Submitted i pid c =>
         i = roundRobin (sys_pool sys) /\ pid = Z.to_nat i
         /\ roundRobin (sys_pool sys') = (i + 1) mod Z.of_nat n
     | _ => roundRobin (sys_pool sys') = roundRobin (sys_pool sys)
     end.
Proof.
  intros n a [p w] e sys' (Ha & Hw & Hr) H. simpl in *.
  destruct a as [ty pl ctx|pid|c|m]; cbn [act sys_pool sys_world] in H.
  - unfold ProcessRequest_submit, PID in H. rewrite Ha in H.
    rewrite (index_seq n _ Hr) in H. simpl in H.
    inversion H; subst; clear H. unfold pool_of. simpl.
    unfold len. rewrite length_seq.
    rewrite Z.rem_mod_nonneg by lia.
    repeat split; try assumption.
    + rewrite Send_actors. simpl. assumption.
    + apply Z.mod_pos_bound. lia.
    + apply Z.mod_pos_bound. lia.
  - destruct (deliver pid w) as [w'|] eqn:D; [|discriminate].
    inversion H; subst; clear H. unfold pool_of. simpl.
    rewrite (deliver_actors _ _ _ D). repeat split; try assumption; lia.
  - destruct (chan_recv c w) as [[v w']|] eqn:D; [|discriminate].
    inversion H; subst; clear H. unfold pool_of. simpl.
    rewrite (chan_recv_processes _ _ _ _ D). repeat split; try assumption; lia.
  - inversion H; subst; clear H. unfold pool_of. simpl.
    repeat split; try assumption; lia.
Qed.

Lemma replay_round_robin : forall acts n sys tr sys',
  pool_of n sys -> replay acts sys = Some (tr, sys') ->
  pool_of n sys'
  /\ assignments tr
     = map (fun k => (roundRobin (sys_pool sys) + Z.of_nat k) mod Z.of_nat n)
           (seq 0 (List.length (assignments tr)))
  /\ forall i pid c, In (Submitted i pid c) tr ->
       pid = Z.to_nat i /\ 0 <= i < Z.of_nat n.
Proof.
  induction acts as [|a acts IH]; intros n sys tr sys' P H; simpl in H.
  - inversion H; subst. simpl. split; [assumption|]. split; [reflexivity|].
    intros i pid c [].
  - destruct (act a sys) as [[e sys1]|] eqn:A; [|discriminate].
    destruct (replay acts sys1) as [[es sys2]|] eqn:R; [|discriminate].
    inversion H; subst; clear H.
    destruct (act_pool_of n a sys e sys1 P A) as [P1 He].
    destruct (IH n sys1 es sys' P1 R) as (P2 & Has & Hin).
    split; [exact P2|].
    destruct P as (_ & _ & Hr).
    destruct e as [i pid c|pid|c v|m]; simpl in *.
    + destruct He as (-> & -> & Hr1). split.
      * f_equal; [rewrite Z.add_0_r, Z.mod_small by lia; reflexivity|].
        rewrite Has at 1. rewrite <- seq_shift, map_map, Hr1.
        apply map_ext. intros k.
        rewrite Zplus_mod_idemp_l. f_equal. lia.
      * intros i' pid' c' [E|E]; [inversion E; subst; split; [reflexivity|lia]|].
        eapply Hin; eassumption.
    + rewrite <- He. split; [exact Has|].
      intros i' pid' c' [E|E]; [discriminate|eapply Hin; eassumption].
    + rewrite <- He. split; [exact Has|].
      intros i' pid' c' [E|E]; [discriminate|eapply Hin; eassumption].
    + rewrite <- He. split; [exact Has|].
      intros i' pid' c' [E|E]; [discriminate|eapply Hin; eassumption].
Qed.

(** C4.  A pool of [N >= 1] workers, fresh from [NewActorPool]; any schedule
    in which callers submit requests of any kind, workers take messages when
    they get to it, callers read their results and other handlers change the
    store.  The k-th submission, counted from 0, selects index [k mod N];
    the worker at that index has that number as its id; and a submission
    never finds the pool without a worker to select. *)
Theorem round_robin_assignment : forall N dm sys0 acts tr sys,
  1 <= N ->
  start N dm = Some sys0 ->
  replay acts sys0 = Some (tr, sys) ->
  assignments tr
  = map (fun k => Z.of_nat k mod N) (seq 0 (List.length (assignments tr)))
  /\ (forall i pid c, In (Submitted i pid c) tr ->
        exists pr, nth_error (processes (sys_world sys)) pid = Some pr
                   /\ a_id (proc_actor pr) = i)
  /\ (forall ty pl ctx, act (Submit ty pl ctx) sys <> None).
Proof.
  intros N dm sys0 acts tr sys HN Hs Hr.
  destruct (start_pool N dm sys0 HN Hs) as (P0 & _ & _).
  assert (R0 : roundRobin (sys_pool sys0) = 0).
  { unfold start, NewActorPool in Hs.
    destruct (N <? 0); [discriminate|].
    rewrite spawn_workers_spec in Hs. inversion Hs. reflexivity. }
  destruct (replay_round_robin acts _ sys0 tr sys P0 Hr) as (P & Has & Hin).
  rewrite R0, Z2Nat.id in Has by lia.
  split; [exact Has|]. split.
  - intros i pid c H. destruct (Hin i pid c H) as [-> Hi].
    destruct P as (_ & Hw & _).
    assert (L : (Z.to_nat i < Z.to_nat N)%nat) by lia.
    assert (E : nth_error (map proc_actor (processes (sys_world sys))) (Z.to_nat i)
                = Some (mkActor i)).
    { rewrite Hw. rewrite nth_error_map.
      rewrite nth_error_nth' with (d := O) by (rewrite length_seq; exact L).
      rewrite seq_nth by exact L. simpl. rewrite Z2Nat.id by lia. reflexivity. }
    rewrite nth_error_map in E.
    destruct (nth_error (processes (sys_world sys)) (Z.to_nat i)) as [pr|];
      [|discriminate].
    exists pr. split; [reflexivity|]. simpl in E. inversion E as [E'].
    rewrite E'. reflexivity.
  - intros ty pl ctx. destruct sys as [p w]. destruct P as (Ha & _ & Hrr).
    simpl in *. unfold ProcessRequest_submit, PID. rewrite Ha.
    rewrite (index_seq _ _ Hrr). simpl. discriminate.
Qed.

(** ** Completion channels *)

Lemma chan_send_inv : forall c v w w',
  chan_send c v w = Some w' ->
  exists ch, nth_error (chans w) c = Some ch
    /\ (List.length (buffer ch) < capacity ch)%nat
    /\ w' = with_chans w
              (replace_nth c (mkChan (capacity ch) (buffer ch ++ [v]) (S (sent ch)))
                           (chans w)).
Proof.
  intros c v w w' H. unfold chan_send in H.
  destruct (nth_error (chans w) c) as [ch|]; [|discriminate].
  destruct (_ <? _)%nat eqn:E; [|discriminate].
  apply Nat.ltb_lt in E. inversion H. eauto.
Qed.




















(** ** A request from submission to result *)

Lemma replace_nth_same : forall (A : Type) (l : list A) n x,
  nth_error l n = Some x -> replace_nth n x l = l.
Proof.
  intros A l. induction l as [|h t IH]; intros n x H; [reflexivity|].
  destruct n; simpl in *.
  - inversion H. reflexivity.
  - rewrite (IH n x H). reflexivity.
Qed.

Lemma replace_nth_twice : forall (A : Type) (l : list A) n x y,
  replace_nth n x (replace_nth n y l) = replace_nth n x l.
Proof.
  intros A l. induction l as [|h t IH]; intros n x y; [reflexivity|].
  destruct n; simpl; [reflexivity|]. rewrite IH. reflexivity.
Qed.





Lemma round_robin_assignment_witness :
  start 3 (InitDatabase []) = Some pool_of_three
  /\ replay some_schedule pool_of_three = Some (fst some_run, snd some_run)
  /\ assignments (fst some_run) = [0; 1; 2; 0]
  /\ assignments (fst some_run)
     = map (fun k => Z.of_nat k mod 3)
           (seq 0 (List.length (assignments (fst some_run)))).
Proof.
  assert (Hs : start 3 (InitDatabase []) = Some pool_of_three)
    by (vm_compute; reflexivity).
  assert (Hr : replay some_schedule pool_of_three
               = Some (fst some_run, snd some_run))
    by (vm_compute; reflexivity).
  split; [exact Hs|]. split; [exact Hr|].
  split; [vm_compute; reflexivity|].
  exact (proj1 (round_robin_assignment 3 (InitDatabase []) pool_of_three
                  some_schedule (fst some_run) (snd some_run)
                  (proj1 (Z.leb_le 1 3) eq_refl) Hs Hr)).
Defined.

(** ** The scenario of the design notes

    Whichever vote lands first, the community is there with its founder as
    its member, and the author of post 7 has gained 2. *)
Example scenario_either_order :
  option_map votes (scenario [ Work 0; Work 0; Work 0; Work 1; Work 1 ]%nat)
    = Some [ mkVote 3 7 "post" 1; mkVote 2 7 "post" 1 ]
  /\ option_map votes (scenario [ Work 1; Work 1; Work 0; Work 0; Work 0 ]%nat)
    = Some [ mkVote 2 7 "post" 1; mkVote 3 7 "post" 1 ]
  /\ forall order,
       order = [ Work 0; Work 0; Work 0; Work 1; Work 1 ]%nat
       \/ order = [ Work 1; Work 1; Work 0; Work 0; Work 0 ]%nat ->
       option_map subreddits (scenario order) = Some [ mkSubreddit 1 "go" "desc" ]
       /\ option_map subreddit_members (scenario order) = Some [ mkMember 1 1 ]
       /\ option_map (fun s => karma_of s 1) (scenario order) = Some (Some 2).
Proof.
  split; [vm_compute; reflexivity|]. split; [vm_compute; reflexivity|].
  intros order [->| ->]; vm_compute; repeat split.
Qed.

(** ** Registration and lookup *)

Lemma largest_ge : forall ids x, In x ids -> x <= SQL.largest ids.
Proof.
  induction ids as [|y ids IH]; intros x H; [contradiction|].
  unfold SQL.largest in *. simpl. destruct H as [->|H]; [lia|].
  specialize (IH x H). lia.
Qed.

Lemma largest_nonneg : forall ids, 0 <= SQL.largest ids.
Proof.
  induction ids as [|y ids IH]; unfold SQL.largest in *; simpl; lia.
Qed.

Lemma next_id_fresh : forall name ids s id,
  SQL.next_id name ids s = Some id ->
  0 < id /\ forall x, In x ids -> x < id.
Proof.
  intros name ids s id H. unfold SQL.next_id in H.
  destruct (SQL.max_rowid <=? _); [discriminate|]. inversion H; subst; clear H.
  pose proof (largest_nonneg ids). split; [lia|].
  intros x Hx. pose proof (largest_ge ids x Hx). lia.
Qed.

Lemma exec_InsertUser : forall fk username password s r s',
  SQL.exec fk (SQL.InsertUser username password) s = inl (r, s') ->
  SQL.next_id "users" (SQL.user_ids s) s = Some (SQL.LastInsertId r)
  /\ existsb (fun u => String.eqb (u_username u) username) (users s) = false
  /\ s' = SQL.bump "users" (SQL.LastInsertId r)
            (with_users s
               (users s ++ [mkUser (SQL.LastInsertId r) username password 0])).
Proof.
  intros fk username password s r s' H. simpl in H.
  destruct (SQL.next_id _ _ _) as [id|]; [|discriminate].
  destruct (existsb _ _); [discriminate|].
  inversion H; subst; clear H. repeat split.
Qed.

Lemma existsb_username_false : forall name us,
  existsb (fun u => String.eqb (u_username u) name) us = false ->
  forall u, In u us -> u_username u <> name.
Proof.
  intros name us H u Hin E.
  assert (X : existsb (fun u => String.eqb (u_username u) name) us = true).
  { apply existsb_exists. exists u. split; [assumption|].
    apply String.eqb_eq. assumption. }
  congruence.
Qed.

Lemma RegisterUser_cases : forall username password dm,
  match RegisterUser username password dm with
  | (id, None, dm') =>
      users (db dm') = users (db dm) ++ [mkUser id username password 0]
      /\ 0 < id
      /\ (forall u, In u (users (db dm)) -> u_id u < id /\ u_username u <> username)
      /\ subreddits (db dm') = subreddits (db dm)
      /\ subreddit_members (db dm') = subreddit_members (db dm)
      /\ posts (db dm') = posts (db dm)
      /\ comments (db dm') = comments (db dm)
      /\ votes (db dm') = votes (db dm)
      /\ direct_messages (db dm') = direct_messages (db dm)
      /\ user_subscriptions (db dm') = user_subscriptions (db dm)
  | (id, Some _, dm') => id = 0 /\ db dm' = db dm
  end.
Proof.
  intros username password dm. unfold RegisterUser.
  destruct (Exec_cases (SQL.InsertUser username password) dm)
    as [[e ->]|(r & s1 & _ & H1 & ->)]; [split; reflexivity|].
  apply exec_InsertUser in H1. destruct H1 as (Hid & Hname & ->).
  destruct (next_id_fresh _ _ _ _ Hid) as [Hpos Hfresh].
  simpl. repeat split; try assumption.
  - apply Hfresh. unfold SQL.user_ids. apply in_map. assumption.
  - eapply existsb_username_false; eassumption.
Qed.

Lemma RegisterUser_calm : forall username password dm,
  calm dm ->
  existsb (fun u => String.eqb (u_username u) username) (users (db dm)) = false ->
  SQL.next_id "users" (SQL.user_ids (db dm)) (db dm) <> None ->
  snd (fst (RegisterUser username password dm)) = None.
Proof.
  intros username password dm C Hname Hfull. unfold RegisterUser, Exec.
  rewrite (calm_fails dm C). simpl.
  destruct (SQL.next_id "users" (SQL.user_ids (db dm)) (db dm)); [|congruence].
  rewrite Hname. reflexivity.
Qed.

(** X1.  [RegisterUser], whatever the driver does: when it returns no error
    it has appended one user with the given name and password and karma 0,
    under an id that is positive and larger than every id in the table, no
    user had the name, and no other table has changed; when it returns an
    error the id is 0 and the store is as it was.  When no driver call fails,
    the name is free and the ids are not exhausted, it returns no error. *)
Theorem RegisterUser_spec : forall username password dm,
  match RegisterUser username password dm with
  | (id, None, dm') =>
      users (db dm') = users (db dm) ++ [mkUser id username password 0]
      /\ 0 < id
      /\ (forall u, In u (users (db dm)) -> u_id u < id /\ u_username u <> username)
      /\ subreddits (db dm') = subreddits (db dm)
      /\ subreddit_members (db dm') = subreddit_members (db dm)
      /\ posts (db dm') = posts (db dm)
      /\ comments (db dm') = comments (db dm)
      /\ votes (db dm') = votes (db dm)
      /\ direct_messages (db dm') = direct_messages (db dm)
      /\ user_subscriptions (db dm') = user_subscriptions (db dm)
  | (id, Some _, dm') => id = 0 /\ db dm' = db dm
  end
  /\ (calm dm ->
      existsb (fun u => String.eqb (u_username u) username) (users (db dm)) = false ->
      SQL.next_id "users" (SQL.user_ids (db dm)) (db dm) <> None ->
      snd (fst (RegisterUser username password dm)) = None).
Proof.
  intros username password dm. split.
  - apply RegisterUser_cases.
  - apply RegisterUser_calm.
Qed.

Lemma RegisterUser_spec_witness :
  snd (fst (RegisterUser "carol" "pw" go_post)) = None.
Proof.
  pose proof (RegisterUser_spec "carol" "pw" go_post) as [_ H].
  apply H.
  - vm_compute. constructor.
  - vm_compute. reflexivity.
  - vm_compute. discriminate.
Defined.

Lemma find_app_None : forall (A : Type) (f : A -> bool) l l',
  find f l = None -> find f (l ++ l') = find f l'.
Proof.
  intros A f l l'. induction l as [|y l IH]; simpl; [reflexivity|].
  destruct (f y); [discriminate|]. exact IH.
Qed.

Lemma find_username_None : forall name us,
  existsb (fun u => String.eqb (u_username u) name) us = false ->
  find (fun u => String.eqb (u_username u) name) us = None.
Proof.
  intros name us. induction us as [|u us IH]; simpl; [reflexivity|].
  destruct (String.eqb (u_username u) name); simpl; [discriminate|]. exact IH.
Qed.

(** X2.  Registration and lookup: right after a registration that returned
    no error, a lookup of the name that meets no driver failure finds the new
    user, with the returned id and karma 0; and a lookup of a name that no
    user has returns no user and the no-rows error, in any store. *)
Theorem GetUserByUsername_after_RegisterUser : forall username password dm,
  let registered := RegisterUser username password dm in
  (snd (fst registered) = None ->
   fails (snd registered) = false ->
   fst (GetUserByUsername username (snd registered))
   = (Some (mkUserView (fst (fst registered)) username 0), None))
  /\ (forall d,
        fails d = false ->
        existsb (fun u => String.eqb (u_username u) username) (users (db d)) = false ->
        fst (GetUserByUsername username d)
        = (None, Some (Errorf "user not found"
                         (ErrorMsg "sql: no rows in result set")))).
Proof.
  intros username password dm registered. subst registered. split.
  - intros Hok Hf. unfold GetUserByUsername. rewrite Hf.
    revert Hok. unfold RegisterUser.
    destruct (Exec_cases (SQL.InsertUser username password) dm)
      as [[e ->]|(r & s1 & _ & H1 & ->)]; [discriminate|].
    intros _. apply exec_InsertUser in H1. destruct H1 as (_ & Hname & ->).
    simpl. rewrite (find_app_None _ _ _ _ (find_username_None _ _ Hname)).
    simpl. rewrite String.eqb_refl. reflexivity.
  - intros d Hf Hname. unfold GetUserByUsername.
    rewrite Hf, (find_username_None _ _ Hname). reflexivity.
Qed.

Lemma GetUserByUsername_after_RegisterUser_witness :
  fst (GetUserByUsername "carol" (snd (RegisterUser "carol" "pw" go_post)))
  = (Some (mkUserView (fst (fst (RegisterUser "carol" "pw" go_post))) "carol" 0),
     None)
  /\ fst (GetUserByUsername "dave" go_post)
     = (None, Some (Errorf "user not found"
                      (ErrorMsg "sql: no rows in result set"))).
Proof.
  pose proof (GetUserByUsername_after_RegisterUser "carol" "pw" go_post)
    as [H1 _].
  pose proof (GetUserByUsername_after_RegisterUser "dave" "pw" go_post)
    as [_ H2].
  split.
  - apply H1; vm_compute; reflexivity.
  - apply H2; vm_compute; reflexivity.
Defined.

(** ** Keys and constraints in the stores that can be reached *)

Lemma NoDup_map_snoc : forall (A B : Type) (f : A -> B) l x,
  NoDup (map f l) -> ~ In (f x) (map f l) -> NoDup (map f (l ++ [x])).
Proof.
  intros A B f l x N H. rewrite map_app. simpl. apply NoDup_snoc; assumption.
Qed.

Lemma next_id_not_in : forall name ids s id,
  SQL.next_id name ids s = Some id -> ~ In id ids.
Proof.
  intros name ids s id H Hin.
  destruct (next_id_fresh _ _ _ _ H) as [_ F]. specialize (F id Hin). lia.
Qed.

Lemma username_not_in : forall name us,
  existsb (fun u => String.eqb (u_username u) name) us = false ->
  ~ In name (map u_username us).
Proof.
  intros name us H Hin. apply in_map_iff in Hin. destruct Hin as (u & E & Hu).
  exact (existsb_username_false name us H u Hu E).
Qed.

Lemma subreddit_name_not_in : forall name rs,
  existsb (fun r => String.eqb (sr_name r) name) rs = false ->
  ~ In name (map sr_name rs).
Proof.
  intros name rs H Hin. apply in_map_iff in Hin. destruct Hin as (r & E & Hr).
  assert (X : existsb (fun r => String.eqb (sr_name r) name) rs = true).
  { apply existsb_exists. exists r. split; [assumption|].
    apply String.eqb_eq. assumption. }
  congruence.
Qed.

Lemma vote_eqb_eq : forall a b, SQL.vote_eqb a b = true <-> a = b.
Proof.
  intros [a1 a2 a3 a4] [b1 b2 b3 b4]. unfold SQL.vote_eqb. simpl.
  rewrite !andb_true_iff, !Z.eqb_eq, String.eqb_eq. split.
  - intros [[[-> ->] ->] ->]. reflexivity.
  - intros H. inversion H. repeat split.
Qed.

Lemma subscription_eqb_eq : forall a b, SQL.subscription_eqb a b = true <-> a = b.
Proof.
  intros [a1 a2] [b1 b2]. unfold SQL.subscription_eqb. simpl.
  rewrite andb_true_iff, !Z.eqb_eq. split.
  - intros [-> ->]. reflexivity.
  - intros H. inversion H. split; reflexivity.
Qed.

Lemma existsb_eqb_false : forall (A : Type) (eqb : A -> A -> bool) x l,
  (forall a b, eqb a b = true <-> a = b) ->
  existsb (eqb x) l = false -> ~ In x l.
Proof.
  intros A eqb x l R H Hin.
  assert (X : existsb (eqb x) l = true).
  { apply existsb_exists. exists x. split; [assumption|]. apply R. reflexivity. }
  congruence.
Qed.

Lemma add_karma_ids : forall a d us, map u_id (SQL.add_karma a d us) = map u_id us.
Proof.
  intros a d us. unfold SQL.add_karma. rewrite map_map. apply map_ext.
  intros u. destruct (u_id u =? a); reflexivity.
Qed.

Lemma add_karma_names : forall a d us,
  map u_username (SQL.add_karma a d us) = map u_username us.
Proof.
  intros a d us. unfold SQL.add_karma. rewrite map_map. apply map_ext.
  intros u. destruct (u_id u =? a); reflexivity.
Qed.

Lemma delete_from_keys_ok : forall fk table s r s',
  SQL.delete_from fk table s = inl (r, s') -> keys_ok s -> keys_ok s'.
Proof.
  intros fk table s r s' H K. unfold SQL.delete_from, SQL.done in H.
  destruct K as (K1 & K2 & K3 & K4 & K5 & K6 & K7 & K8 & K9 & K10 & K11).
  repeat match type of H with
         | (if ?c then _ else _) = _ => destruct c
         end;
    inversion H; subst; clear H; unfold keys_ok; simpl;
    repeat split; try assumption; constructor.
Qed.

Lemma exec_keys_ok : forall q s r s',
  SQL.exec foreign_keys q s = inl (r, s') -> keys_ok s -> keys_ok s'.
Proof.
  intros q s r s' H K.
  destruct q; try (eapply delete_from_keys_ok; eassumption);
    destruct K as (K1 & K2 & K3 & K4 & K5 & K6 & K7 & K8 & K9 & K10 & K11);
    pose proof H as H0; simpl in H; unfold SQL.update_karma, SQL.done in H.
  - destruct (SQL.next_id _ _ _) as [id|] eqn:N; [|discriminate].
    destruct (existsb _ _) eqn:E; [discriminate|].
    inversion H; subst; clear H. unfold keys_ok. simpl.
    repeat split; try assumption.
    + apply NoDup_map_snoc; [assumption|]. eapply next_id_not_in. exact N.
    + apply NoDup_map_snoc; [assumption|]. apply username_not_in. exact E.
  - destruct (SQL.next_id _ _ _) as [id|] eqn:N; [|discriminate].
    destruct (existsb _ _) eqn:E; [discriminate|].
    inversion H; subst; clear H. unfold keys_ok. simpl.
    repeat split; try assumption.
    + apply NoDup_map_snoc; [assumption|]. eapply next_id_not_in. exact N.
    + apply NoDup_map_snoc; [assumption|]. apply subreddit_name_not_in. exact E.
  - destruct (existsb _ _) eqn:E; [discriminate|].
    inversion H; subst; clear H. unfold keys_ok. simpl.
    repeat split; try assumption.
    apply NoDup_snoc; [assumption|].
    eapply existsb_eqb_false; [apply member_eqb_eq|exact E].
  - destruct (existsb _ _) eqn:E.
    + inversion H; subst; clear H. unfold keys_ok. repeat split; assumption.
    + inversion H; subst; clear H. unfold keys_ok. simpl.
      repeat split; try assumption.
      apply NoDup_snoc; [assumption|].
      eapply existsb_eqb_false; [apply member_eqb_eq|exact E].
  - inversion H; subst; clear H. unfold keys_ok. simpl.
    repeat split; try assumption. apply NoDup_filter. assumption.
  - destruct (SQL.next_id _ _ _) as [id|] eqn:N; [|discriminate].
    inversion H; subst; clear H. unfold keys_ok. simpl.
    repeat split; try assumption.
    apply NoDup_map_snoc; [assumption|]. eapply next_id_not_in. exact N.
  - pose proof (exec_InsertVote _ _ _ _ _ _ _ _ H0) as (Hty & Hv & Hnew & ->).
    unfold keys_ok. simpl. repeat split; try assumption.
    + apply NoDup_snoc; [assumption|].
      eapply existsb_eqb_false; [apply vote_eqb_eq|exact Hnew].
    + apply Forall_app. split; [assumption|]. constructor; [|constructor].
      split; simpl; [|exact Hv].
      apply orb_true_iff in Hty. rewrite !String.eqb_eq in Hty. exact Hty.
  - destruct (SQL.author_of_post s target_id);
      inversion H; subst; clear H; unfold keys_ok; simpl;
      rewrite ?add_karma_ids, ?add_karma_names; repeat split; assumption.
  - destruct (SQL.author_of_comment s target_id);
      inversion H; subst; clear H; unfold keys_ok; simpl;
      rewrite ?add_karma_ids, ?add_karma_names; repeat split; assumption.
  - destruct (SQL.next_id _ _ _) as [id|] eqn:N; [|discriminate].
    inversion H; subst; clear H. unfold keys_ok. simpl.
    repeat split; try assumption.
    apply NoDup_map_snoc; [assumption|]. eapply next_id_not_in. exact N.
  - destruct (SQL.next_id _ _ _) as [id|] eqn:N; [|discriminate].
    inversion H; subst; clear H. unfold keys_ok. simpl.
    repeat split; try assumption.
    apply NoDup_map_snoc; [assumption|]. eapply next_id_not_in. exact N.
  - destruct (existsb _ _) eqn:E.
    + inversion H; subst; clear H. unfold keys_ok. repeat split; assumption.
    + inversion H; subst; clear H. unfold keys_ok. simpl.
      repeat split; try assumption.
      apply NoDup_snoc; [assumption|].
      eapply existsb_eqb_false; [apply subscription_eqb_eq|exact E].
  - inversion H; subst; clear H. unfold keys_ok. simpl.
    repeat split; try assumption. apply NoDup_filter. assumption.
  - inversion H; subst; clear H. unfold keys_ok. simpl.
    repeat split; assumption.
Qed.

(** X3.  In every store that the mutations can reach from the empty one,
    whatever driver calls fail: no id occurs twice among the users, the
    communities, the posts, the comments or the messages; no two users share
    a name and no two communities do; no membership, subscription or vote row
    occurs twice; and every vote is of kind "post" or "comment" and of value
    1 or -1. *)
Theorem reachable_keys_ok : forall ms io, keys_ok (db (run ms (InitDatabase io))).
Proof.
  intros ms io0. apply run_keeps.
  - exact exec_keys_ok.
  - unfold keys_ok. simpl. repeat split; constructor.
Qed.

(** ** Posts, comments and messages *)

(** X4.  [CreatePost], whatever the driver does: when it returns no error it
    has appended one post with the given title, content, author and
    community under an id that is positive and larger than every post id, and
    no other table has changed; when it returns an error the id is 0 and the
    store is as it was.  It looks neither the author nor the community up:
    when no driver call fails and the ids are not exhausted it returns no
    error, whoever the author and whatever the community. *)
Theorem CreatePost_spec : forall title content authorID subredditID dm,
  match CreatePost title content authorID subredditID dm with
  | (id, None, dm') =>
      posts (db dm') = posts (db dm) ++ [mkPost id title content authorID subredditID]
      /\ 0 < id
      /\ (forall p, In p (posts (db dm)) -> p_id p < id)
      /\ users (db dm') = users (db dm)
      /\ subreddits (db dm') = subreddits (db dm)
      /\ subreddit_members (db dm') = subreddit_members (db dm)
      /\ comments (db dm') = comments (db dm)
      /\ votes (db dm') = votes (db dm)
      /\ direct_messages (db dm') = direct_messages (db dm)
      /\ user_subscriptions (db dm') = user_subscriptions (db dm)
  | (id, Some _, dm') => id = 0 /\ db dm' = db dm
  end
  /\ (calm dm ->
      SQL.next_id "posts" (SQL.post_ids (db dm)) (db dm) <> None ->
      snd (fst (CreatePost title content authorID subredditID dm)) = None).
Proof.
  intros title content authorID subredditID dm. split.
  - unfold CreatePost.
    destruct (Exec_cases (SQL.InsertPost title content authorID subredditID) dm)
      as [[e ->]|(r & s1 & _ & H1 & ->)]; [split; reflexivity|].
    simpl in H1.
    destruct (SQL.next_id "posts" (SQL.post_ids (db dm)) (db dm)) as [id|] eqn:N;
      [|discriminate].
    inversion H1; subst; clear H1.
    destruct (next_id_fresh _ _ _ _ N) as [Hpos Hfresh].
    simpl. repeat split; try assumption.
    intros p Hp. apply Hfresh. unfold SQL.post_ids. apply in_map. assumption.
  - intros C Hfull. unfold CreatePost, Exec.
    rewrite (calm_fails dm C). simpl.
    destruct (SQL.next_id "posts" (SQL.post_ids (db dm)) (db dm)); [|congruence].
    reflexivity.
Qed.

Lemma CreatePost_spec_witness :
  SQL.has_id (SQL.user_ids (db go_post)) 77 = false
  /\ SQL.has_id (SQL.subreddit_ids (db go_post)) 99 = false
  /\ snd (fst (CreatePost "nowhere" "by nobody" 77 99 go_post)) = None.
Proof.
  split; [vm_compute; reflexivity|]. split; [vm_compute; reflexivity|].
  pose proof (CreatePost_spec "nowhere" "by nobody" 77 99 go_post) as [_ H].
  apply H.
  - vm_compute. constructor.
  - vm_compute. discriminate.
Defined.

(** X5.  [CreateComment], whatever the driver does: when it returns no error
    it has appended one comment with the given content, author, post and
    parent under an id that is positive and larger than every comment id, and
    no other table has changed; when it returns an error the id is 0 and the
    store is as it was. *)
Theorem CreateComment_spec : forall content authorID postID parent dm,
  match CreateComment content authorID postID parent dm with
  | (id, None, dm') =>
      comments (db dm')
      = comments (db dm) ++ [mkComment id content authorID (Some postID) parent]
      /\ 0 < id
      /\ (forall c, In c (comments (db dm)) -> c_id c < id)
      /\ users (db dm') = users (db dm)
      /\ subreddits (db dm') = subreddits (db dm)
      /\ subreddit_members (db dm') = subreddit_members (db dm)
      /\ posts (db dm') = posts (db dm)
      /\ votes (db dm') = votes (db dm)
      /\ direct_messages (db dm') = direct_messages (db dm)
      /\ user_subscriptions (db dm') = user_subscriptions (db dm)
  | (id, Some _, dm') => id = 0 /\ db dm' = db dm
  end.
Proof.
  intros content authorID postID parent dm. unfold CreateComment.
  destruct (Exec_cases (SQL.InsertComment content authorID postID parent) dm)
    as [[e ->]|(r & s1 & _ & H1 & ->)]; [split; reflexivity|].
  simpl in H1.
  destruct (SQL.next_id "comments" (SQL.comment_ids (db dm)) (db dm)) as [id|] eqn:N;
    [|discriminate].
  inversion H1; subst; clear H1.
  destruct (next_id_fresh _ _ _ _ N) as [Hpos Hfresh].
  simpl. repeat split; try assumption.
  intros c Hc. apply Hfresh. unfold SQL.comment_ids. apply in_map. assumption.
Qed.

(** X6.  [SendDirectMessage], whatever the driver does: when it returns no
    error it has appended one message from the sender to the recipient under
    an id that is positive and larger than every message id, and no other
    table has changed; when it returns an error the id is 0 and the store is
    as it was.  It does not look the recipient up: when no driver call fails
    and the ids are not exhausted it returns no error, whoever the recipient
    is. *)
Theorem SendDirectMessage_spec : forall fromUserID toUserID content dm,
  match SendDirectMessage fromUserID toUserID content dm with
  | (id, None, dm') =>
      direct_messages (db dm')
      = direct_messages (db dm) ++ [mkMessage id fromUserID toUserID content]
      /\ 0 < id
      /\ (forall m, In m (direct_messages (db dm)) -> dm_id m < id)
      /\ users (db dm') = users (db dm)
      /\ subreddits (db dm') = subreddits (db dm)
      /\ subreddit_members (db dm') = subreddit_members (db dm)
      /\ posts (db dm') = posts (db dm)
      /\ comments (db dm') = comments (db dm)
      /\ votes (db dm') = votes (db dm)
      /\ user_subscriptions (db dm') = user_subscriptions (db dm)
  | (id, Some _, dm') => id = 0 /\ db dm' = db dm
  end
  /\ (calm dm ->
      SQL.next_id "direct_messages" (map dm_id (direct_messages (db dm))) (db dm)
      <> None ->
      snd (fst (SendDirectMessage fromUserID toUserID content dm)) = None).
Proof.
  intros fromUserID toUserID content dm. split.
  - unfold SendDirectMessage.
    destruct (Exec_cases (SQL.InsertDirectMessage fromUserID toUserID content) dm)
      as [[e ->]|(r & s1 & _ & H1 & ->)]; [split; reflexivity|].
    simpl in H1.
    destruct (SQL.next_id "direct_messages" _ (db dm)) as [id|] eqn:N;
      [|discriminate].
    inversion H1; subst; clear H1.
    destruct (next_id_fresh _ _ _ _ N) as [Hpos Hfresh].
    simpl. repeat split; try assumption.
    intros m Hm. apply Hfresh. apply in_map. assumption.
  - intros C Hfull. unfold SendDirectMessage, Exec.
    rewrite (calm_fails dm C). simpl.
    destruct (SQL.next_id "direct_messages" _ (db dm)); [|congruence].
    reflexivity.
Qed.

Lemma SendDirectMessage_spec_witness :
  SQL.has_id (SQL.user_ids (db go_post)) 77 = false
  /\ snd (fst (SendDirectMessage 2 77 "anyone there" go_post)) = None.
Proof.
  split; [vm_compute; reflexivity|].
  pose proof (SendDirectMessage_spec 2 77 "anyone there" go_post) as [_ H].
  apply H.
  - vm_compute. constructor.
  - vm_compute. discriminate.
Defined.

(** ** Rows that are keys: subscriptions and memberships *)

Lemma existsb_filter_removed : forall (A : Type) (eqb : A -> A -> bool) k l,
  existsb (eqb k) (filter (fun x => negb (eqb k x)) l) = false.
Proof.
  intros A eqb k l. induction l as [|x l IH]; simpl; [reflexivity|].
  destruct (eqb k x) eqn:E; simpl; [exact IH|]. rewrite E, IH. reflexivity.
Qed.

Lemma existsb_filter_other : forall (A : Type) (eqb : A -> A -> bool) k k' l,
  (forall a b, eqb a b = true <-> a = b) -> k' <> k ->
  existsb (eqb k') (filter (fun x => negb (eqb k x)) l) = existsb (eqb k') l.
Proof.
  intros A eqb k k' l R Hne. induction l as [|x l IH]; simpl; [reflexivity|].
  destruct (eqb k x) eqn:E; simpl; rewrite IH; [|reflexivity].
  apply R in E. subst x.
  destruct (eqb k' k) eqn:E'; [|reflexivity].
  apply R in E'. contradiction.
Qed.

Lemma existsb_snoc_other : forall (A : Type) (eqb : A -> A -> bool) k k' l,
  (forall a b, eqb a b = true <-> a = b) -> k' <> k ->
  existsb (eqb k') (l ++ [k]) = existsb (eqb k') l.
Proof.
  intros A eqb k k' l R Hne. rewrite existsb_app. simpl.
  destruct (eqb k' k) eqn:E; [apply R in E; contradiction|].
  rewrite !orb_false_r. reflexivity.
Qed.

Lemma filter_snoc_removed : forall (A : Type) (eqb : A -> A -> bool) k l,
  (forall a b, eqb a b = true <-> a = b) ->
  existsb (eqb k) l = false ->
  filter (fun x => negb (eqb k x)) (l ++ [k]) = l.
Proof.
  intros A eqb k l R H. rewrite filter_app, (filter_none _ _ _ H). simpl.
  replace (eqb k k) with true by (symmetry; apply R; reflexivity).
  simpl. apply app_nil_r.
Qed.

Lemma with_user_subscriptions_same : forall s,
  with_user_subscriptions s (user_subscriptions s) = s.
Proof. intros []. reflexivity. Qed.

Lemma SubscribeToUser_calm : forall a b dm,
  calm dm ->
  SubscribeToUser a b dm
  = (None,
     mkDM (if is_subscribed (db dm) a b then db dm
           else with_user_subscriptions (db dm)
                  (user_subscriptions (db dm) ++ [mkSubscription a b]))
          (tl (io dm))).
Proof.
  intros a b dm C. unfold SubscribeToUser, Exec.
  rewrite (calm_fails dm C). simpl. unfold is_subscribed.
  destruct (existsb _ _); reflexivity.
Qed.

Lemma UnsubscribeFromUser_calm : forall a b dm,
  calm dm ->
  UnsubscribeFromUser a b dm
  = (None,
     mkDM (with_user_subscriptions (db dm)
             (filter (fun r => negb (SQL.subscription_eqb (mkSubscription a b) r))
                     (user_subscriptions (db dm))))
          (tl (io dm))).
Proof.
  intros a b dm C. unfold UnsubscribeFromUser, Exec.
  rewrite (calm_fails dm C). reflexivity.
Qed.

(** X7.  Subscriptions, when no driver call fails.  Subscribing returns no
    error and makes the subscription, and changes nothing when it is there
    already; neither user is looked up, and a user can subscribe to
    themselves.  Unsubscribing returns no error and the subscription is gone
    after it; it changes nothing when there was none; unsubscribing right
    after a subscription that was new gives back the store as it was.
    Neither touches the subscription of another pair. *)
Theorem subscribe_unsubscribe : forall a b dm,
  calm dm ->
  let subscribed := snd (SubscribeToUser a b dm) in
  let undone := snd (UnsubscribeFromUser a b subscribed) in
  fst (SubscribeToUser a b dm) = None
  /\ is_subscribed (db subscribed) a b = true
  /\ (is_subscribed (db dm) a b = true -> db subscribed = db dm)
  /\ fst (UnsubscribeFromUser a b subscribed) = None
  /\ is_subscribed (db undone) a b = false
  /\ (is_subscribed (db dm) a b = false -> db undone = db dm)
  /\ fst (UnsubscribeFromUser a b dm) = None
  /\ (is_subscribed (db dm) a b = false ->
      db (snd (UnsubscribeFromUser a b dm)) = db dm)
  /\ forall a' b', (a', b') <> (a, b) ->
       is_subscribed (db subscribed) a' b' = is_subscribed (db dm) a' b'
       /\ is_subscribed (db (snd (UnsubscribeFromUser a b dm))) a' b'
          = is_subscribed (db dm) a' b'.
Proof.
  intros a b dm C subscribed undone. subst undone subscribed.
  rewrite (SubscribeToUser_calm a b dm C). cbn [fst snd db].
  set (s1 := if is_subscribed (db dm) a b then db dm
             else with_user_subscriptions (db dm)
                    (user_subscriptions (db dm) ++ [mkSubscription a b])).
  assert (C1 : calm (mkDM s1 (tl (io dm)))).
  { destruct dm as [s l]. eapply calm_tl. exact C. }
  rewrite (UnsubscribeFromUser_calm a b _ C1).
  rewrite (UnsubscribeFromUser_calm a b dm C). cbn [fst snd db].
  split; [reflexivity|].
  split.
  { subst s1. destruct (is_subscribed (db dm) a b) eqn:E; [assumption|].
    unfold is_subscribed. simpl. rewrite existsb_app. simpl.
    replace (SQL.subscription_eqb (mkSubscription a b) (mkSubscription a b))
      with true by (symmetry; apply subscription_eqb_eq; reflexivity).
    rewrite orb_true_r. reflexivity. }
  split.
  { intros E. subst s1. rewrite E. reflexivity. }
  split; [reflexivity|].
  split.
  { unfold is_subscribed. simpl. apply existsb_filter_removed. }
  split.
  { intros E. subst s1. rewrite E. simpl.
    rewrite (filter_snoc_removed _ _ _ _ subscription_eqb_eq E).
    clear. destruct (db dm). reflexivity. }
  split; [reflexivity|].
  split.
  { intros E. unfold is_subscribed in E. rewrite (filter_none _ _ _ E).
    apply with_user_subscriptions_same. }
  intros a' b' Hne.
  assert (Hk : mkSubscription a' b' <> mkSubscription a b).
  { intros X. inversion X. apply Hne. congruence. }
  split.
  - subst s1. destruct (is_subscribed (db dm) a b); [reflexivity|].
    unfold is_subscribed. simpl.
    apply (existsb_snoc_other _ _ _ _ _ subscription_eqb_eq Hk).
  - unfold is_subscribed. simpl.
    apply (existsb_filter_other _ _ _ _ _ subscription_eqb_eq Hk).
Qed.

Lemma subscribe_unsubscribe_witness :
  fst (SubscribeToUser 1 1 go_post) = None
  /\ is_subscribed (db (snd (SubscribeToUser 1 1 go_post))) 1 1 = true
  /\ db (snd (UnsubscribeFromUser 1 1 (snd (SubscribeToUser 1 1 go_post))))
     = db go_post.
Proof.
  assert (C : calm go_post) by (vm_compute; constructor).
  pose proof (subscribe_unsubscribe 1 1 go_post C)
    as (H1 & H2 & _ & _ & _ & H6 & _).
  split; [exact H1|]. split; [exact H2|]. apply H6. vm_compute. reflexivity.
Defined.

(** X8.  Memberships, when no driver call fails.  After leaving, the user is
    not a member; leaving right after a join that was new gives back the
    store as it was; and neither a join nor a leave touches the membership of
    another pair of community and user. *)
Theorem join_then_leave : forall u c dm,
  calm dm ->
  let joined := snd (JoinSubreddit u c dm) in
  is_member (db (snd (LeaveSubreddit u c dm))) c u = false
  /\ fst (LeaveSubreddit u c joined) = None
  /\ is_member (db (snd (LeaveSubreddit u c joined))) c u = false
  /\ (is_member (db dm) c u = false ->
      db (snd (LeaveSubreddit u c joined)) = db dm)
  /\ forall c' u', (c', u') <> (c, u) ->
       is_member (db joined) c' u' = is_member (db dm) c' u'
       /\ is_member (db (snd (LeaveSubreddit u c dm))) c' u'
          = is_member (db dm) c' u'.
Proof.
  intros u c dm C joined. subst joined.
  rewrite (JoinSubreddit_calm u c dm C). cbn [fst snd db].
  set (s1 := if is_member (db dm) c u then db dm
             else with_subreddit_members (db dm)
                    (subreddit_members (db dm) ++ [mkMember c u])).
  assert (C1 : calm (mkDM s1 (tl (io dm)))).
  { destruct dm as [s l]. eapply calm_tl. exact C. }
  rewrite (LeaveSubreddit_calm u c _ C1).
  rewrite (LeaveSubreddit_calm u c dm C). cbn [fst snd db].
  split.
  { unfold is_member. simpl. apply existsb_filter_removed. }
  split; [reflexivity|].
  split.
  { unfold is_member. simpl. apply existsb_filter_removed. }
  split.
  { intros E. subst s1. rewrite E. simpl.
    rewrite (filter_snoc_removed _ _ _ _ member_eqb_eq E).
    clear. destruct (db dm). reflexivity. }
  intros c' u' Hne.
  assert (Hk : mkMember c' u' <> mkMember c u).
  { intros X. inversion X. apply Hne. congruence. }
  split.
  - subst s1. destruct (is_member (db dm) c u); [reflexivity|].
    unfold is_member. simpl.
    apply (existsb_snoc_other _ _ _ _ _ member_eqb_eq Hk).
  - unfold is_member. simpl.
    apply (existsb_filter_other _ _ _ _ _ member_eqb_eq Hk).
Qed.

Lemma join_then_leave_witness :
  is_member (db (snd (LeaveSubreddit 1 1 go_post))) 1 1 = false
  /\ db (snd (LeaveSubreddit 2 1 (snd (JoinSubreddit 2 1 go_post)))) = db go_post.
Proof.
  assert (C : calm go_post) by (vm_compute; constructor).
  pose proof (join_then_leave 1 1 go_post C) as (H1 & _).
  pose proof (join_then_leave 2 1 go_post C) as (_ & _ & _ & H4 & _).
  split; [exact H1|]. apply H4. vm_compute. reflexivity.
Defined.

(** ** The reset, as a whole *)

Lemma delete_rows_calm : forall ts tx dm,
  calm dm ->
  (forall t s, In t ts ->
     exists r s', SQL.exec foreign_keys (SQL.DeleteFrom t) s = inl (r, s')) ->
  exists dm', delete_rows tx ts dm = (None, dm') /\ calm dm'.
Proof.
  induction ts as [|t ts IH]; intros tx dm C H; simpl.
  - eauto.
  - destruct (H t (db dm) (or_introl eq_refl)) as (r & s' & E).
    unfold TxExec. rewrite (Exec_calm _ dm r s' C E).
    apply IH.
    + destruct dm as [s l]. eapply calm_tl. exact C.
    + intros t0 s0 Hin. apply H. right. exact Hin.
Qed.

Lemma reset_sequences_calm : forall ts tx dm,
  calm dm ->
  exists dm', reset_sequences tx ts dm = (None, dm') /\ calm dm'.
Proof.
  induction ts as [|t ts IH]; intros tx dm C; simpl.
  - eauto.
  - unfold TxExec. erewrite (Exec_calm _ dm _ _ C) by reflexivity.
    apply IH. destruct dm as [s l]. eapply calm_tl. exact C.
Qed.

Lemma tables_can_be_deleted : forall t s,
  In t tables ->
  exists r s', SQL.exec foreign_keys (SQL.DeleteFrom t) s = inl (r, s').
Proof.
  intros t s H. unfold tables in H. simpl in H.
  repeat (destruct H as [<-|H]; [eexists; eexists; reflexivity|]).
  contradiction.
Qed.

(** X9.  [ResetDatabase], whatever the driver does: when it returns no error
    the users, communities, memberships, posts, comments, votes and messages
    are gone and the next user, community, post, comment and message get
    id 1; when it returns an error the store is as it was.  When no driver
    call fails it returns no error, whatever the store holds. *)
Theorem ResetDatabase_all_or_nothing : forall dm,
  match ResetDatabase dm with
  | (None, dm') =>
      users (db dm') = [] /\ subreddits (db dm') = []
      /\ subreddit_members (db dm') = [] /\ posts (db dm') = []
      /\ comments (db dm') = [] /\ votes (db dm') = []
      /\ direct_messages (db dm') = []
      /\ SQL.next_id "users" (SQL.user_ids (db dm')) (db dm') = Some 1
      /\ SQL.next_id "subreddits" (SQL.subreddit_ids (db dm')) (db dm') = Some 1
      /\ SQL.next_id "posts" (SQL.post_ids (db dm')) (db dm') = Some 1
      /\ SQL.next_id "comments" (SQL.comment_ids (db dm')) (db dm') = Some 1
      /\ SQL.next_id "direct_messages" (map dm_id (direct_messages (db dm')))
           (db dm') = Some 1
  | (Some _, dm') => db dm' = db dm
  end
  /\ (calm dm -> fst (ResetDatabase dm) = None).
Proof.
  intros dm. split.
  - pose proof (ResetDatabase_spec dm) as H.
    assert (Hc : forall t, fst (ResetDatabase dm) = None -> In t tables ->
                   SQL.next_id t [] (db (snd (ResetDatabase dm))) = Some 1)
      by (intros t; apply ResetDatabase_counters).
    destruct (ResetDatabase dm) as [[e|] dm']; [exact H|].
    cbn [fst snd] in Hc.
    assert (U : users (db dm') = []) by (rewrite H; reflexivity).
    assert (S : subreddits (db dm') = []) by (rewrite H; reflexivity).
    assert (M : subreddit_members (db dm') = []) by (rewrite H; reflexivity).
    assert (P : posts (db dm') = []) by (rewrite H; reflexivity).
    assert (K : comments (db dm') = []) by (rewrite H; reflexivity).
    assert (V : votes (db dm') = []) by (rewrite H; reflexivity).
    assert (D : direct_messages (db dm') = []) by (rewrite H; reflexivity).
    unfold SQL.user_ids, SQL.subreddit_ids, SQL.post_ids, SQL.comment_ids.
    rewrite U, S, M, P, K, V, D. cbn [map].
    repeat (split; [reflexivity|]).
    repeat split; apply Hc; try reflexivity; unfold tables; simpl; tauto.
  - intros C. unfold ResetDatabase, Begin. rewrite (calm_fails dm C).
    destruct (delete_rows_calm tables (mkTx (db dm)) (tick dm))
      as (dm1 & E1 & C1);
      [apply calm_tick; exact C|intros t s; apply tables_can_be_deleted|].
    rewrite E1.
    destruct (reset_sequences_calm tables (mkTx (db dm)) dm1 C1) as (dm2 & E2 & C2).
    rewrite E2. unfold Commit. rewrite (calm_fails dm2 C2). reflexivity.
Qed.

Lemma ResetDatabase_all_or_nothing_witness :
  fst (ResetDatabase go_subscribed) = None.
Proof.
  pose proof (ResetDatabase_all_or_nothing go_subscribed) as [_ H].
  apply H. vm_compute. constructor.
Defined.

(** ** More on votes *)

(** X10.  A vote of a kind other than "post" and "comment", or of a value
    other than 1 and -1, is refused: [Vote] returns an error and the store is
    as it was, whatever the store and whatever the driver does. *)
Theorem Vote_refuses_bad_kind_or_value : forall u t ty v dm,
  (String.eqb ty "post" || String.eqb ty "comment") = false
  \/ (v <> -1 /\ v <> 1) ->
  fst (Vote u t ty v dm) <> None /\ db (snd (Vote u t ty v dm)) = db dm.
Proof.
  intros u t ty v dm Hbad. pose proof (Vote_spec u t ty v dm) as H.
  destruct (Vote u t ty v dm) as [[e|] dm']; simpl.
  - split; [discriminate|exact H].
  - destruct H as (Hty & Hv & _). exfalso.
    destruct Hbad as [Hbad|[H1 H2]]; [congruence|].
    destruct Hv; contradiction.
Qed.

Lemma Vote_refuses_bad_kind_or_value_witness :
  (fst (Vote 2 1 "Post" 1 go_post) <> None
   /\ db (snd (Vote 2 1 "Post" 1 go_post)) = db go_post)
  /\ (fst (Vote 2 1 "post" 2 go_post) <> None
      /\ db (snd (Vote 2 1 "post" 2 go_post)) = db go_post).
Proof.
  split.
  - apply Vote_refuses_bad_kind_or_value. left. vm_compute. reflexivity.
  - apply Vote_refuses_bad_kind_or_value. right. split; discriminate.
Defined.

Lemma Vote_calm_eq : forall u t ty v dm,
  calm dm ->
  (String.eqb ty "post" || String.eqb ty "comment") = true ->
  (v = -1 \/ v = 1) ->
  has_voted (db dm) u t ty v = false ->
  Vote u t ty v dm
  = (None,
     mkDM (with_users (with_votes (db dm) (votes (db dm) ++ [mkVote u t ty v]))
                      (credit (author_of (db dm) ty t) v (users (db dm))))
          (tl (tl (tl (tl (io dm)))))).
Proof.
  intros u t ty v dm C Hty Hv Hnew. unfold Vote, Begin, TxExec, Commit.
  rewrite (calm_fails dm C).
  assert (C1 : calm (tick dm)) by (apply calm_tick; assumption).
  rewrite (Exec_calm _ (tick dm) _ _ C1 (exec_InsertVote_ok u t ty v _ Hty Hv Hnew)).
  match goal with
  | |- context [Exec ?q ?d] =>
      assert (C2 : calm d) by (eapply calm_tl; exact C1);
      erewrite (Exec_calm q d _ _ C2)
        by (rewrite exec_karma_statement, update_karma_eq; reflexivity)
  end.
  match goal with
  | |- context [fails ?d] =>
      assert (C3 : calm d) by (eapply calm_tl; exact C2);
      rewrite (calm_fails d C3)
  end.
  reflexivity.
Qed.

Lemma credit_back : forall a v us, credit a (- v) (credit a v us) = us.
Proof.
  intros [a|] v us; simpl; [|reflexivity].
  unfold SQL.add_karma. rewrite map_map. rewrite <- (map_id us) at 2.
  apply map_ext. intros [i n p k]. simpl.
  destruct (i =? a) eqn:E; simpl; rewrite E; [|reflexivity].
  f_equal. lia.
Qed.

(** X11.  An upvote and then a downvote by the same user on the same target,
    neither cast before, when no driver call fails, in a store whose karmas
    leave room for a vote within 64 bits: both are accepted, the ledger has
    the two rows more, and every user's karma is what it was. *)
Theorem upvote_then_downvote : forall u t ty dm,
  calm dm ->
  karma_in_range (db dm) ->
  (String.eqb ty "post" || String.eqb ty "comment") = true ->
  has_voted (db dm) u t ty 1 = false ->
  has_voted (db dm) u t ty (-1) = false ->
  let up := Vote u t ty 1 dm in
  let down := Vote u t ty (-1) (snd up) in
  fst up = None /\ fst down = None
  /\ votes (db (snd down))
     = votes (db dm) ++ [mkVote u t ty 1; mkVote u t ty (-1)]
  /\ users (db (snd down)) = users (db dm).
Proof.
  intros u t ty dm C _ Hty Hup Hdown up down. subst down up.
  rewrite (Vote_calm_eq u t ty 1 dm C Hty (or_intror eq_refl) Hup).
  cbn [fst snd].
  match goal with
  | |- context [Vote u t ty (-1) ?d] =>
      assert (C1 : calm d)
        by (destruct dm as [s l]; cbn [io];
            apply (calm_tl s (tl (tl (tl l)))),
                  (calm_tl s (tl (tl l))), (calm_tl s (tl l)), (calm_tl s l);
            exact C);
      assert (N : has_voted (db d) u t ty (-1) = false)
  end.
  { unfold has_voted in *. simpl. rewrite existsb_app, Hdown. simpl.
    unfold SQL.vote_eqb. simpl. rewrite !andb_false_r. reflexivity. }
  rewrite (Vote_calm_eq u t ty (-1) _ C1 Hty (or_introl eq_refl) N).
  cbn [fst snd db].
  split; [reflexivity|]. split; [reflexivity|]. split.
  - simpl. rewrite <- app_assoc. reflexivity.
  - simpl. unfold author_of, SQL.author_of_post, SQL.author_of_comment. simpl.
    apply (credit_back _ 1).
Qed.

Lemma upvote_then_downvote_witness :
  fst (Vote 2 1 "post" 1 go_post) = None
  /\ fst (Vote 2 1 "post" (-1) (snd (Vote 2 1 "post" 1 go_post))) = None
  /\ votes (db (snd (Vote 2 1 "post" (-1) (snd (Vote 2 1 "post" 1 go_post)))))
     = votes (db go_post) ++ [mkVote 2 1 "post" 1; mkVote 2 1 "post" (-1)]
  /\ users (db (snd (Vote 2 1 "post" (-1) (snd (Vote 2 1 "post" 1 go_post)))))
     = users (db go_post).
Proof.
  apply (upvote_then_downvote 2 1 "post" go_post).
  - vm_compute. constructor.
  - intros x Hx. vm_compute in Hx.
    destruct Hx as [<-|[<-|[]]]; vm_compute; (split; [discriminate|reflexivity]).
  - vm_compute. reflexivity.
  - vm_compute. reflexivity.
  - vm_compute. reflexivity.
Defined.

(** ** Karma and the ledger when votes are cast on what exists *)

Lemma find_Some_In : forall (A : Type) (f : A -> bool) l x,
  find f l = Some x -> In x l.
Proof.
  intros A f l x H. apply find_some in H. tauto.
Qed.

Lemma author_of_registered : forall s ty t a,
  (forall p, In p (posts s) -> In (p_author_id p) (map u_id (users s))) ->
  (forall c, In c (comments s) -> In (c_author_id c) (map u_id (users s))) ->
  author_of s ty t = Some a -> In a (map u_id (users s)).
Proof.
  intros s ty t a Hp Hc H. unfold author_of, SQL.author_of_post,
    SQL.author_of_comment in H.
  destruct (String.eqb ty "post").
  - destruct (find _ (posts s)) as [p|] eqn:F; [|discriminate].
    inversion H; subst. apply Hp. eapply find_Some_In. exact F.
  - destruct (find _ (comments s)) as [c|] eqn:F; [|discriminate].
    inversion H; subst. apply Hc. eapply find_Some_In. exact F.
Qed.

Lemma author_of_grows : forall s s' ty t a lp lc,
  posts s' = posts s ++ lp -> comments s' = comments s ++ lc ->
  author_of s ty t = Some a -> author_of s' ty t = Some a.
Proof.
  intros s s' ty t a lp lc Hp Hc H.
  unfold author_of, SQL.author_of_post, SQL.author_of_comment in *.
  rewrite Hp, Hc. destruct (String.eqb ty "post").
  - destruct (find _ (posts s)) as [p|] eqn:F; [|discriminate].
    rewrite (find_app_Some _ _ _ _ _ F). exact H.
  - destruct (find _ (comments s)) as [c|] eqn:F; [|discriminate].
    rewrite (find_app_Some _ _ _ _ _ F). exact H.
Qed.

Lemma ledger_sum_same_votes : forall s s' uid,
  votes s' = votes s ->
  (forall v, In v (votes s) -> on_content_of s' uid v = on_content_of s uid v) ->
  ledger_sum s' uid = ledger_sum s uid.
Proof.
  intros s s' uid Hv H. unfold ledger_sum. rewrite Hv.
  rewrite (filter_ext_in _ _ _ H). reflexivity.
Qed.

Lemma ledger_sum_nobody : forall s uid,
  (forall v, In v (votes s) -> on_content_of s uid v = false) ->
  ledger_sum s uid = 0.
Proof.
  intros s uid H. unfold ledger_sum.
  induction (votes s) as [|v l IH]; [reflexivity|]. simpl.
  rewrite (H v (or_introl eq_refl)). apply IH. intros w Hw. apply H. right. exact Hw.
Qed.

Lemma has_id_In : forall ids k, SQL.has_id ids k = true -> In k ids.
Proof.
  intros ids k H. unfold SQL.has_id in H. apply existsb_exists in H.
  destruct H as (x & Hx & E). apply Z.eqb_eq in E. subst. exact Hx.
Qed.

(** Content is added, votes stay: the order is kept when the new content is
    by registered users. *)
Lemma ledger_in_order_more_content : forall s s' lp lc,
  ledger_in_order s ->
  users s' = users s -> votes s' = votes s ->
  posts s' = posts s ++ lp -> comments s' = comments s ++ lc ->
  (forall p, In p lp -> In (p_author_id p) (map u_id (users s))) ->
  (forall c, In c lc -> In (c_author_id c) (map u_id (users s))) ->
  ledger_in_order s'.
Proof.
  intros s s' lp lc (K & V & P & Cm) Hu Hv Hp Hc Hlp Hlc.
  assert (A : forall v, In v (votes s) ->
                author_of s' (v_target_type v) (v_target_id v)
                = author_of s (v_target_type v) (v_target_id v)).
  { intros v Hin. specialize (V v Hin).
    destruct (author_of s (v_target_type v) (v_target_id v)) as [a|] eqn:E;
      [|congruence].
    eapply author_of_grows; eassumption. }
  split; [|split; [|split]].
  - intros u Hin. rewrite Hu in Hin. rewrite (K u Hin).
    symmetry. apply ledger_sum_same_votes; [exact Hv|].
    intros v Hw. unfold on_content_of. rewrite (A v Hw). reflexivity.
  - intros v Hin. rewrite Hv in Hin. rewrite (A v Hin). apply V. exact Hin.
  - intros p Hin. rewrite Hp in Hin. rewrite Hu.
    apply in_app_or in Hin. destruct Hin; auto.
  - intros c Hin. rewrite Hc in Hin. rewrite Hu.
    apply in_app_or in Hin. destruct Hin; auto.
Qed.

Lemma ledger_in_order_same : forall s s',
  ledger_in_order s ->
  users s' = users s -> votes s' = votes s ->
  posts s' = posts s -> comments s' = comments s ->
  ledger_in_order s'.
Proof.
  intros s s' L Hu Hv Hp Hc.
  apply (ledger_in_order_more_content s s' [] [] L Hu Hv);
    rewrite ?app_nil_r; try assumption; intros x [].
Qed.

Lemma ledger_in_order_newcomer : forall s s' id name pw,
  ledger_in_order s ->
  users s' = users s ++ [mkUser id name pw 0] ->
  ~ In id (map u_id (users s)) ->
  votes s' = votes s -> posts s' = posts s -> comments s' = comments s ->
  ledger_in_order s'.
Proof.
  intros s s' id name pw (K & V & P & Cm) Hu Hid Hv Hp Hc.
  assert (O : forall uid v, on_content_of s' uid v = on_content_of s uid v).
  { intros uid v. apply on_content_of_ext; assumption. }
  assert (A : forall ty t, author_of s' ty t = author_of s ty t).
  { intros ty t. unfold author_of, SQL.author_of_post, SQL.author_of_comment.
    rewrite Hp, Hc. reflexivity. }
  split; [|split; [|split]].
  - intros u Hin. rewrite Hu in Hin. apply in_app_or in Hin.
    destruct Hin as [Hin|[<-|[]]].
    + rewrite (K u Hin). symmetry.
      apply ledger_sum_same_votes; [exact Hv|]. intros v _. apply O.
    + simpl. symmetry. apply ledger_sum_nobody. intros v Hin.
      rewrite Hv in Hin. rewrite O. unfold on_content_of.
      destruct (author_of s (v_target_type v) (v_target_id v)) as [a|] eqn:E;
        [|reflexivity].
      apply Z.eqb_neq. intros ->. apply Hid.
      eapply author_of_registered; eassumption.
  - intros v Hin. rewrite Hv in Hin. rewrite A. apply V. exact Hin.
  - intros p Hin. rewrite Hp in Hin. rewrite Hu, map_app.
    apply in_or_app. left. apply P. exact Hin.
  - intros c Hin. rewrite Hc in Hin. rewrite Hu, map_app.
    apply in_or_app. left. apply Cm. exact Hin.
Qed.

Lemma exec_core : forall fk q s r s',
  SQL.exec fk q s = inl (r, s') ->
  match q with
  | SQL.InsertUser _ _ | SQL.InsertPost _ _ _ _ | SQL.InsertComment _ _ _ _
  | SQL.InsertVote _ _ _ _ | SQL.UpdateKarmaOfPostAuthor _ _
  | SQL.UpdateKarmaOfCommentAuthor _ _ | SQL.DeleteFrom _ => True
  | _ => users s' = users s /\ votes s' = votes s
         /\ posts s' = posts s /\ comments s' = comments s
  end.
Proof.
  intros fk q s r s' H. destruct q; try exact I; simpl in H;
    unfold SQL.done in H;
    repeat match type of H with
           | match ?c with _ => _ end = _ => destruct c eqn:?
           end;
    inversion H; subst; simpl; repeat split.
Qed.

Lemma Exec_core : forall q dm r e dm',
  Exec q dm = (r, e, dm') ->
  match q with
  | SQL.InsertUser _ _ | SQL.InsertPost _ _ _ _ | SQL.InsertComment _ _ _ _
  | SQL.InsertVote _ _ _ _ | SQL.UpdateKarmaOfPostAuthor _ _
  | SQL.UpdateKarmaOfCommentAuthor _ _ | SQL.DeleteFrom _ => True
  | _ => users (db dm') = users (db dm) /\ votes (db dm') = votes (db dm)
         /\ posts (db dm') = posts (db dm) /\ comments (db dm') = comments (db dm)
  end.
Proof.
  intros q dm r e dm' H.
  destruct (Exec_cases q dm) as [[e' E]|(r' & s' & _ & Hq & E)];
    rewrite E in H; inversion H; subst; simpl.
  - destruct q; try exact I; repeat split.
  - exact (exec_core _ _ _ _ _ Hq).
Qed.

Lemma CreateSubreddit_core : forall name description creatorID dm,
  let s' := db (snd (CreateSubreddit name description creatorID dm)) in
  users s' = users (db dm) /\ votes s' = votes (db dm)
  /\ posts s' = posts (db dm) /\ comments s' = comments (db dm).
Proof.
  intros name description creatorID dm.
  unfold CreateSubreddit, TxExec, Rollback, LastInsertId.
  destruct (Begin dm) as [[tx [e|]] dm0] eqn:B;
    apply Begin_eq in B; destruct B as [Hs Hd]; simpl;
    [rewrite Hd; repeat split|].
  destruct (Exec _ dm0) as [[r1 [e1|]] dm1] eqn:E1; apply Exec_core in E1;
    simpl in *; [rewrite Hs; repeat split|].
  destruct (Exec _ dm1) as [[r2 [e2|]] dm2] eqn:E2; apply Exec_core in E2;
    simpl in *; [rewrite Hs; repeat split|].
  destruct (Commit tx dm2) as [e3 dm3] eqn:C.
  destruct E1 as (A1 & A2 & A3 & A4). destruct E2 as (B1 & B2 & B3 & B4).
  destruct (Commit_eq _ _ _ _ C) as [[_ H]|[_ H]]; simpl; rewrite H;
    [rewrite <- Hd; repeat split; congruence|rewrite Hs; repeat split].
Qed.

Lemma apply_keeps_ledger_in_order : forall m dm,
  ledger_in_order (db dm) ->
  refers_to_existing m (db dm) = true ->
  ledger_in_order (db (snd (apply m dm))).
Proof.
  intros m dm L G. destruct m; simpl in *.
  - (* RegisterUser *)
    unfold RegisterUser.
    destruct (Exec_cases (SQL.InsertUser username password) dm)
      as [[e ->]|(r & s1 & _ & H1 & ->)]; [exact L|].
    apply exec_InsertUser in H1. destruct H1 as (Hid & _ & ->). simpl.
    eapply ledger_in_order_newcomer; try exact L; try reflexivity.
    eapply next_id_not_in. exact Hid.
  - (* CreateSubreddit *)
    pose proof (CreateSubreddit_core name description creatorID dm) as H.
    destruct (CreateSubreddit name description creatorID dm) as [[i e] d].
    simpl in *. destruct H as (H1 & H2 & H3 & H4).
    eapply ledger_in_order_same; eassumption.
  - unfold JoinSubreddit.
    destruct (Exec _ dm) as [[r e] d] eqn:E. apply Exec_core in E.
    destruct E as (H1 & H2 & H3 & H4). eapply ledger_in_order_same; eassumption.
  - unfold LeaveSubreddit.
    destruct (Exec _ dm) as [[r e] d] eqn:E. apply Exec_core in E.
    destruct E as (H1 & H2 & H3 & H4). eapply ledger_in_order_same; eassumption.
  - (* CreatePost *)
    unfold CreatePost.
    destruct (Exec_cases (SQL.InsertPost title content authorID subredditID) dm)
      as [[e ->]|(r & s1 & _ & H1 & ->)]; [exact L|].
    simpl in H1. destruct (SQL.next_id _ _ _) as [id|]; [|discriminate].
    inversion H1; subst; clear H1. simpl.
    eapply (ledger_in_order_more_content (db dm) _
              [mkPost id title content authorID subredditID] []);
      try exact L; try reflexivity.
    + simpl. rewrite app_nil_r. reflexivity.
    + intros p [<-|[]]. simpl. apply has_id_In. exact G.
    + intros c [].
  - (* Vote *)
    destruct (Vote_follows_ledger userID targetID targetType value dm)
      as (Hp & Hc & Hk).
    pose proof (Vote_spec userID targetID targetType value dm) as H.
    destruct L as (K & V & P & Cm).
    destruct (Vote userID targetID targetType value dm) as [[e|] d]; simpl in *.
    + rewrite H. repeat split; assumption.
    + destruct H as (_ & _ & _ & H).
      assert (A : forall ty t, author_of (db d) ty t = author_of (db dm) ty t).
      { intros ty t. unfold author_of, SQL.author_of_post, SQL.author_of_comment.
        rewrite Hp, Hc. reflexivity. }
      assert (U : map u_id (users (db d)) = map u_id (users (db dm))).
      { rewrite H. simpl. unfold credit.
        destruct (author_of (db dm) targetType targetID); [|reflexivity].
        apply add_karma_ids. }
      split; [|split; [|split]].
      * eapply follows_preserves; eassumption.
      * intros v Hin. rewrite A. rewrite H in Hin. simpl in Hin.
        apply in_app_or in Hin. destruct Hin as [Hin|[<-|[]]]; [apply V; exact Hin|].
        simpl. destruct (author_of (db dm) targetType targetID);
          [discriminate|discriminate G].
      * intros p Hin. rewrite Hp in Hin. rewrite U. apply P. exact Hin.
      * intros c Hin. rewrite Hc in Hin. rewrite U. apply Cm. exact Hin.
  - (* CreateComment *)
    unfold CreateComment.
    destruct (Exec_cases (SQL.InsertComment content authorID postID parent) dm)
      as [[e ->]|(r & s1 & _ & H1 & ->)]; [exact L|].
    simpl in H1. destruct (SQL.next_id _ _ _) as [id|]; [|discriminate].
    inversion H1; subst; clear H1. simpl.
    eapply (ledger_in_order_more_content (db dm) _ []
              [mkComment id content authorID (Some postID) parent]);
      try exact L; try reflexivity.
    + simpl. rewrite app_nil_r. reflexivity.
    + intros p [].
    + intros c [<-|[]]. simpl. apply has_id_In. exact G.
  - unfold SendDirectMessage.
    destruct (Exec _ dm) as [[r [e|]] d] eqn:E; apply Exec_core in E;
      destruct E as (H1 & H2 & H3 & H4); simpl;
      eapply ledger_in_order_same; eassumption.
  - unfold SubscribeToUser.
    destruct (Exec _ dm) as [[r e] d] eqn:E. apply Exec_core in E.
    destruct E as (H1 & H2 & H3 & H4). eapply ledger_in_order_same; eassumption.
  - unfold UnsubscribeFromUser.
    destruct (Exec _ dm) as [[r e] d] eqn:E. apply Exec_core in E.
    destruct E as (H1 & H2 & H3 & H4). eapply ledger_in_order_same; eassumption.
  - (* ResetDatabase *)
    pose proof (ResetDatabase_spec dm) as H.
    destruct (ResetDatabase dm) as [[e|] d]; simpl.
    + rewrite H. exact L.
    + rewrite H. split; [|split; [|split]]; intros x [].
Qed.

Lemma run_keeps_ledger_in_order : forall ms dm,
  ledger_in_order (db dm) ->
  all_refer_to_existing ms dm = true ->
  ledger_in_order (db (run ms dm)).
Proof.
  induction ms as [|m ms IH]; intros dm L G; simpl in *; [exact L|].
  apply andb_true_iff in G. destruct G as [G1 G2].
  apply IH; [|exact G2]. apply apply_keeps_ledger_in_order; assumption.
Qed.

Lemma empty_ledger_in_order : forall io, ledger_in_order (db (InitDatabase io)).
Proof. intros io0. split; [|split; [|split]]; intros x []. Qed.

(** The proviso on the authors is needed as well: a post written in the name
    of user 1 before anyone is registered, an upvote of it, which finds no
    row to credit, and then Alice, who becomes user 1 with karma 0 and a post
    with one upvote. *)
Lemma post_before_author_breaks_karma_is_ledger_sum :
  ~ karma_is_ledger_sum
      (db (run [ MCreatePost "hello" "world" 1 1;
                 MVote 2 1 "post" 1;
                 MRegisterUser "alice" "pw" ] (InitDatabase []))).
Proof.
  intros H. specialize (H (mkUser 1 "alice" "pw" 0)).
  assert (E : 0 = 1); [|discriminate E].
  apply H. vm_compute. left. reflexivity.
Qed.

(** C1, amended.  From the empty store, after any sequence of mutations,
    resets included and whatever driver calls fail, in which every vote is
    cast on a post or comment that exists at that moment and every post and
    comment is created in the name of a user who is registered at that
    moment: the karma of every user equals the sum of the values of the
    votes on that user's posts and comments.  Each cast is one unit, in any
    store whose karmas leave room for a vote within 64 bits: accepted, it
    appends its one row and adds its value to the karma of the author of the
    target; refused, it changes nothing. *)
Theorem karma_equals_ledger_sum : forall ms io,
  all_refer_to_existing ms (InitDatabase io) = true ->
  karma_is_ledger_sum (db (run ms (InitDatabase io)))
  /\ forall u t ty v d,
       karma_in_range (db d) ->
       match Vote u t ty v d with
       | (None, d') =>
           db d' = with_users
                     (with_votes (db d) (votes (db d) ++ [mkVote u t ty v]))
                     (credit (author_of (db d) ty t) v (users (db d)))
       | (Some _, d') => db d' = db d
       end.
Proof.
  intros ms io0 G. split.
  - apply (run_keeps_ledger_in_order ms (InitDatabase io0));
      [apply empty_ledger_in_order|exact G].
  - intros u t ty v d _. pose proof (Vote_spec u t ty v d) as H.
    destruct (Vote u t ty v d) as [[e|] d']; [assumption|].
    destruct H as (_ & _ & _ & H). assumption.
Qed.

Lemma karma_equals_ledger_sum_witness :
  karma_is_ledger_sum
    (db (run [ MRegisterUser "alice" "pw"; MRegisterUser "bob" "pw";
               MCreateSubreddit "go" "about go" 1;
               MCreatePost "hello" "world" 1 1;
               MVote 2 1 "post" 1; MVote 2 1 "post" 1;
               MCreateComment "thanks" 1 1 None;
               MVote 2 1 "comment" 1; MVote 1 1 "post" (-1);
               MResetDatabase;
               MRegisterUser "carol" "pw"; MCreatePost "again" "hello" 1 1;
               MVote 1 1 "post" 1 ]
             (InitDatabase [false; false; false; false; false; true]))).
Proof.
  pose proof (karma_equals_ledger_sum
                [ MRegisterUser "alice" "pw"; MRegisterUser "bob" "pw";
                  MCreateSubreddit "go" "about go" 1;
                  MCreatePost "hello" "world" 1 1;
                  MVote 2 1 "post" 1; MVote 2 1 "post" 1;
                  MCreateComment "thanks" 1 1 None;
                  MVote 2 1 "comment" 1; MVote 1 1 "post" (-1);
                  MResetDatabase;
                  MRegisterUser "carol" "pw"; MCreatePost "again" "hello" 1 1;
                  MVote 1 1 "post" 1 ]
                [false; false; false; false; false; true]) as H.
  apply H. vm_compute. reflexivity.
Defined.

(** X12.  Karma and the ledger over all the mutations.  From the empty store,
    or from any store in which every karma is the sum of the votes on the
    user's posts and comments, every vote is on content that exists and all
    content is by registered users: after any sequence of mutations, resets
    included and whatever driver calls fail, in which every vote is cast on
    a post or comment that exists at that moment and every post and comment
    is created in the name of a user who is registered at that moment, every
    user's karma is again the sum of the values of the votes on that user's
    posts and comments. *)
Theorem karma_is_ledger_sum_when_referring_to_existing : forall ms dm,
  ledger_in_order (db dm) ->
  all_refer_to_existing ms dm = true ->
  ledger_in_order (db (run ms dm))
  /\ karma_is_ledger_sum (db (run ms dm)).
Proof.
  intros ms dm L G. pose proof (run_keeps_ledger_in_order ms dm L G) as H.
  split; [exact H|apply H].
Qed.

Lemma karma_is_ledger_sum_when_referring_to_existing_witness :
  karma_is_ledger_sum
    (db (run [ MRegisterUser "alice" "pw"; MRegisterUser "bob" "pw";
               MCreateSubreddit "go" "about go" 1;
               MCreatePost "hello" "world" 1 1;
               MVote 2 1 "post" 1;
               MCreateComment "nice" 2 1 None;
               MVote 1 1 "comment" 1; MVote 1 1 "post" (-1);
               MVote 2 1 "post" 1; MLeaveSubreddit 1 1 ]
             (InitDatabase [false; false; true]))).
Proof.
  apply karma_is_ledger_sum_when_referring_to_existing.
  - split; [|split; [|split]]; intros x Hx; vm_compute in Hx; contradiction.
  - vm_compute. reflexivity.
Defined.

(** ** What a worker does with a request *)

Ltac kinds :=
  repeat match goal with
         | |- context [if String.eqb ?a ?b then _ else _] =>
             destruct (String.eqb a b)
         end.

Lemma process_eq : forall a msg w,
  process a msg w
  = (fst (fst (handle msg (handler_db w))),
     mkWorld (snd (fst (handle msg (handler_db w)))) (processes w) (chans w)
             (stdlog w) (responses w ++ snd (handle msg (handler_db w)))).
Proof.
  intros a msg w. unfold handle, process.
  assert (N : forall x : World, mkWorld (handler_db x) (processes x) (chans x)
                                  (stdlog x) (responses x ++ []) = x)
    by (intros []; simpl; rewrite app_nil_r; reflexivity).
  kinds;
    unfold processCreatePost, processCreateComment, processSendMessage,
           processJoinSubreddit, processCreateSubreddit, processVote,
           processLeaveSubreddit;
    destruct (req_Payload msg); simpl; rewrite ?N; try reflexivity;
    match goal with
    | |- context [match ?x with _ => _ end] => destruct x as [[? [?|]] ?]
    | |- context [match ?x with _ => _ end] => destruct x as [[?|] ?]
    end; reflexivity.
Qed.

Lemma handle_fits : forall msg dm,
  fits (req_Type msg) (req_Payload msg) = true ->
  handle msg dm
  = (fst (store_call msg dm), snd (store_call msg dm),
     [match fst (store_call msg dm) with
      | None => success_status (req_Type msg)
      | Some _ => StatusInternalServerError
      end]).
Proof.
  intros msg dm F. unfold handle, process, fits, success_status, store_call in *.
  revert F. kinds;
    unfold processCreatePost, processCreateComment, processSendMessage,
           processJoinSubreddit, processCreateSubreddit, processVote,
           processLeaveSubreddit;
    destruct (req_Payload msg); intros F; try discriminate F; simpl;
    match goal with
    | |- context [match ?x with _ => _ end] => destruct x as [[? [?|]] ?]
    | |- context [match ?x with _ => _ end] => destruct x as [[?|] ?]
    end; reflexivity.
Qed.

Lemma handle_misfit : forall msg dm,
  fits (req_Type msg) (req_Payload msg) = false ->
  (exists text, fst (fst (handle msg dm)) = Some (ErrorMsg text))
  /\ snd (fst (handle msg dm)) = dm
  /\ snd (handle msg dm)
     = if String.eqb (req_Type msg) "create_post" then [StatusBadRequest] else [].
Proof.
  intros msg dm F. unfold handle, process, fits in *.
  revert F. kinds;
    unfold processCreatePost, processCreateComment, processSendMessage,
           processJoinSubreddit, processCreateSubreddit, processVote,
           processLeaveSubreddit;
    destruct (req_Payload msg); intros F; try discriminate F; simpl;
    (split; [eexists; reflexivity|split; reflexivity]).
Qed.

(** X13.  A worker and a request whose payload fits its kind: the handler
    makes the one store call of the kind with the user of the context,
    returns what the call returned, and writes one response: 500 after an
    error, otherwise 201 for a post, a comment, a message and a community,
    200 for a join, a leave and a vote.  It touches neither the mailboxes nor
    the channels nor the log. *)
Theorem process_fitting_request : forall a msg w,
  fits (req_Type msg) (req_Payload msg) = true ->
  let call := store_call msg (handler_db w) in
  process a msg w
  = (fst call,
     mkWorld (snd call) (processes w) (chans w) (stdlog w)
       (responses w
        ++ [match fst call with
            | None => success_status (req_Type msg)
            | Some _ => StatusInternalServerError
            end])).
Proof.
  intros a msg w F call. subst call.
  rewrite process_eq, (handle_fits msg (handler_db w) F). reflexivity.
Qed.

Lemma process_fitting_request_witness :
  fst (process (mkActor 0) vote_message (boot go_post)) = None
  /\ responses (snd (process (mkActor 0) vote_message (boot go_post))) = [StatusOK].
Proof.
  assert (F : fits (req_Type vote_message) (req_Payload vote_message) = true)
    by (vm_compute; reflexivity).
  rewrite (process_fitting_request (mkActor 0) vote_message (boot go_post) F).
  split; vm_compute; reflexivity.
Defined.

(** X14.  A worker and a request of no known kind, or whose payload is not
    the struct of its kind: the handler returns an error without a store
    call: the store is as it was and no driver call is used up.  It writes no
    response, but for the kind "create_post", where it writes one 400. *)
Theorem process_misfit_request : forall a msg w,
  fits (req_Type msg) (req_Payload msg) = false ->
  (exists text, fst (process a msg w) = Some (ErrorMsg text))
  /\ handler_db (snd (process a msg w)) = handler_db w
  /\ responses (snd (process a msg w))
     = responses w
       ++ (if String.eqb (req_Type msg) "create_post" then [StatusBadRequest] else [])
  /\ processes (snd (process a msg w)) = processes w
  /\ chans (snd (process a msg w)) = chans w
  /\ stdlog (snd (process a msg w)) = stdlog w.
Proof.
  intros a msg w F. rewrite process_eq.
  destruct (handle_misfit msg (handler_db w) F) as ((text & H1) & H2 & H3).
  cbn [fst snd handler_db responses processes chans stdlog].
  rewrite H1, H2, H3. repeat split. exists text. reflexivity.
Qed.

Lemma process_misfit_request_witness :
  (exists text,
     fst (process (mkActor 0) misfit_message (boot go_post)) = Some (ErrorMsg text))
  /\ handler_db (snd (process (mkActor 0) misfit_message (boot go_post)))
     = handler_db (boot go_post).
Proof.
  assert (F : fits (req_Type misfit_message) (req_Payload misfit_message) = false)
    by (vm_compute; reflexivity).
  pose proof (process_misfit_request (mkActor 0) misfit_message (boot go_post) F)
    as (H1 & H2 & _).
  split; [exact H1|exact H2].
Defined.

(** ** The pool, fresh and empty *)

(** X15.  [NewActorPool] on a negative size panics.  On a size [n >= 0] it
    returns a pool whose workers are the processes 0 to n-1, worker [k] with
    id [k] and nothing but [Started] in its mailbox, with the counter at 0; it
    makes no channel, writes no response and does not touch the store.  A
    pool of size 0 is built, but every [ProcessRequest] on it panics, for the
    index is out of range. *)
Theorem NewActorPool_spec : forall poolSize dm,
  (poolSize < 0 -> start poolSize dm = None)
  /\ (0 <= poolSize ->
      start poolSize dm
      = Some (mkSystem
                (mkPool (seq 0 (Z.to_nat poolSize)) 0)
                (mkWorld dm
                   (map (fun k => mkProcess (mkActor (Z.of_nat k)) [Started])
                        (seq 0 (Z.to_nat poolSize)))
                   [] [] [])))
  /\ (poolSize = 0 ->
      forall sys, start poolSize dm = Some sys ->
        forall ty pl ctx acts, replay (Submit ty pl ctx :: acts) sys = None).
Proof.
  intros poolSize dm.
  assert (E : 0 <= poolSize ->
              start poolSize dm
              = Some (mkSystem
                        (mkPool (seq 0 (Z.to_nat poolSize)) 0)
                        (mkWorld dm
                           (map (fun k => mkProcess (mkActor (Z.of_nat k)) [Started])
                                (seq 0 (Z.to_nat poolSize)))
                           [] [] []))).
  { intros H. unfold start, NewActorPool.
    destruct (poolSize <? 0) eqn:L; [apply Z.ltb_lt in L; lia|].
    rewrite spawn_workers_spec. reflexivity. }
  split; [|split].
  - intros H. unfold start, NewActorPool.
    destruct (poolSize <? 0) eqn:L; [reflexivity|apply Z.ltb_ge in L; lia].
  - exact E.
  - intros H sys S ty pl ctx acts. rewrite E in S by lia. subst poolSize.
    inversion S; subst sys. reflexivity.
Qed.

Lemma NewActorPool_spec_witness :
  start (-1) (InitDatabase []) = None
  /\ start 2 (InitDatabase [])
     = Some (mkSystem (mkPool [0%nat; 1%nat] 0)
               (mkWorld (InitDatabase [])
                  [mkProcess (mkActor 0) [Started]; mkProcess (mkActor 1) [Started]]
                  [] [] []))
  /\ replay [Submit "vote" (VoteRequest 1 "post" 1) (mkContext 1)]
            (mkSystem (mkPool [] 0) (boot (InitDatabase []))) = None.
Proof.
  pose proof (NewActorPool_spec (-1) (InitDatabase [])) as (H1 & _ & _).
  pose proof (NewActorPool_spec 2 (InitDatabase [])) as (_ & H2 & _).
  pose proof (NewActorPool_spec 0 (InitDatabase [])) as (_ & _ & H3).
  split; [apply H1; reflexivity|].
  split; [apply H2; discriminate|].
  apply H3; reflexivity.
Defined.

(** ** A request on an idle pool *)

Lemma replace_nth_last : forall (A : Type) (l : list A) x y,
  replace_nth (List.length l) x (l ++ [y]) = l ++ [x].
Proof.
  intros A l x y. induction l as [|h t IH]; simpl; [reflexivity|].
  rewrite IH. reflexivity.
Qed.

Lemma nth_error_last : forall (A : Type) (l : list A) x,
  nth_error (l ++ [x]) (List.length l) = Some x.
Proof.
  intros A l x. rewrite nth_error_app2 by lia. rewrite Nat.sub_diag. reflexivity.
Qed.

Lemma run_worker_Started : forall ms k w pid a rest,
  nth_error (processes w) pid = Some (mkProcess a (ms ++ rest)) ->
  forallb is_Started ms = true ->
  run_worker (List.length ms + k) pid w
  = run_worker k pid
      (with_processes w (replace_nth pid (mkProcess a rest) (processes w))).
Proof.
  induction ms as [|m ms IH]; intros k w pid a rest Hp Hs.
  - simpl in *. rewrite (replace_nth_same _ _ _ _ Hp).
    destruct w; reflexivity.
  - simpl in Hs. apply andb_true_iff in Hs. destruct Hs as [Hm Hs].
    destruct m; [|discriminate]. cbn [List.length Nat.add run_worker].
    unfold deliver. rewrite Hp. cbn [mailbox app proc_actor Receive].
    assert (L : (pid < List.length (processes w))%nat)
      by (apply nth_error_Some; congruence).
    rewrite (IH k _ pid a rest); cbn [processes with_processes]; [|
      apply nth_error_replace_nth; exact L|exact Hs].
    rewrite replace_nth_twice. reflexivity.
Qed.

Lemma forallb_replace_nth : forall (A : Type) (f : A -> bool) l n x,
  forallb f l = true -> f x = true -> forallb f (replace_nth n x l) = true.
Proof.
  intros A f l. induction l as [|h t IH]; intros n x Hl Hx; [reflexivity|].
  simpl in Hl. apply andb_true_iff in Hl. destruct Hl as [Hh Ht].
  destruct n; simpl.
  - rewrite Hx, Ht. reflexivity.
  - rewrite Hh, (IH n x Ht Hx). reflexivity.
Qed.

Lemma forallb_nth_error : forall (A : Type) (f : A -> bool) l n x,
  forallb f l = true -> nth_error l n = Some x -> f x = true.
Proof.
  intros A f l n x Hl Hn. rewrite forallb_forall in Hl. apply Hl.
  eapply nth_error_In. exact Hn.
Qed.

Lemma pool_of_worker : forall n p w,
  pool_of n (mkSystem p w) ->
  exists mb,
    nth_error (processes w) (Z.to_nat (roundRobin p))
    = Some (mkProcess (mkActor (roundRobin p)) mb).
Proof.
  intros n p w (Ha & Hw & Hr). simpl in *.
  pose proof (nth_error_map proc_actor (Z.to_nat (roundRobin p)) (processes w)) as E.
  rewrite Hw, nth_error_map, nth_error_seq in E.
  destruct (Nat.ltb_spec (Z.to_nat (roundRobin p)) n) as [L|L]; [|lia].
  simpl in E. rewrite Z2Nat.id in E by lia.
  destruct (nth_error (processes w) (Z.to_nat (roundRobin p))) as [[a mb]|];
    [|discriminate].
  simpl in E. inversion E; subst a. exists mb. reflexivity.
Qed.

Lemma Receive_fresh : forall a msg w,
  nth_error (chans w) (req_Result msg) = Some (mkChan 1 [] 0) ->
  Receive a (IsRequest msg) w
  = Some (mkWorld (snd (fst (handle msg (handler_db w)))) (processes w)
            (replace_nth (req_Result msg)
               (mkChan 1 [fst (fst (handle msg (handler_db w)))] 1) (chans w))
            (stdlog w ++ [(a_id a, req_Type msg)])
            (responses w ++ snd (handle msg (handler_db w)))).
Proof.
  intros a msg w H. unfold Receive. rewrite process_eq.
  cbn [Printf handler_db processes chans stdlog responses].
  destruct (fst (fst (handle msg (handler_db w)))); unfold chan_send;
    cbn [chans]; rewrite H; reflexivity.
Qed.

Lemma ProcessRequest_idle : forall n p w ty pl ctx,
  pool_of n (mkSystem p w) ->
  idle w = true ->
  let i := roundRobin p in
  let r := handle (mkRequest ty pl ctx (List.length (chans w))) (handler_db w) in
  let w' := mkWorld (snd (fst r))
              (replace_nth (Z.to_nat i) (mkProcess (mkActor i) []) (processes w))
              (chans w ++ [mkChan 1 [] 1])
              (stdlog w ++ [(i, ty)])
              (responses w ++ snd r) in
  ProcessRequest p ty pl ctx w
  = Some (fst (fst r), mkPool (actors p) ((i + 1) mod Z.of_nat n), w')
  /\ idle w' = true
  /\ pool_of n (mkSystem (mkPool (actors p) ((i + 1) mod Z.of_nat n)) w').
Proof.
  intros n p w ty pl ctx P I i r w'.
  destruct (pool_of_worker n p w P) as (mb & Hp). fold i in Hp.
  destruct P as (Ha & Hw & Hr). simpl in Ha, Hw, Hr. fold i in Hr.
  assert (Lp : (Z.to_nat i < List.length (processes w))%nat)
    by (apply nth_error_Some; congruence).
  assert (Hmb : forallb is_Started mb = true).
  { unfold idle in I.
    apply (forallb_nth_error _ _ _ _ _ I Hp). }
  split; [|split].
  - unfold ProcessRequest, ProcessRequest_submit, PID. rewrite Ha.
    fold i. rewrite (index_seq n i Hr). unfold make_chan, Send.
    cbn [processes with_chans]. rewrite Hp. cbn [proc_actor mailbox].
    set (msg := mkRequest ty pl ctx (List.length (chans w))).
    unfold mailbox_size. cbn [processes with_processes].
    rewrite nth_error_replace_nth by exact Lp. cbn [mailbox].
    rewrite length_app. cbn [List.length].
    rewrite (run_worker_Started mb 1 _ (Z.to_nat i) (mkActor i) [IsRequest msg]);
      [|cbn [processes with_processes]; apply nth_error_replace_nth; exact Lp
       |exact Hmb].
    cbn [processes with_processes]. rewrite replace_nth_twice.
    cbn [run_worker]. unfold deliver. cbn [processes with_processes].
    rewrite nth_error_replace_nth by exact Lp. cbn [mailbox proc_actor].
    rewrite replace_nth_twice.
    rewrite Receive_fresh
      by (cbn [chans req_Result msg with_processes with_chans];
          apply nth_error_last).
    cbn [handler_db processes chans stdlog responses with_chans with_processes
         a_id req_Type req_Result msg].
    fold msg. fold r. rewrite replace_nth_last.
    unfold chan_recv. cbn [chans]. rewrite nth_error_last.
    cbn [buffer capacity sent]. unfold with_chans.
    cbn [chans processes handler_db stdlog responses].
    rewrite replace_nth_last, Z.rem_mod_nonneg.
    + unfold len. rewrite length_seq. reflexivity.
    + lia.
    + unfold len. rewrite length_seq. lia.
  - subst w'. unfold idle in *. cbn [processes].
    apply forallb_replace_nth; [exact I|reflexivity].
  - subst w'. unfold pool_of. cbn [sys_pool sys_world actors roundRobin processes].
    split; [exact Ha|]. split.
    + rewrite (map_replace_nth _ _ proc_actor _ _ _ _ Hp) by reflexivity.
      exact Hw.
    + apply Z.mod_pos_bound. lia.
Qed.


(** X16.  [ProcessRequest] on a pool in which no request waits, when the
    selected worker is left to work: the call returns what the handler of
    the kind returns on the store as it is, the store afterwards is the one
    the handler leaves, the responses are those the handler writes; the
    counter has moved on by one around the pool, the worker has logged the
    request and emptied its mailbox, and the one new channel has had its one
    send and is empty again.  No request waits afterwards either. *)
Theorem ProcessRequest_on_idle_pool : forall n p w ty pl ctx,
  pool_of n (mkSystem p w) ->
  idle w = true ->
  let i := roundRobin p in
  let r := handle (mkRequest ty pl ctx (List.length (chans w))) (handler_db w) in
  let w' := mkWorld (snd (fst r))
              (replace_nth (Z.to_nat i) (mkProcess (mkActor i) []) (processes w))
              (chans w ++ [mkChan 1 [] 1])
              (stdlog w ++ [(i, ty)])
              (responses w ++ snd r) in
  ProcessRequest p ty pl ctx w
  = Some (fst (fst r), mkPool (actors p) ((i + 1) mod Z.of_nat n), w')
  /\ idle w' = true
  /\ pool_of n (mkSystem (mkPool (actors p) ((i + 1) mod Z.of_nat n)) w').
Proof. exact ProcessRequest_idle. Qed.

Lemma ProcessRequest_on_idle_pool_witness :
  exists v p' w',
    ProcessRequest (sys_pool pool_of_three) "vote" (VoteRequest 1 "post" 1)
                   (mkContext 2) (sys_world pool_of_three)
    = Some (v, p', w')
    /\ idle w' = true.
Proof.
  assert (P : pool_of 3 (mkSystem (sys_pool pool_of_three) (sys_world pool_of_three))).
  { unfold pool_of. split; [vm_compute; reflexivity|].
    split; [vm_compute; reflexivity|].
    split; [vm_compute; discriminate|vm_compute; reflexivity]. }
  assert (I : idle (sys_world pool_of_three) = true) by (vm_compute; reflexivity).
  pose proof (ProcessRequest_on_idle_pool 3 (sys_pool pool_of_three)
                (sys_world pool_of_three) "vote" (VoteRequest 1 "post" 1)
                (mkContext 2) P I) as (E & I' & _).
  eexists. eexists. eexists. split; [exact E|exact I'].
Defined.

(** ** In what order a worker serves *)

Lemma waiting_channels_app : forall mb1 mb2,
  waiting_channels (mb1 ++ mb2) = waiting_channels mb1 ++ waiting_channels mb2.
Proof. intros. unfold waiting_channels. apply flat_map_app. Qed.

Lemma deliver_pops : forall pid w w',
  deliver pid w = Some w' ->
  exists pr m rest,
    nth_error (processes w) pid = Some pr /\ mailbox pr = m :: rest
    /\ processes w'
       = replace_nth pid (mkProcess (proc_actor pr) rest) (processes w).
Proof.
  intros pid w w' D. unfold deliver in D.
  destruct (nth_error (processes w) pid) as [pr|] eqn:Hp; [|discriminate].
  destruct (mailbox pr) as [|m rest] eqn:Hm; [discriminate|].
  apply Receive_processes in D. exists pr, m, rest.
  split; [reflexivity|]. split; [exact Hm|exact D].
Qed.

Lemma nth_error_replace_nth_inv : forall (A : Type) (l : list A) n m x y,
  nth_error (replace_nth n x l) m = Some y ->
  exists z, nth_error l m = Some z /\ (m = n -> y = x) /\ (m <> n -> y = z).
Proof.
  intros A l n m x y H.
  assert (L : (m < List.length l)%nat).
  { rewrite <- (length_replace_nth A l n x). apply nth_error_Some. congruence. }
  destruct (nth_error l m) as [z|] eqn:E; [|apply nth_error_None in E; lia].
  exists z. split; [reflexivity|]. split.
  - intros ->. rewrite nth_error_replace_nth in H by exact L. congruence.
  - intros N. rewrite nth_error_replace_nth_other in H by congruence. congruence.
Qed.

(** One move: what was waiting and what was sent is what was taken and what
    is waiting. *)
Lemma move_step_order : forall a srv o srv' pid pr',
  move_step a srv = Some (o, srv') ->
  nth_error (processes (srv_world srv')) pid = Some pr' ->
  exists pr,
    nth_error (processes (srv_world srv)) pid = Some pr
    /\ waiting_channels (mailbox pr) ++ posted_to pid [o]
       = handled_by pid [o] ++ waiting_channels (mailbox pr').
Proof.
  intros a [p w cs] o srv' pid pr' H Hpr'.
  assert (Same : processes (srv_world srv') = processes w ->
                 posted_to pid [o] = [] -> handled_by pid [o] = [] ->
                 exists pr,
                   nth_error (processes w) pid = Some pr
                   /\ waiting_channels (mailbox pr) ++ posted_to pid [o]
                      = handled_by pid [o] ++ waiting_channels (mailbox pr')).
  { intros E P Hd. rewrite E in Hpr'. exists pr'. rewrite P, Hd, app_nil_r.
    split; [exact Hpr'|reflexivity]. }
  destruct a as [ty pl ctx|k|k|worker|k|m]; unfold move_step in H;
    cbn [srv_pool srv_world srv_callers] in *.
  - destruct (index (actors p) (roundRobin p)); [|discriminate].
    inversion H; subst. apply Same; reflexivity.
  - destruct (nth_error cs k) as [[ty pl ctx [actor|actor c|c|v]]|]; try discriminate.
    inversion H; subst. apply Same; reflexivity.
  - destruct (nth_error cs k) as [[ty pl ctx [actor|actor c|c|v]]|]; try discriminate.
    inversion H; subst; clear H. cbn [srv_world] in *. clear Same.
    unfold Send in Hpr'. unfold posted_to, handled_by. cbn [flat_map]. rewrite app_nil_r.
    destruct (nth_error (processes w) actor) as [pa|] eqn:Ha.
    + cbn [processes with_processes] in Hpr'.
      destruct (nth_error_replace_nth_inv _ _ _ _ _ _ Hpr') as (z & Hz & Heq & Hne).
      exists z. split; [exact Hz|].
      destruct (Nat.eqb_spec actor pid) as [->|N].
      * rewrite (Heq eq_refl). cbn [mailbox]. rewrite waiting_channels_app.
        assert (z = pa) by congruence. subst z. reflexivity.
      * rewrite (Hne (fun X => N (eq_sym X))), app_nil_r. reflexivity.
    + exists pr'. split; [exact Hpr'|].
      destruct (Nat.eqb_spec actor pid) as [->|N]; [congruence|].
      rewrite app_nil_r. reflexivity.
  - destruct (nth_error (processes w) worker) as [pr|] eqn:Hw; [|discriminate].
    destruct (mailbox pr) as [|m rest] eqn:Hm; [discriminate|].
    destruct (deliver worker w) as [w1|] eqn:D; [|discriminate].
    inversion H; subst; clear H. cbn [srv_world] in *. clear Same.
    destruct (deliver_pops _ _ _ D) as (pr0 & m0 & rest0 & Hp0 & Hm0 & Hps).
    assert (pr0 = pr) by congruence. subst pr0.
    assert (X : m0 :: rest0 = m :: rest) by congruence.
    inversion X; subst m0 rest0; clear X.
    rewrite Hps in Hpr'.
    destruct (nth_error_replace_nth_inv _ _ _ _ _ _ Hpr') as (z & Hz & Heq & Hne).
    exists z. split; [exact Hz|].
    unfold posted_to, handled_by. cbn [flat_map]. rewrite !app_nil_r.
    destruct (Nat.eqb_spec worker pid) as [->|N].
    + rewrite (Heq eq_refl). cbn [mailbox].
      assert (z = pr) by congruence. subst z. rewrite Hm.
      change (m :: rest) with ([m] ++ rest). apply waiting_channels_app.
    + rewrite (Hne (fun X => N (eq_sym X))). reflexivity.
  - destruct (nth_error cs k) as [[ty pl ctx [actor|actor c|c|v]]|]; try discriminate.
    destruct (chan_recv c w) as [[v w1]|] eqn:R; [|discriminate].
    inversion H; subst. apply Same; try reflexivity.
    cbn [srv_world]. exact (chan_recv_processes _ _ _ _ R).
  - inversion H; subst. apply Same; reflexivity.
Qed.

Lemma play_order : forall moves srv os srv' pid pr',
  play moves srv = Some (os, srv') ->
  nth_error (processes (srv_world srv')) pid = Some pr' ->
  exists pr,
    nth_error (processes (srv_world srv)) pid = Some pr
    /\ waiting_channels (mailbox pr) ++ posted_to pid os
       = handled_by pid os ++ waiting_channels (mailbox pr').
Proof.
  induction moves as [|a moves IH]; intros srv os srv' pid pr' H Hpr'; simpl in H.
  - inversion H; subst. exists pr'. split; [exact Hpr'|].
    unfold posted_to, handled_by. simpl. rewrite app_nil_r. reflexivity.
  - destruct (move_step a srv) as [[o srv1]|] eqn:E; [|discriminate].
    destruct (play moves srv1) as [[os1 srv2]|] eqn:R; [|discriminate].
    inversion H; subst; clear H.
    destruct (IH srv1 os1 srv' pid pr' R Hpr') as (pr1 & Hp1 & E1).
    destruct (move_step_order a srv o srv1 pid pr1 E Hp1) as (pr & Hp & E0).
    exists pr. split; [exact Hp|].
    change (o :: os1) with ([o] ++ os1).
    unfold posted_to, handled_by in *. rewrite !flat_map_app.
    rewrite app_assoc, E0, <- app_assoc, E1, app_assoc. reflexivity.
Qed.

Lemma open_server_mailboxes : forall N dm srv pid pr,
  open_server N dm = Some srv ->
  nth_error (processes (srv_world srv)) pid = Some pr ->
  waiting_channels (mailbox pr) = [].
Proof.
  intros N dm srv pid pr H Hpr. unfold open_server, start, NewActorPool in H.
  destruct (N <? 0); [discriminate|]. rewrite spawn_workers_spec in H.
  inversion H; subst; clear H. cbn [srv_world sys_world processes with_processes boot] in Hpr.
  simpl in Hpr. apply nth_error_In in Hpr. apply in_map_iff in Hpr.
  destruct Hpr as (k & <- & _). reflexivity.
Qed.

(** The submission of [act] is the play of the three moves of one caller
    with nothing in between. *)
Lemma Submit_in_three_moves : forall p w cs ty pl ctx,
  play [Select ty pl ctx; Make (List.length cs); Post (List.length cs)]
       (mkServer p w cs)
  = match ProcessRequest_submit p ty pl ctx w with
    | Some (pid, c, p', w') =>
        Some ([ Chose (List.length cs) (roundRobin p) pid;
                MadeChan (List.length cs) c;
                Posted (List.length cs) pid c ],
              mkServer p' w' (cs ++ [mkCaller ty pl ctx (Waits c)]))
    | None => None
    end.
Proof.
  intros p w cs ty pl ctx. unfold ProcessRequest_submit.
  cbn [play move_step srv_pool srv_world srv_callers].
  destruct (index (actors p) (roundRobin p)) as [actor|]; [|reflexivity].
  cbn [srv_pool srv_world srv_callers]. rewrite nth_error_last.
  unfold make_chan. cbn [srv_pool srv_world srv_callers].
  rewrite replace_nth_last, nth_error_last, replace_nth_last. reflexivity.
Qed.

(** X17.  In what order a worker serves, with the selection, the making of
    the channel and the sending of a submission taken as the three steps
    that they are, and the callers, the workers and the handlers that call
    the store taking their steps in any order.  From a server fresh from
    [NewActorPool]: the requests that a worker has taken are, in this order,
    the first of the requests that were sent to it, and those it has not
    taken wait in its mailbox in the order in which they were sent.  A worker
    serves in the order of arrival.  It is not the order of selection: with
    one worker and two callers, the caller selected second can send first,
    and is then served first. *)
Theorem served_in_order_of_arrival : forall N dm srv0 moves os srv,
  open_server N dm = Some srv0 ->
  play moves srv0 = Some (os, srv) ->
  (forall pid pr, nth_error (processes (srv_world srv)) pid = Some pr ->
     posted_to pid os = handled_by pid os ++ waiting_channels (mailbox pr))
  /\ play overtaking one_worker = Some overtaken
     /\ chosen (fst overtaken) = [0%nat; 1%nat]
     /\ posters_to 0%nat (fst overtaken) = [1%nat; 0%nat]
     /\ handled_by 0%nat (fst overtaken) = posted_to 0%nat (fst overtaken).
Proof.
  intros N dm srv0 moves os srv S P. split.
  - intros pid pr Hpr.
    destruct (play_order moves srv0 os srv pid pr P Hpr) as (pr0 & Hp0 & E).
    rewrite (open_server_mailboxes N dm srv0 pid pr0 S Hp0) in E. exact E.
  - repeat split; vm_compute; reflexivity.
Qed.

Lemma served_in_order_of_arrival_witness :
  (forall pid pr,
     nth_error (processes (srv_world (snd overtaken))) pid = Some pr ->
     posted_to pid (fst overtaken)
     = handled_by pid (fst overtaken) ++ waiting_channels (mailbox pr))
  /\ posters_to 0%nat (fst overtaken) = [1%nat; 0%nat].
Proof.
  assert (S : open_server 1 go_post = Some one_worker) by (vm_compute; reflexivity).
  assert (P : play overtaking one_worker = Some (fst overtaken, snd overtaken))
    by (vm_compute; reflexivity).
  pose proof (served_in_order_of_arrival 1 go_post one_worker overtaking
                (fst overtaken) (snd overtaken) S P) as (H1 & _ & _ & H2 & _).
  split; [exact H1|exact H2].
Defined.

(** ** The HTTP layer *)

Ltac kind_by_kind ty :=
  repeat match goal with
         | |- context [String.eqb ty ?k] =>
             destruct (String.eqb_spec ty k) as [->|?]; cbn [String.eqb Ascii.eqb Bool.eqb]
         end.

Ltac bound :=
  match goal with
  | |- context [ShouldBindJSON ?d ?v ?c] =>
      let req := fresh "req" in
      let err := fresh "err" in
      destruct (ShouldBindJSON d v c) as [req err];
      repeat match goal with x : (_ * _)%type |- _ => destruct x end
  | |- context [Atoi ?l ?s] =>
      let err := fresh "err" in
      destruct (Atoi l s) as [? [err|]]
  end.

(** The payload that the [switch] hands on is the struct of the kind. *)
Lemma switch_fits : forall lib ty c pl,
  ActorPoolHandler_switch lib ty c = Parsed pl None -> fits ty pl = true.
Proof.
  intros lib ty c pl. unfold ActorPoolHandler_switch, fits.
  kind_by_kind ty; try discriminate;
    bound; intros H; inversion H; reflexivity.
Qed.

Lemma switch_replied : forall lib ty c status,
  ActorPoolHandler_switch lib ty c = Replied status -> status = StatusBadRequest.
Proof.
  intros lib ty c status. unfold ActorPoolHandler_switch.
  kind_by_kind ty; try (intros H; inversion H; reflexivity);
    bound; intros H; inversion H; reflexivity.
Qed.

Lemma store_call_apply : forall msg dm,
  store_call msg dm
  = apply (mutation_of (user_id (req_Context msg)) (req_Payload msg)) dm.
Proof. intros msg dm. unfold store_call. destruct (req_Payload msg); reflexivity. Qed.

Lemma ActorPoolHandler_cases : forall lib n ty c sys,
  pool_of n sys ->
  idle (sys_world sys) = true ->
  match ActorPoolHandler_switch lib ty c with
  | Parsed pl None =>
      let call := apply (mutation_of (user_id (context_of lib c)) pl)
                        (handler_db (sys_world sys)) in
      fits ty pl = true
      /\ exists sys',
           ActorPoolHandler lib ty c sys = Some sys'
           /\ handler_db (sys_world sys') = snd call
           /\ responses (sys_world sys')
              = responses (sys_world sys)
                ++ match fst call with
                   | None => [success_status ty]
                   | Some _ => [StatusInternalServerError; StatusInternalServerError]
                   end
           /\ pool_of n sys'
           /\ idle (sys_world sys') = true
  | _ => ActorPoolHandler lib ty c sys = Some (reply StatusBadRequest sys)
  end.
Proof.
  intros lib n ty c [p w] P I. cbn [sys_world sys_pool] in *.
  destruct (ActorPoolHandler_switch lib ty c) as [status|pl [e|]] eqn:S.
  - unfold ActorPoolHandler. rewrite S, (switch_replied _ _ _ _ S). reflexivity.
  - unfold ActorPoolHandler. rewrite S. reflexivity.
  - pose proof (switch_fits _ _ _ _ S) as F. split; [exact F|].
    destruct (ProcessRequest_idle n p w ty pl (context_of lib c) P I)
      as (E & I' & P').
    set (msg := mkRequest ty pl (context_of lib c) (List.length (chans w))) in *.
    pose proof (handle_fits msg (handler_db w) F) as H.
    rewrite store_call_apply in H. cbn [req_Context req_Payload req_Type msg] in H.
    unfold ActorPoolHandler. rewrite S. cbn [sys_pool sys_world].
    rewrite E. rewrite H in *. cbn [fst snd] in *.
    destruct (fst (apply (mutation_of (user_id (context_of lib c)) pl) (handler_db w)))
      as [e|].
    + eexists. split; [reflexivity|].
      cbn [reply sys_world sys_pool JSON handler_db responses processes].
      split; [reflexivity|]. split; [rewrite <- app_assoc; reflexivity|].
      split; [exact P'|exact I'].
    + eexists. split; [reflexivity|].
      cbn [sys_world handler_db responses].
      split; [reflexivity|]. split; [reflexivity|].
      split; [exact P'|exact I'].
Qed.

(** X18.  A request of one of the seven kinds through [ActorPoolHandler], on
    a pool in which no request waits.  When the parameter does not parse or
    the body does not bind, or the kind is none of the seven, the handler
    writes one 400 and nothing else happens.  Otherwise the payload that it
    hands to the pool is the struct of the kind, so the worker does not meet
    a payload it cannot use; the store is changed by the one mutation of the
    request, made for the user of the context; and the call returns.  When
    the mutation returns no error there is one response, 200 or 201 by kind;
    when it returns an error there are two, the 500 of the worker and the
    500 of the handler.  The pool is as ready as before. *)
Theorem ActorPoolHandler_spec : forall lib n ty c sys,
  pool_of n sys ->
  idle (sys_world sys) = true ->
  match ActorPoolHandler_switch lib ty c with
  | Parsed pl None =>
      let call := apply (mutation_of (user_id (context_of lib c)) pl)
                        (handler_db (sys_world sys)) in
      fits ty pl = true
      /\ exists sys',
           ActorPoolHandler lib ty c sys = Some sys'
           /\ handler_db (sys_world sys') = snd call
           /\ responses (sys_world sys')
              = responses (sys_world sys)
                ++ match fst call with
                   | None => [success_status ty]
                   | Some _ => [StatusInternalServerError; StatusInternalServerError]
                   end
           /\ pool_of n sys'
           /\ idle (sys_world sys') = true
  | _ => ActorPoolHandler lib ty c sys = Some (reply StatusBadRequest sys)
  end.
Proof. exact ActorPoolHandler_cases. Qed.

Lemma ActorPoolHandler_spec_witness :
  (exists sys',
     ActorPoolHandler example_library "vote" upvote_request go_server = Some sys'
     /\ responses (sys_world sys') = [StatusOK])
  /\ (exists sys',
        ActorPoolHandler example_library "vote" upvote_request go_server_upvoted
        = Some sys'
        /\ responses (sys_world sys')
           = [StatusOK; StatusInternalServerError; StatusInternalServerError]).
Proof.
  assert (P : pool_of 3 go_server).
  { unfold pool_of. split; [vm_compute; reflexivity|].
    split; [vm_compute; reflexivity|].
    split; [vm_compute; discriminate|vm_compute; reflexivity]. }
  assert (I : idle (sys_world go_server) = true) by (vm_compute; reflexivity).
  assert (P1 : pool_of 3 go_server_upvoted).
  { unfold pool_of. split; [vm_compute; reflexivity|].
    split; [vm_compute; reflexivity|].
    split; [vm_compute; discriminate|vm_compute; reflexivity]. }
  assert (I1 : idle (sys_world go_server_upvoted) = true)
    by (vm_compute; reflexivity).
  pose proof (ActorPoolHandler_spec example_library 3 "vote" upvote_request
                go_server P I) as H.
  pose proof (ActorPoolHandler_spec example_library 3 "vote" upvote_request
                go_server_upvoted P1 I1) as H1.
  assert (S : ActorPoolHandler_switch example_library "vote" upvote_request
              = Parsed (VoteRequest 1 "post" 1) None) by (vm_compute; reflexivity).
  rewrite S in H, H1.
  destruct H as (_ & sys' & E & _ & R & _).
  destruct H1 as (_ & sys1 & E1 & _ & R1 & _).
  split.
  - exists sys'. split; [exact E|]. rewrite R. vm_compute. reflexivity.
  - exists sys1. split; [exact E1|]. rewrite R1. vm_compute. reflexivity.
Defined.

(** X19.  Every POST route but /register stands behind [authMiddleware]: a
    request without the X-User-ID header, or with an empty one, gets one 401
    and nothing else happens, whatever the route, the parameters and the
    body.  With a header, a request of one of the seven kinds is handled by
    [ActorPoolHandler] for the user whose id [strconv.Atoi] makes of the
    header, the error of [strconv.Atoi] being dropped. *)
Theorem unauthorized_is_refused : forall lib r c sys,
  r <> POST_register ->
  (Header_X_User_ID c = "" -> serve lib r c sys = Some (reply StatusUnauthorized sys))
  /\ (Header_X_User_ID c <> "" ->
      forall ty, kind_of r = Some ty ->
        let c' := Set_key "user_id" (Header_X_User_ID c) c in
        serve lib r c sys = ActorPoolHandler lib ty c' sys
        /\ context_of lib c' = mkContext (fst (Atoi lib (Header_X_User_ID c)))).
Proof.
  intros lib r c sys Hr. split.
  - intros H. destruct r; try contradiction;
      unfold serve, authMiddleware; rewrite H; reflexivity.
  - intros H ty K c'.
    assert (E : String.eqb (Header_X_User_ID c) "" = false)
      by (apply String.eqb_neq; exact H).
    split.
    + destruct r; try discriminate K; injection K as <-;
        unfold serve, authMiddleware; rewrite E; reflexivity.
    + reflexivity.
Qed.

Lemma unauthorized_is_refused_witness :
  serve example_library POST_vote (example_request "" "" "upvote") go_server
  = Some (reply StatusUnauthorized go_server)
  /\ serve example_library POST_vote (example_request "2" "" "upvote") go_server
     = ActorPoolHandler example_library "vote" upvote_request go_server.
Proof.
  assert (N : POST_vote <> POST_register) by discriminate.
  pose proof (unauthorized_is_refused example_library POST_vote
                (example_request "" "" "upvote") go_server N) as [H1 _].
  pose proof (unauthorized_is_refused example_library POST_vote
                (example_request "2" "" "upvote") go_server N) as [_ H2].
  split.
  - apply H1. reflexivity.
  - apply (H2 ltac:(discriminate) "vote" eq_refl).
Defined.

Lemma oneof_post_comment : forall ty,
  oneof_string ["post"; "comment"] ty = true -> ty = "post" \/ ty = "comment".
Proof.
  intros ty H. unfold oneof_string in H. cbn [existsb] in H.
  apply orb_true_iff in H. destruct H as [H|H];
    [left; apply String.eqb_eq; exact H|].
  apply orb_true_iff in H. destruct H as [H|H];
    [right; apply String.eqb_eq; exact H|discriminate].
Qed.

Lemma switch_vote : forall lib c t ty v,
  ActorPoolHandler_switch lib "vote" c = Parsed (VoteRequest t ty v) None ->
  valid_VoteRequest (t, ty, v) = true.
Proof.
  intros lib c t ty v. unfold ActorPoolHandler_switch.
  cbn [String.eqb Ascii.eqb Bool.eqb]. unfold ShouldBindJSON.
  destruct (decode_VoteRequest lib (Body c)) as [[[t0 ty0] v0] [e|]].
  - intros H. inversion H.
  - destruct (valid_VoteRequest (t0, ty0, v0)) eqn:V; intros H; inversion H.
    subst. exact V.
Qed.

(** X20.  A vote that [ActorPoolHandler] hands to the pool has passed the
    [binding] tags: its kind is "post" or "comment", its value is 1 or -1
    and its target id is not 0.  So the store refuses it, when no driver call
    fails, in one case only: the voter has cast this very vote before. *)
Theorem bound_vote_fails_only_as_repeat : forall lib c t ty v,
  ActorPoolHandler_switch lib "vote" c = Parsed (VoteRequest t ty v) None ->
  (ty = "post" \/ ty = "comment")
  /\ (v = -1 \/ v = 1)
  /\ t <> 0
  /\ forall u dm, calm dm ->
       (fst (Vote u t ty v dm) = None <-> has_voted (db dm) u t ty v = false).
Proof.
  intros lib c t ty v S. apply switch_vote in S. unfold valid_VoteRequest in S.
  apply andb_true_iff in S. destruct S as [S Hv].
  apply andb_true_iff in S. destruct S as [Ht Hty].
  apply andb_true_iff in Hty. destruct Hty as [_ Hty].
  apply andb_true_iff in Hv. destruct Hv as [_ Hv].
  apply oneof_post_comment in Hty.
  assert (Hv' : v = -1 \/ v = 1).
  { unfold oneof_int in Hv. cbn [existsb] in Hv.
    apply orb_true_iff in Hv. destruct Hv as [Hv|Hv];
      [left; apply Z.eqb_eq; exact Hv|].
    apply orb_true_iff in Hv. destruct Hv as [Hv|Hv];
      [right; apply Z.eqb_eq; exact Hv|discriminate]. }
  assert (Hty' : (String.eqb ty "post" || String.eqb ty "comment") = true)
    by (destruct Hty; subst; reflexivity).
  split; [exact Hty|]. split; [exact Hv'|]. split.
  - unfold required_int in Ht. intros ->. discriminate.
  - intros u dm C. split.
    + intros E. pose proof (Vote_spec u t ty v dm) as H.
      destruct (Vote u t ty v dm) as [[e|] dm']; [discriminate|].
      destruct H as (_ & _ & H & _). exact H.
    + intros H. apply Vote_calm; assumption.
Qed.

Lemma bound_vote_fails_only_as_repeat_witness :
  fst (Vote 2 1 "post" 1 go_post) = None
  <-> has_voted (db go_post) 2 1 "post" 1 = false.
Proof.
  assert (S : ActorPoolHandler_switch example_library "vote" upvote_request
              = Parsed (VoteRequest 1 "post" 1) None) by (vm_compute; reflexivity).
  pose proof (bound_vote_fails_only_as_repeat example_library upvote_request
                1 "post" 1 S) as (_ & _ & _ & H).
  apply H. vm_compute. constructor.
Defined.

(** X21.  POST /register.  The handler writes one response.  It is 201 when
    the body has bound and [RegisterUser] has returned no error: one user
    has been appended, with a name and a password that are not empty and a
    name that no user had.  It is 400 when the body has not bound, and then
    the store has not been called.  It is 500 when [RegisterUser] has
    returned an error, and then the store holds what it held.  When the body
    binds, the name is free, no driver call fails and the ids are not
    exhausted, it is 201. *)
Theorem registerUser_spec : forall lib c sys,
  let dm := handler_db (sys_world sys) in
  (exists status dm',
     registerUser lib c sys
     = Some (reply status (mkSystem (sys_pool sys) (with_db (sys_world sys) dm')))
     /\ ((status = StatusCreated
          /\ exists id name password,
               users (db dm') = users (db dm) ++ [mkUser id name password 0]
               /\ name <> "" /\ password <> ""
               /\ forall u, In u (users (db dm)) -> u_username u <> name)
         \/ (status = StatusBadRequest /\ dm' = dm)
         \/ (status = StatusInternalServerError /\ db dm' = db dm)))
  /\ forall name password,
       ShouldBindJSON (decode_RegisterUserRequest lib) valid_RegisterUserRequest c
       = ((name, password), None) ->
       calm dm ->
       existsb (fun u => String.eqb (u_username u) name) (users (db dm)) = false ->
       SQL.next_id "users" (SQL.user_ids (db dm)) (db dm) <> None ->
       exists dm',
         registerUser lib c sys
         = Some (reply StatusCreated
                   (mkSystem (sys_pool sys) (with_db (sys_world sys) dm'))).
Proof.
  intros lib c [p w] dm. subst dm. cbn [sys_world sys_pool]. split.
  - unfold registerUser, ShouldBindJSON. cbn [sys_world sys_pool].
    destruct (decode_RegisterUserRequest lib (Body c)) as [[name password] [e|]].
    + exists StatusBadRequest, (handler_db w). split.
      * destruct w; reflexivity.
      * right. left. split; reflexivity.
    + destruct (valid_RegisterUserRequest (name, password)) eqn:V.
      2:{ exists StatusBadRequest, (handler_db w). split.
          - destruct w; reflexivity.
          - right. left. split; reflexivity. }
      pose proof (RegisterUser_cases name password (handler_db w)) as H.
      destruct (RegisterUser name password (handler_db w)) as [[id [e|]] dm'].
      * exists StatusInternalServerError, dm'. split; [reflexivity|].
        right. right. split; [reflexivity|exact (proj2 H)].
      * exists StatusCreated, dm'. split; [reflexivity|]. left.
        split; [reflexivity|]. exists id, name, password.
        destruct H as (H1 & _ & H3 & _).
        unfold valid_RegisterUserRequest, required_string in V.
        apply andb_true_iff in V. destruct V as [V1 V2].
        split; [exact H1|].
        split; [intros ->; discriminate|].
        split; [intros ->; discriminate|].
        intros u Hu. exact (proj2 (H3 u Hu)).
  - intros name password B C Hfree Hids. unfold registerUser.
    cbn [sys_world sys_pool]. rewrite B.
    pose proof (RegisterUser_calm name password (handler_db w) C Hfree Hids) as H.
    destruct (RegisterUser name password (handler_db w)) as [[id err] dm'].
    simpl in H. subst err. exists dm'. reflexivity.
Qed.

Lemma registerUser_spec_witness :
  exists dm',
    registerUser example_library (example_request "" "" "carol pw") go_server
    = Some (reply StatusCreated
              (mkSystem (sys_pool go_server) (with_db (sys_world go_server) dm'))).
Proof.
  pose proof (registerUser_spec example_library
                (example_request "" "" "carol pw") go_server) as [_ H].
  apply (H "carol" "pw").
  - vm_compute. reflexivity.
  - vm_compute. constructor.
  - vm_compute. reflexivity.
  - vm_compute. discriminate.
Defined.

Lemma is_subscribed_snoc : forall s a b,
  is_subscribed
    (with_user_subscriptions s (user_subscriptions s ++ [mkSubscription a b])) a b
  = true.
Proof.
  intros s a b. unfold is_subscribed. simpl. rewrite existsb_app. simpl.
  replace (SQL.subscription_eqb (mkSubscription a b) (mkSubscription a b))
    with true by (symmetry; apply subscription_eqb_eq; reflexivity).
  rewrite orb_true_r. reflexivity.
Qed.

(** X22.  The subscription routes, for a request with a header.  When the
    path parameter is no number the handler writes one 400 and the store is
    not called.  Otherwise, when no driver call fails, the handler writes
    one 200, and afterwards the user of the header is subscribed to the user
    of the path, respectively is not: whoever the two are, be they one and
    the same or no users at all, and whether or not the header is a
    number. *)
Theorem subscription_routes : forall lib c sys,
  Header_X_User_ID c <> "" ->
  let subscriber := fst (Atoi lib (Header_X_User_ID c)) in
  let target := fst (Atoi lib (Param c "user_id")) in
  (snd (Atoi lib (Param c "user_id")) <> None ->
   serve lib POST_users_subscribe c sys = Some (reply StatusBadRequest sys)
   /\ serve lib POST_users_unsubscribe c sys = Some (reply StatusBadRequest sys))
  /\ (snd (Atoi lib (Param c "user_id")) = None ->
      calm (handler_db (sys_world sys)) ->
      (exists dm',
         serve lib POST_users_subscribe c sys
         = Some (reply StatusOK
                   (mkSystem (sys_pool sys) (with_db (sys_world sys) dm')))
         /\ is_subscribed (db dm') subscriber target = true)
      /\ (exists dm',
            serve lib POST_users_unsubscribe c sys
            = Some (reply StatusOK
                      (mkSystem (sys_pool sys) (with_db (sys_world sys) dm')))
            /\ is_subscribed (db dm') subscriber target = false)).
Proof.
  intros lib c [p w] H subscriber target. subst subscriber target.
  assert (E : String.eqb (Header_X_User_ID c) "" = false)
    by (apply String.eqb_neq; exact H).
  unfold serve, authMiddleware, subscribeToUser, unsubscribeFromUser.
  rewrite E. cbn [Param Set_key sys_world sys_pool].
  unfold GetString. cbn [Keys Set_key find fst snd String.eqb Ascii.eqb Bool.eqb].
  destruct (Atoi lib (Param c "user_id")) as [b [e|]]; cbn [fst snd].
  - split; [intros _; split; reflexivity|discriminate].
  - split; [intros X; contradiction|]. intros _ C.
    destruct (Atoi lib (Header_X_User_ID c)) as [a ea]. cbn [fst].
    rewrite (SubscribeToUser_calm a b (handler_db w) C).
    rewrite (UnsubscribeFromUser_calm a b (handler_db w) C).
    split.
    + eexists. split; [reflexivity|]. cbn [db].
      destruct (is_subscribed (db (handler_db w)) a b) eqn:S; [exact S|].
      apply is_subscribed_snoc.
    + eexists. split; [reflexivity|]. cbn [db].
      unfold is_subscribed. simpl. apply existsb_filter_removed.
Qed.

Lemma subscription_routes_witness :
  exists dm',
    serve example_library POST_users_subscribe (example_request "7" "7" "") go_server
    = Some (reply StatusOK
              (mkSystem (sys_pool go_server) (with_db (sys_world go_server) dm')))
    /\ is_subscribed (db dm') 7 7 = true.
Proof.
  assert (H : Header_X_User_ID (example_request "7" "7" "") <> "") by discriminate.
  pose proof (subscription_routes example_library (example_request "7" "7" "")
                go_server H) as [_ S].
  destruct S as [S _].
  - vm_compute. reflexivity.
  - vm_compute. constructor.
  - exact S.
Defined.

(** ** Requests one after the other *)

Lemma run_snoc : forall ms m dm, run (ms ++ [m]) dm = snd (apply m (run ms dm)).
Proof. intros ms m dm. unfold run. rewrite fold_left_app. reflexivity. Qed.

Lemma reply_keeps : forall n status p w dm,
  pool_of n (mkSystem p w) -> idle w = true ->
  pool_of n (reply status (mkSystem p (with_db w dm)))
  /\ idle (sys_world (reply status (mkSystem p (with_db w dm)))) = true
  /\ handler_db (sys_world (reply status (mkSystem p (with_db w dm)))) = dm.
Proof. intros n status p w dm P I. repeat split; try apply P; exact I. Qed.

Lemma with_db_same : forall w, with_db w (handler_db w) = w.
Proof. intros []. reflexivity. Qed.

Lemma serve_step : forall lib n r c sys,
  pool_of n sys -> idle (sys_world sys) = true ->
  exists sys',
    serve lib r c sys = Some sys'
    /\ pool_of n sys' /\ idle (sys_world sys') = true
    /\ (handler_db (sys_world sys') = handler_db (sys_world sys)
        \/ exists m,
             handler_db (sys_world sys') = snd (apply m (handler_db (sys_world sys)))).
Proof.
  intros lib n r c [p w] P I.
  assert (Same : forall status,
            exists sys',
              Some (reply status (mkSystem p w)) = Some sys'
              /\ pool_of n sys' /\ idle (sys_world sys') = true
              /\ (handler_db (sys_world sys') = handler_db (sys_world (mkSystem p w))
                  \/ exists m,
                       handler_db (sys_world sys')
                       = snd (apply m (handler_db (sys_world (mkSystem p w)))))).
  { intros status. eexists. split; [reflexivity|].
    destruct (reply_keeps n status p w (handler_db w) P I) as (P' & I' & D).
    rewrite with_db_same in *. split; [exact P'|]. split; [exact I'|].
    left. exact D. }
  assert (Direct : forall status m,
            exists sys',
              Some (reply status
                      (mkSystem p (with_db w (snd (apply m (handler_db w))))))
              = Some sys'
              /\ pool_of n sys' /\ idle (sys_world sys') = true
              /\ (handler_db (sys_world sys') = handler_db (sys_world (mkSystem p w))
                  \/ exists m,
                       handler_db (sys_world sys')
                       = snd (apply m (handler_db (sys_world (mkSystem p w)))))).
  { intros status m. eexists. split; [reflexivity|].
    destruct (reply_keeps n status p w (snd (apply m (handler_db w))) P I)
      as (P' & I' & D).
    split; [exact P'|]. split; [exact I'|]. right. exists m. exact D. }
  assert (Pool : forall ty c',
            exists sys',
              ActorPoolHandler lib ty c' (mkSystem p w) = Some sys'
              /\ pool_of n sys' /\ idle (sys_world sys') = true
              /\ (handler_db (sys_world sys') = handler_db (sys_world (mkSystem p w))
                  \/ exists m,
                       handler_db (sys_world sys')
                       = snd (apply m (handler_db (sys_world (mkSystem p w)))))).
  { intros ty c'.
    pose proof (ActorPoolHandler_cases lib n ty c' (mkSystem p w) P I) as H.
    destruct (ActorPoolHandler_switch lib ty c') as [status|pl [e|]].
    - rewrite H. apply Same.
    - rewrite H. apply Same.
    - destruct H as (_ & sys' & E & D & _ & P' & I').
      exists sys'. split; [exact E|]. split; [exact P'|]. split; [exact I'|].
      right. eexists. exact D. }
  destruct r; unfold serve;
    try (unfold authMiddleware;
         destruct (String.eqb (Header_X_User_ID c) ""); [apply Same|]);
    try apply Pool.
  - unfold registerUser, ShouldBindJSON. cbn [sys_world sys_pool].
    destruct (decode_RegisterUserRequest lib (Body c)) as [[name password] [e|]];
      [apply Same|].
    destruct (valid_RegisterUserRequest (name, password)); [|apply Same].
    pose proof (Direct StatusInternalServerError (MRegisterUser name password)) as D5.
    pose proof (Direct StatusCreated (MRegisterUser name password)) as D2.
    cbn [apply] in D5, D2.
    destruct (RegisterUser name password (handler_db w)) as [[id [e|]] dm'];
      [exact D5|exact D2].
  - unfold resetDatabase. cbn [sys_world sys_pool].
    pose proof (Direct StatusInternalServerError MResetDatabase) as D5.
    pose proof (Direct StatusOK MResetDatabase) as D2.
    cbn [apply] in D5, D2.
    destruct (ResetDatabase (handler_db w)) as [[e|] dm']; [exact D5|exact D2].
  - unfold subscribeToUser. cbn [sys_world sys_pool].
    destruct (Atoi lib (Param _ "user_id")) as [b [e|]]; [apply Same|].
    destruct (Atoi lib (GetString "user_id" _)) as [a ea].
    pose proof (Direct StatusInternalServerError (MSubscribeToUser a b)) as D5.
    pose proof (Direct StatusOK (MSubscribeToUser a b)) as D2.
    cbn [apply] in D5, D2.
    destruct (SubscribeToUser a b (handler_db w)) as [[e|] dm']; [exact D5|exact D2].
  - unfold unsubscribeFromUser. cbn [sys_world sys_pool].
    destruct (Atoi lib (Param _ "user_id")) as [b [e|]]; [apply Same|].
    destruct (Atoi lib (GetString "user_id" _)) as [a ea].
    pose proof (Direct StatusInternalServerError (MUnsubscribeFromUser a b)) as D5.
    pose proof (Direct StatusOK (MUnsubscribeFromUser a b)) as D2.
    cbn [apply] in D5, D2.
    destruct (UnsubscribeFromUser a b (handler_db w)) as [[e|] dm'];
      [exact D5|exact D2].
Qed.

Lemma serve_all_run : forall lib n reqs sys,
  pool_of n sys -> idle (sys_world sys) = true ->
  exists sys' ms,
    serve_all lib reqs sys = Some sys'
    /\ pool_of n sys' /\ idle (sys_world sys') = true
    /\ handler_db (sys_world sys') = run ms (handler_db (sys_world sys))
    /\ (List.length ms <= List.length reqs)%nat.
Proof.
  intros lib n reqs. induction reqs as [|[r c] reqs IH]; intros sys P I.
  - exists sys, []. repeat split; try apply P; try exact I. simpl. lia.
  - destruct (serve_step lib n r c sys P I) as (sys1 & E & P1 & I1 & D).
    destruct (IH sys1 P1 I1) as (sys2 & ms & E2 & P2 & I2 & D2 & L).
    simpl. rewrite E.
    destruct D as [D|[m D]].
    + exists sys2, ms. rewrite <- D. repeat split; try apply P2; try assumption.
      simpl. lia.
    + exists sys2, (m :: ms). rewrite D2, D.
      repeat split; try apply P2; try assumption. simpl. lia.
Qed.

(** X23.  A server with a pool of [N >= 1] workers, fresh from
    [NewActorPool], and any POST requests, each served to its end before
    the next, whatever the routes, headers, parameters and bodies and
    whatever the driver does.  Every request is served: no handler panics
    and none waits for ever.  The store at the end is one that a sequence of
    mutations reaches from the store at the start, with at most one mutation
    for each request: nothing reaches the store but through the methods of
    [DatabaseManager].  No request waits in a mailbox at the end. *)
Theorem served_requests_are_mutations : forall lib N dm sys0 reqs,
  1 <= N ->
  start N dm = Some sys0 ->
  exists sys ms,
    serve_all lib reqs sys0 = Some sys
    /\ handler_db (sys_world sys) = run ms dm
    /\ (List.length ms <= List.length reqs)%nat
    /\ idle (sys_world sys) = true.
Proof.
  intros lib N dm sys0 reqs HN S.
  destruct (start_pool N dm sys0 HN S) as (P0 & _ & Hmb).
  assert (D0 : handler_db (sys_world sys0) = dm).
  { unfold start, NewActorPool in S.
    destruct (N <? 0); [discriminate|]. rewrite spawn_workers_spec in S.
    inversion S. reflexivity. }
  assert (I0 : idle (sys_world sys0) = true).
  { unfold idle. apply forallb_forall. intros pr Hpr.
    apply forallb_forall. intros m Hm.
    assert (X : In m (flat_map mailbox (processes (sys_world sys0))))
      by (apply in_flat_map; exists pr; split; assumption).
    rewrite Hmb in X. apply in_map_iff in X. destruct X as (k & <- & _).
    reflexivity. }
  destruct (serve_all_run lib _ reqs sys0 P0 I0) as (sys & ms & E & _ & I & D & L).
  exists sys, ms. rewrite D0 in D. repeat split; assumption.
Qed.

Lemma served_requests_are_mutations_witness :
  exists sys ms,
    serve_all example_library
      [ (POST_register, example_request "" "" "carol pw");
        (POST_vote, example_request "2" "" "upvote");
        (POST_vote, example_request "2" "" "sideways");
        (POST_subreddits_join, example_request "3" "one" "") ]
      go_server = Some sys
    /\ handler_db (sys_world sys) = run ms go_post
    /\ (List.length ms <= 4)%nat
    /\ idle (sys_world sys) = true.
Proof.
  assert (S : start 3 go_post = Some go_server) by (vm_compute; reflexivity).
  assert (HN : 1 <= 3) by lia.
  exact (served_requests_are_mutations example_library 3 go_post go_server
           [ (POST_register, example_request "" "" "carol pw");
             (POST_vote, example_request "2" "" "upvote");
             (POST_vote, example_request "2" "" "sideways");
             (POST_subreddits_join, example_request "3" "one" "") ] HN S).
Defined.

(** ** The store under any schedule *)

Lemma chan_send_db : forall c v w w',
  chan_send c v w = Some w' -> handler_db w' = handler_db w.
Proof.
  intros c v w w' H. unfold chan_send in H.
  destruct (nth_error (chans w) c); [|discriminate].
  destruct (_ <? _)%nat; inversion H; reflexivity.
Qed.

Lemma handle_db : forall msg dm,
  snd (fst (handle msg dm)) = dm
  \/ exists m, snd (fst (handle msg dm)) = snd (apply m dm).
Proof.
  intros msg dm.
  destruct (fits (req_Type msg) (req_Payload msg)) eqn:F.
  - right. rewrite (handle_fits msg dm F), store_call_apply.
    eexists. reflexivity.
  - left. exact (proj1 (proj2 (handle_misfit msg dm F))).
Qed.

Lemma deliver_db : forall pid w w',
  deliver pid w = Some w' ->
  handler_db w' = handler_db w
  \/ exists m, handler_db w' = snd (apply m (handler_db w)).
Proof.
  intros pid w w' D. unfold deliver in D.
  destruct (nth_error (processes w) pid) as [pr|]; [|discriminate].
  destruct (mailbox pr) as [|[|msg] rest]; [discriminate| |].
  - inversion D. left. reflexivity.
  - unfold Receive in D. rewrite process_eq in D.
    cbn [Printf with_processes handler_db processes chans stdlog responses] in D.
    assert (E : handler_db w' = snd (fst (handle msg (handler_db w)))).
    { destruct (fst (fst (handle msg (handler_db w))));
        apply chan_send_db in D; exact D. }
    rewrite E. apply handle_db.
Qed.

Lemma act_db : forall a sys e sys',
  act a sys = Some (e, sys') ->
  handler_db (sys_world sys') = handler_db (sys_world sys)
  \/ exists m,
       handler_db (sys_world sys') = snd (apply m (handler_db (sys_world sys))).
Proof.
  intros a [p w] e sys' H.
  destruct a as [ty pl ctx|worker|c|m]; unfold act in H; cbn [sys_pool sys_world] in *.
  - unfold ProcessRequest_submit in H.
    destruct (index (actors p) (roundRobin p)) as [actor|]; [|discriminate].
    unfold make_chan, Send in H. cbn [processes with_chans] in H.
    destruct (nth_error (processes w) actor); inversion H; left; reflexivity.
  - destruct (deliver worker w) as [w1|] eqn:D; [|discriminate].
    inversion H; subst. exact (deliver_db _ _ _ D).
  - unfold chan_recv in H. destruct (nth_error (chans w) c) as [ch|]; [|discriminate].
    destruct (buffer ch); [discriminate|]. inversion H. left. reflexivity.
  - inversion H. right. exists m. reflexivity.
Qed.

Lemma replay_run : forall acts sys tr sys',
  replay acts sys = Some (tr, sys') ->
  exists ms,
    handler_db (sys_world sys') = run ms (handler_db (sys_world sys))
    /\ (List.length ms <= List.length tr)%nat.
Proof.
  induction acts as [|a acts IH]; intros sys tr sys' H; simpl in H.
  - inversion H; subst. exists []. split; [reflexivity|simpl; lia].
  - destruct (act a sys) as [[e sys1]|] eqn:E; [|discriminate].
    destruct (replay acts sys1) as [[es sys2]|] eqn:R; [|discriminate].
    inversion H; subst; clear H.
    destruct (IH sys1 es sys' R) as (ms & D & L).
    destruct (act_db _ _ _ _ E) as [S|[m S]].
    + exists ms. rewrite D, S. split; [reflexivity|simpl; lia].
    + exists (m :: ms). rewrite D, S. split; [reflexivity|simpl; lia].
Qed.

(** X24.  The store under any schedule.  Let callers submit requests of any
    kind and payload, workers take their steps, callers read their results
    and handlers call the store directly, in any order and on a pool of any
    size.  The store that the server then holds is one that a sequence of
    [DatabaseManager] mutations makes of the store at the start, with at most
    one mutation for each step: a worker changes the store by the one
    mutation of its request or not at all.  So the keys and constraints of
    the schema, when they hold at the start, hold in every state that the
    server reaches. *)
Theorem store_under_any_schedule : forall acts sys0 tr sys,
  replay acts sys0 = Some (tr, sys) ->
  (exists ms,
     handler_db (sys_world sys) = run ms (handler_db (sys_world sys0))
     /\ (List.length ms <= List.length tr)%nat)
  /\ (keys_ok (db (handler_db (sys_world sys0))) ->
      keys_ok (db (handler_db (sys_world sys)))).
Proof.
  intros acts sys0 tr sys R.
  destruct (replay_run acts sys0 tr sys R) as (ms & D & L).
  split.
  - exists ms. split; assumption.
  - intros K. rewrite D. apply run_keeps; [exact exec_keys_ok|exact K].
Qed.

Lemma store_under_any_schedule_witness :
  (exists ms,
     handler_db (sys_world (snd some_run))
     = run ms (handler_db (sys_world pool_of_three))
     /\ (List.length ms <= List.length (fst some_run))%nat)
  /\ keys_ok (db (handler_db (sys_world (snd some_run)))).
Proof.
  assert (R : replay some_schedule pool_of_three = Some (fst some_run, snd some_run))
    by (vm_compute; reflexivity).
  pose proof (store_under_any_schedule some_schedule pool_of_three
                (fst some_run) (snd some_run) R) as [H1 H2].
  split; [exact H1|]. apply H2.
  unfold keys_ok. vm_compute. repeat split; constructor.
Defined.
